(** * Recall: conversation memory with summarisation and JSON persistence

    A shallow embedding of [src/Recall/main.py]: [chat_with_memory],
    [generate_text] and [load_memory], together with the parts of the
    Python runtime they rest on (list slicing, the [json] module's
    encoder and decoder, text files, the HTTP client), and of the
    handlers of [chat_area.py] and [sidebar.py] that call them, followed
    by the properties of the conversation-memory policy.

    Layout: Part I holds every definition, Part II the lemmas about the
    policy, Part III those about whole turns, cut records and the
    handlers. *)

From Stdlib Require Import ZArith NArith List String Ascii Lia Bool.
From Stdlib Require Import DecimalZ DecimalPos DecimalN DecimalFacts.
From stdpp Require Import gmap.

Local Open Scope list_scope.

(* ===================================================================== *)
(** * Part I. Definitions *)
(* ===================================================================== *)

(** ** Python strings and values *)

(** A Python [str] is a sequence of Unicode code points; lone surrogates
    (U+D800..U+DFFF) are legal inside a [str] and matter for encoding. *)
Definition pystr : Type := list N.

(** Code point of an ASCII character and the [str] of an ASCII literal. *)
Definition chr (a : ascii) : N := N_of_ascii a.
Definition lit (s : string) : pystr := map chr (list_ascii_of_string s).

(** The double quote and the backslash. *)
Definition QUOTE : N := 34.
Definition BACKSLASH : N := 92.

(** The values that reach this program: what [json.load] and [r.json()]
    produce, and what the program builds from them.  A [dict] keeps its
    insertion order, as Python's does, so it is an association list; a
    float is carried as the JSON literal it was read from. *)
#[warnings="-register-all"]
Inductive pyval : Type :=
| VNone
| VBool (b : bool)
| VInt (z : Z)
| VFloat (literal : pystr)
| VStr (s : pystr)
| VList (l : list pyval)
| VDict (d : list (pystr * pyval)).

(** Builtins of the Python runtime that the program calls and whose full
    definition (Unicode case tables, binary64 printing) is outside this
    development.  Every property below holds for any implementation. *)
Class PyBuiltins : Type := {
  str_capitalize : pystr -> pystr;      (* str.capitalize *)
  py_repr : pyval -> pystr;             (* repr of a float, list or dict *)
  json_floatstr : pystr -> pystr;       (* json.encoder's float rendering *)
  float_truth : pystr -> bool           (* bool(x) of a float *)
}.

(** [d[k]] on a dict: the value of the first binding of [k]. *)
Fixpoint dict_get (d : list (pystr * pyval)) (k : pystr) : option pyval :=
  match d with
  | [] => None
  | (k', v) :: d' => if decide (k' = k) then Some v else dict_get d' k
  end.

(** [d[k] = v]: an existing key keeps its position, a new one goes last. *)
Fixpoint dict_set (d : list (pystr * pyval)) (k : pystr) (v : pyval)
  : list (pystr * pyval) :=
  match d with
  | [] => [(k, v)]
  | (k', v') :: d' =>
      if decide (k' = k) then (k', v) :: d' else (k', v') :: dict_set d' k v
  end.

(** [dict(pairs)]. *)
Definition dict_of_pairs (pairs : list (pystr * pyval)) : list (pystr * pyval) :=
  fold_left (fun d kv => dict_set d (fst kv) (snd kv)) pairs [].

(** Truth value of an object, as [not x] and [if x:] test it. *)
Definition truthy `{PyBuiltins} (v : pyval) : bool :=
  match v with
  | VNone => false
  | VBool b => b
  | VInt z => negb (Z.eqb z 0)
  | VFloat f => float_truth f
  | VStr s => match s with [] => false | _ => true end
  | VList l => match l with [] => false | _ => true end
  | VDict d => match d with [] => false | _ => true end
  end.

(** [type(v).__name__]. *)
Definition type_name (v : pyval) : pystr :=
  match v with
  | VNone => lit "NoneType"
  | VBool _ => lit "bool"
  | VInt _ => lit "int"
  | VFloat _ => lit "float"
  | VStr _ => lit "str"
  | VList _ => lit "list"
  | VDict _ => lit "dict"
  end.

(** ** Python list slicing *)

(** Position denoted by a slice bound [i] on a sequence of length [n]:
    a negative bound counts from the end, and both ends clamp. *)
Definition slice_bound (n : nat) (i : Z) : nat :=
  if (i <? 0)%Z then Z.to_nat (Z.max 0 (Z.of_nat n + i))
  else Nat.min (Z.to_nat i) n.

(** [l[:i]] and [l[i:]]. *)
Definition slice_to {A} (l : list A) (i : Z) : list A :=
  take (slice_bound (length l) i) l.
Definition slice_from {A} (l : list A) (i : Z) : list A :=
  drop (slice_bound (length l) i) l.

(** [sep.join(parts)]. *)
Fixpoint join (sep : pystr) (parts : list pystr) : pystr :=
  match parts with
  | [] => []
  | [p] => p
  | p :: ps => p ++ sep ++ join sep ps
  end.

(** [s.startswith(prefix)] and [s.startswith((p1, ..., pn))]. *)
Fixpoint startswith (s prefix : pystr) : bool :=
  match prefix, s with
  | [], _ => true
  | p :: prefix', c :: s' => N.eqb c p && startswith s' prefix'
  | _ :: _, [] => false
  end.
Definition startswith_any (s : pystr) (prefixes : list pystr) : bool :=
  existsb (startswith s) prefixes.

(** Decimal rendering of an [int], as [str(n)] and [int.__repr__]. *)
Fixpoint uint_chars (u : Decimal.uint) : pystr :=
  match u with
  | Decimal.Nil => []
  | Decimal.D0 u => chr "0" :: uint_chars u
  | Decimal.D1 u => chr "1" :: uint_chars u
  | Decimal.D2 u => chr "2" :: uint_chars u
  | Decimal.D3 u => chr "3" :: uint_chars u
  | Decimal.D4 u => chr "4" :: uint_chars u
  | Decimal.D5 u => chr "5" :: uint_chars u
  | Decimal.D6 u => chr "6" :: uint_chars u
  | Decimal.D7 u => chr "7" :: uint_chars u
  | Decimal.D8 u => chr "8" :: uint_chars u
  | Decimal.D9 u => chr "9" :: uint_chars u
  end.

Definition int_str (z : Z) : pystr :=
  match Z.to_int z with
  | Decimal.Pos u => uint_chars u
  | Decimal.Neg u => chr "-" :: uint_chars u
  end.

(** ** The [json] module *)

Module json.

(** *** Encoder: [json.dump(obj, fp, ensure_ascii=False, indent=2)] *)

(** One hexadecimal digit, lower case as ['{0:04x}'.format] prints it. *)
Definition hex_digit (n : N) : N :=
  if (n <? 10)%N then (48 + n)%N else (87 + n)%N.

(** [ESCAPE_DCT]: the replacement of a character matched by [ESCAPE], the
    class of control characters, the backslash and the double quote.
    With [ensure_ascii=False] every other code point is written as is. *)
Definition escape_char (c : N) : pystr :=
  if (c =? QUOTE)%N then [BACKSLASH; QUOTE]
  else if (c =? BACKSLASH)%N then [BACKSLASH; BACKSLASH]
  else if (c =? 10)%N then BACKSLASH :: lit "n"
  else if (c =? 13)%N then BACKSLASH :: lit "r"
  else if (c =? 9)%N then BACKSLASH :: lit "t"
  else if (c =? 8)%N then BACKSLASH :: lit "b"
  else if (c =? 12)%N then BACKSLASH :: lit "f"
  else if (c <? 32)%N
    then BACKSLASH :: lit "u00" ++ [hex_digit (c / 16)%N; hex_digit (c mod 16)%N]
  else [c].

(** [encode_basestring]: a JSON representation of a Python string. *)
Definition encode_basestring (s : pystr) : pystr :=
  QUOTE :: flat_map escape_char s ++ [QUOTE].

(** Rendering of the values [_iterencode_list] and [_iterencode_dict]
    emit in one piece; [None] for a list or a dict. *)
Definition encode_atom `{PyBuiltins} (v : pyval) : option pystr :=
  match v with
  | VStr s => Some (encode_basestring s)
  | VNone => Some (lit "null")
  | VBool true => Some (lit "true")
  | VBool false => Some (lit "false")
  | VInt z => Some (int_str z)
  | VFloat f => Some (json_floatstr f)
  | VList _ | VDict _ => None
  end.

(** ['\n' + _indent * _current_indent_level], with [_indent = ' ' * 2]. *)
Definition newline_indent (level : nat) : pystr :=
  chr "010" :: repeat (chr " ") (2 * level).

(** [_iterencode_list(lst, _current_indent_level)]: the chunks for a
    list, [encode] being the encoder of a nested list or dict.  The loop
    carries [buf], the text to put before the next item: the opening
    bracket for the first one, the separator for the others. *)
Fixpoint iterencode_list_items `{PyBuiltins} (encode : nat -> pyval -> list pystr)
    (level : nat) (l : list pyval) (buf : pystr) {struct l} : list pystr :=
  match l with
  | [] => []
  | value :: l' =>
      match encode_atom value with
      | Some a => [buf ++ a]
      | None => buf :: encode level value
      end ++ iterencode_list_items encode level l' (chr "," :: newline_indent level)
  end.

Definition iterencode_list `{PyBuiltins} (encode : nat -> pyval -> list pystr)
    (level : nat) (lst : list pyval) : list pystr :=
  match lst with
  | [] => [lit "[]"]
  | _ :: _ =>
      iterencode_list_items encode (S level) lst (chr "[" :: newline_indent (S level))
      ++ [newline_indent level; lit "]"]
  end.

(** [_iterencode_dict(dct, _current_indent_level)].  The item separator
    is [','] and the key separator [': '], the defaults when [indent] is
    given; the keys are strings and are not sorted. *)
Fixpoint iterencode_dict_items `{PyBuiltins} (encode : nat -> pyval -> list pystr)
    (level : nat) (d : list (pystr * pyval)) (first : bool) {struct d}
  : list pystr :=
  match d with
  | [] => []
  | (key, value) :: d' =>
      (if first then [] else [chr "," :: newline_indent level])
      ++ [encode_basestring key; lit ": "]
      ++ match encode_atom value with
         | Some a => [a]
         | None => encode level value
         end
      ++ iterencode_dict_items encode level d' false
  end.

Definition iterencode_dict `{PyBuiltins} (encode : nat -> pyval -> list pystr)
    (level : nat) (dct : list (pystr * pyval)) : list pystr :=
  match dct with
  | [] => [lit "{}"]
  | _ :: _ =>
      [lit "{"; newline_indent (S level)]
      ++ iterencode_dict_items encode (S level) dct true
      ++ [newline_indent level; lit "}"]
  end.

(** [_iterencode(o, _current_indent_level)]: the chunks the encoder
    yields for [o], in order. *)
Fixpoint iterencode `{PyBuiltins} (level : nat) (o : pyval) {struct o}
  : list pystr :=
  match o with
  | VList lst => iterencode_list iterencode level lst
  | VDict dct => iterencode_dict iterencode level dct
  | _ =>
      match encode_atom o with
      | Some a => [a]
      | None => []
      end
  end.

(** [json.dumps(obj, ensure_ascii=False, indent=2)]: the chunks joined. *)
Definition dumps `{PyBuiltins} (o : pyval) : pystr := concat (iterencode 0 o).

(** *** Decoder: [json.load(fp)], that is [json.loads(fp.read())] *)

(** Outcome of a scanning function: a value and the text that follows it,
    a [JSONDecodeError], or recursion fuel exhausted (which
    [scan_once_fuel] below rules out for the fuel [loads] gives). *)
Inductive parsed (A : Type) : Type :=
| POk (a : A) (rest : pystr)
| PErr
| PFuel.
Arguments POk {A} a rest.
Arguments PErr {A}.
Arguments PFuel {A}.

(** [WHITESPACE.match(s, end).end()]: skip [ \t\n\r]*. *)
Definition is_ws (c : N) : bool :=
  (c =? 32)%N || (c =? 9)%N || (c =? 10)%N || (c =? 13)%N.
Fixpoint skip_ws (s : pystr) : pystr :=
  match s with
  | c :: s' => if is_ws c then skip_ws s' else s
  | [] => []
  end.

(** Value of a hexadecimal digit, either case. *)
Definition hex_val (c : N) : option N :=
  if (48 <=? c)%N && (c <=? 57)%N then Some (c - 48)%N
  else if (97 <=? c)%N && (c <=? 102)%N then Some (c - 87)%N
  else if (65 <=? c)%N && (c <=? 70)%N then Some (c - 55)%N
  else None.

(** [_decode_uXXXX]: the code unit written by four hexadecimal digits. *)
Definition decode_uXXXX (a b c d : N) : option N :=
  match hex_val a, hex_val b, hex_val c, hex_val d with
  | Some x, Some y, Some z, Some w => Some (((x * 16 + y) * 16 + z) * 16 + w)%N
  | _, _, _, _ => None
  end.

(** [BACKSLASH]: the characters a one-letter escape stands for. *)
Definition unescape (e : N) : option N :=
  if (e =? QUOTE)%N then Some QUOTE
  else if (e =? BACKSLASH)%N then Some BACKSLASH
  else if (e =? chr "/")%N then Some (chr "/")
  else if (e =? chr "b")%N then Some 8%N
  else if (e =? chr "f")%N then Some 12%N
  else if (e =? chr "n")%N then Some 10%N
  else if (e =? chr "r")%N then Some 13%N
  else if (e =? chr "t")%N then Some 9%N
  else None.

Definition is_high_surrogate (u : N) : bool := (0xd800 <=? u)%N && (u <=? 0xdbff)%N.
Definition is_low_surrogate (u : N) : bool := (0xdc00 <=? u)%N && (u <=? 0xdfff)%N.
Definition join_surrogates (hi lo : N) : N :=
  (0x10000 + N.lor (N.shiftl (hi - 0xd800) 10) (lo - 0xdc00))%N.

(** [_append(char)] on the result of scanning the rest of the string. *)
Definition cons_to (c : N) (r : option (pystr * pystr)) : option (pystr * pystr) :=
  match r with
  | Some (t, rest) => Some (c :: t, rest)
  | None => None
  end.

(** [scanstring(s, end, strict=True)], entered after the opening quote:
    the decoded string and the text after the closing quote.  A raw
    control character, an unknown escape and a missing closing quote are
    errors; an escaped high surrogate joins an escaped low surrogate that
    follows it and stands alone otherwise. *)
Fixpoint scanstring (s : pystr) : option (pystr * pystr) :=
  match s with
  | [] => None
  | c :: r =>
      if (c =? QUOTE)%N then Some ([], r)
      else if (c =? BACKSLASH)%N then
        match r with
        | [] => None
        | esc :: r1 =>
            if (esc =? chr "u")%N then
              match r1 with
              | h1 :: h2 :: h3 :: h4 :: r2 =>
                  match decode_uXXXX h1 h2 h3 h4 with
                  | None => None
                  | Some uni =>
                      match r2 with
                      | b :: u :: l1 :: l2 :: l3 :: l4 :: r3 =>
                          if is_high_surrogate uni && (b =? BACKSLASH)%N
                             && (u =? chr "u")%N then
                            match decode_uXXXX l1 l2 l3 l4 with
                            | None => None
                            | Some uni2 =>
                                if is_low_surrogate uni2
                                then cons_to (join_surrogates uni uni2)
                                             (scanstring r3)
                                else cons_to uni (scanstring r2)
                            end
                          else cons_to uni (scanstring r2)
                      | _ =>
                          if is_high_surrogate uni && startswith r2 [BACKSLASH; chr "u"]
                          then None
                          else cons_to uni (scanstring r2)
                      end
                  end
              | _ => None
              end
            else
              match unescape esc with
              | Some ch => cons_to ch (scanstring r1)
              | None => None
              end
        end
      else if (c <? 32)%N then None
      else cons_to c (scanstring r)
  end.

(** Digits, for [NUMBER_RE]. *)
Definition is_digit (c : N) : bool := (48 <=? c)%N && (c <=? 57)%N.

Definition digit_cons (c : N) (u : Decimal.uint) : Decimal.uint :=
  match (c - 48)%N with
  | 0 => Decimal.D0 u | 1 => Decimal.D1 u | 2 => Decimal.D2 u
  | 3 => Decimal.D3 u | 4 => Decimal.D4 u | 5 => Decimal.D5 u
  | 6 => Decimal.D6 u | 7 => Decimal.D7 u | 8 => Decimal.D8 u
  | _ => Decimal.D9 u
  end%N.

(** The longest run of digits at the head of [s], and what follows it. *)
Fixpoint span_digits (s : pystr) : pystr * pystr :=
  match s with
  | c :: s' =>
      if is_digit c then let (ds, rest) := span_digits s' in (c :: ds, rest)
      else ([], s)
  | [] => ([], [])
  end.

Definition uint_of_digits (ds : pystr) : Decimal.uint :=
  fold_right digit_cons Decimal.Nil ds.

(** The integer part of [NUMBER_RE], an optional minus sign followed by
    either a single 0 or a nonzero digit and a run of digits: sign,
    digits, rest of the text. *)
Definition match_integer (s : pystr) : option (bool * pystr * pystr) :=
  let (neg, s1) :=
    match s with
    | c :: s' => if (c =? chr "-")%N then (true, s') else (false, s)
    | [] => (false, s)
    end in
  match s1 with
  | c :: s2 =>
      if (c =? chr "0")%N then Some (neg, [c], s2)
      else if is_digit c then
        let (ds, rest) := span_digits s2 in Some (neg, c :: ds, rest)
      else None
  | [] => None
  end.

(** The optional fraction [(\.[0-9]+)?] of [NUMBER_RE]. *)
Definition match_frac (s : pystr) : pystr * pystr :=
  match s with
  | c :: s' =>
      if (c =? chr ".")%N then
        match span_digits s' with
        | ([], _) => ([], s)
        | (ds, rest) => (c :: ds, rest)
        end
      else ([], s)
  | [] => ([], s)
  end.

(** The optional exponent [([eE][-+]?[0-9]+)?] of [NUMBER_RE]. *)
Definition match_exp (s : pystr) : pystr * pystr :=
  match s with
  | e :: s' =>
      if (e =? chr "e")%N || (e =? chr "E")%N then
        let (sign, s2) :=
          match s' with
          | c :: s3 =>
              if (c =? chr "-")%N || (c =? chr "+")%N then ([c], s3) else ([], s')
          | [] => ([], s')
          end in
        match span_digits s2 with
        | ([], _) => ([], s)
        | (ds, rest) => (e :: sign ++ ds, rest)
        end
      else ([], s)
  | [] => ([], s)
  end.

(** A number: an [int] when it has neither fraction nor exponent, a
    float otherwise. *)
Definition scan_number (s : pystr) : option (pyval * pystr) :=
  match match_integer s with
  | None => None
  | Some (neg, ds, r1) =>
      let (frac, r2) := match_frac r1 in
      let (exp, r3) := match_exp r2 in
      match frac, exp with
      | [], [] =>
          let u := uint_of_digits ds in
          Some (VInt (Z.of_int (if neg then Decimal.Neg u else Decimal.Pos u)), r3)
      | _, _ =>
          Some (VFloat ((if neg then [chr "-"] else []) ++ ds ++ frac ++ exp), r3)
      end
  end.

(** [s[idx:idx+len(word)] == word], returning the text after [word]. *)
Fixpoint strip_prefix (word s : pystr) : option pystr :=
  match word, s with
  | [], _ => Some s
  | w :: word', c :: s' => if (c =? w)%N then strip_prefix word' s' else None
  | _ :: _, [] => None
  end.

(** The constants [scan_once] tries once no number matches. *)
Definition scan_constant (s : pystr) : option (pyval * pystr) :=
  match strip_prefix (lit "NaN") s with
  | Some r => Some (VFloat (lit "NaN"), r)
  | None =>
  match strip_prefix (lit "Infinity") s with
  | Some r => Some (VFloat (lit "Infinity"), r)
  | None =>
  match strip_prefix (lit "-Infinity") s with
  | Some r => Some (VFloat (lit "-Infinity"), r)
  | None => None
  end end end.

(** [scan_once], [JSONArray] and [JSONObject].  [scan_once] expects the
    value to start at the head of [s]; the array and object loops are
    entered where an item is expected and skip white space between
    tokens.  Items are accumulated in reverse. *)
Fixpoint scan_once (fuel : nat) (s : pystr) {struct fuel} : parsed pyval :=
  match fuel with
  | O => PFuel
  | S fuel =>
      match s with
      | [] => PErr
      | c :: r =>
          if (c =? QUOTE)%N then
            match scanstring r with
            | Some (t, rest) => POk (VStr t) rest
            | None => PErr
            end
          else if (c =? chr "{")%N then
            match skip_ws r with
            | c1 :: r1 =>
                if (c1 =? chr "}")%N then POk (VDict []) r1
                else match JSONObject fuel (c1 :: r1) [] with
                     | POk pairs rest => POk (VDict (dict_of_pairs pairs)) rest
                     | PErr => PErr
                     | PFuel => PFuel
                     end
            | [] => PErr
            end
          else if (c =? chr "[")%N then
            match skip_ws r with
            | c1 :: r1 =>
                if (c1 =? chr "]")%N then POk (VList []) r1
                else match JSONArray fuel (c1 :: r1) [] with
                     | POk values rest => POk (VList values) rest
                     | PErr => PErr
                     | PFuel => PFuel
                     end
            | [] => PErr
            end
          else
            match strip_prefix (lit "null") s with
            | Some rest => POk VNone rest
            | None =>
            match strip_prefix (lit "true") s with
            | Some rest => POk (VBool true) rest
            | None =>
            match strip_prefix (lit "false") s with
            | Some rest => POk (VBool false) rest
            | None =>
            match scan_number s with
            | Some (v, rest) => POk v rest
            | None =>
            match scan_constant s with
            | Some (v, rest) => POk v rest
            | None => PErr
            end end end end end
      end
  end

with JSONArray (fuel : nat) (s : pystr) (acc : list pyval) {struct fuel}
  : parsed (list pyval) :=
  match fuel with
  | O => PFuel
  | S fuel =>
      match scan_once fuel s with
      | POk value rest =>
          match skip_ws rest with
          | c :: r =>
              if (c =? chr "]")%N then POk (rev (value :: acc)) r
              else if (c =? chr ",")%N
                then JSONArray fuel (skip_ws r) (value :: acc)
              else PErr
          | [] => PErr
          end
      | PErr => PErr
      | PFuel => PFuel
      end
  end

with JSONObject (fuel : nat) (s : pystr) (acc : list (pystr * pyval))
  {struct fuel} : parsed (list (pystr * pyval)) :=
  match fuel with
  | O => PFuel
  | S fuel =>
      match s with
      | q :: s1 =>
          if (q =? QUOTE)%N then
            match scanstring s1 with
            | Some (key, r1) =>
                match skip_ws r1 with
                | colon :: r2 =>
                    if (colon =? chr ":")%N then
                      match scan_once fuel (skip_ws r2) with
                      | POk value rest =>
                          match skip_ws rest with
                          | c :: r =>
                              if (c =? chr "}")%N
                                then POk (rev ((key, value) :: acc)) r
                              else if (c =? chr ",")%N
                                then JSONObject fuel (skip_ws r) ((key, value) :: acc)
                              else PErr
                          | [] => PErr
                          end
                      | PErr => PErr
                      | PFuel => PFuel
                      end
                    else PErr
                | [] => PErr
                end
            | None => PErr
            end
          else PErr
      | [] => PErr
      end
  end.

(** [json.loads(s)] for a [str]: a byte order mark is refused, white
    space around the one value is skipped and anything after it is an
    error ("Extra data").  [None] stands for [JSONDecodeError]. *)
Definition loads (s : pystr) : option pyval :=
  match s with
  | 0xfeff%N :: _ => None
  | _ =>
      match scan_once (2 * length s + 1) (skip_ws s) with
      | POk v rest =>
          match skip_ws rest with
          | [] => Some v
          | _ :: _ => None
          end
      | _ => None
      end
  end.

End json.

(** ** The world the program runs in *)

(** Exceptions that cross a function of the program.  They carry what
    raised them, not the interpreter's message text. *)
Inductive exn : Type :=
| TypeError (v : pyval)                  (* [v[key]] on a [v] that is no dict *)
| KeyError (key : pystr)                 (* [d[key]], key absent *)
| AttributeError (v : pyval) (attr : pystr)   (* [v.attr], no such attribute *)
| UnicodeEncodeError (text : pystr)      (* writing text UTF-8 cannot encode *)
| UnicodeDecodeError (path : pystr)      (* reading bytes that are not UTF-8 *)
| IsADirectoryError (path : pystr)       (* [open] on a directory *)
| FileNotFoundError (path : pystr)       (* [open] for reading, no such file *)
| JSONDecodeError (text : pystr).        (* [json.load] on malformed text *)

Inductive outcome (A : Type) : Type :=
| Returned (a : A)
| Raised (e : exn).
Arguments Returned {A} a.
Arguments Raised {A} e.

(** What a path names.  A regular file is seen through the UTF-8 codec
    the program opens it with: [File (Some t)] holds the encoding of the
    text [t], [File None] bytes that are not valid UTF-8.  The newline
    translation of text mode is left out: it only rewrites line ends
    between JSON tokens, where any white space reads the same. *)
Inductive node : Type :=
| Directory
| File (content : option pystr).

(** An exception raised inside the [requests] library, by its place in
    the handlers of [generate_text]: a [requests.RequestException]
    (connection refused, timeout, ...) or any other [Exception].
    [requests.HTTPError] is raised by [raise_for_status] only. *)
Inductive lib_error : Type :=
| LibRequestException (e : pystr)
| LibException (e : pystr).

(** The [Response] object [requests.post] returns, by what the program
    observes of it: whether [raise_for_status()] raises [HTTPError] (and
    with which message), [r.text], and the result of [r.json()]. *)
Record Response : Type := {
  status_error : option pystr;
  text : pystr;
  json_body : lib_error + pyval
}.

Inductive post_result : Type :=
| PostRaised (e : lib_error)
| PostReturned (r : Response).

(** The JSON body of the request: [{"model", "prompt", "stream"}]. *)
Record Payload : Type := {
  payload_model : pystr;
  payload_prompt : pystr;
  payload_stream : bool
}.

(** Lines the program prints. *)
Inductive log_line : Type :=
| ErrorSavingMemory (e : exn)            (* "Error saving memory: {e}" *)
| InvalidMemoryFormat (path : pystr)     (* "Invalid memory format in {path}" *)
| JSONDecodeErrorLoadingMemory (e : exn) (* "JSON decode error loading memory: {e}" *)
| ErrorLoadingMemory (e : exn).          (* "Error loading memory: {e}" *)

(** The state outside the program: the files of the working directory,
    what each coming call of [requests.post] will meet (an exhausted script
    is an endpoint that refuses the connection), the payloads posted so
    far, and the lines printed so far. *)
Record World : Type := {
  files : gmap pystr node;
  net : list post_result;
  sent : list Payload;
  stdout : list log_line
}.

Definition set_files (f : gmap pystr node) (w : World) : World :=
  {| files := f; net := net w; sent := sent w; stdout := stdout w |}.

(** [print(line)]. *)
Definition print (line : log_line) (w : World) : World :=
  {| files := files w; net := net w; sent := sent w;
     stdout := stdout w ++ [line] |}.

(** ** Computations: state passing with exceptions *)

Definition M (A : Type) : Type := World -> outcome A * World.

Definition ret {A} (a : A) : M A := fun w => (Returned a, w).
Definition raise {A} (e : exn) : M A := fun w => (Raised e, w).
Definition bind {A B} (c : M A) (k : A -> M B) : M B :=
  fun w =>
    match c w with
    | (Returned a, w') => k a w'
    | (Raised e, w') => (Raised e, w')
    end.
(** A pure operation that may raise. *)
Definition lift {A} (o : outcome A) : M A := fun w => (o, w).
(** A function of the program that handles every exception itself. *)
Definition total {A} (f : World -> A * World) : M A :=
  fun w => let (a, w') := f w in (Returned a, w').

Notation "'let*' x ':=' c 'in' k" := (bind c (fun x => k))
  (at level 10, x pattern, c at level 100, k at level 200).

(** ** Text files *)

Definition is_surrogate (c : N) : bool := (0xd800 <=? c)%N && (c <=? 0xdfff)%N.

(** Text the UTF-8 codec can encode: no surrogate code point. *)
Definition encodable (s : pystr) : bool := forallb (fun c => negb (is_surrogate c)) s.

(** [os.path.exists(path)]. *)
Definition path_exists (path : pystr) (w : World) : bool :=
  match files w !! path with
  | Some _ => true
  | None => false
  end.

(** [open(path, "w", encoding="utf-8")]: the file is created, or
    truncated if it exists, when it is opened. *)
Definition open_w (path : pystr) : M unit :=
  fun w =>
    match files w !! path with
    | Some Directory => (Raised (IsADirectoryError path), w)
    | _ => (Returned tt, set_files (<[path := File (Some [])]> (files w)) w)
    end.

(** [f.write(chunk)] on the file opened at [path]: the chunk is encoded
    as a whole and appended.  The buffer is flushed when the [with] block
    closes the file, on normal exit and on an exception alike, so what was
    written before a failure stays in the file. *)
Definition fp_write (path : pystr) (chunk : pystr) : M unit :=
  fun w =>
    if encodable chunk then
      match files w !! path with
      | Some (File (Some t)) =>
          (Returned tt, set_files (<[path := File (Some (t ++ chunk))]> (files w)) w)
      | _ => (Returned tt, w)
      end
    else (Raised (UnicodeEncodeError chunk), w).

(** [open(path, "r", encoding="utf-8")] followed by [f.read()]. *)
Definition read_text (path : pystr) : M pystr :=
  fun w =>
    match files w !! path with
    | Some (File (Some t)) => (Returned t, w)
    | Some (File None) => (Raised (UnicodeDecodeError path), w)
    | Some Directory => (Raised (IsADirectoryError path), w)
    | None => (Raised (FileNotFoundError path), w)
    end.

(** [json.dump(obj, f, ensure_ascii=False, indent=2)]:
    [for chunk in iterable: fp.write(chunk)]. *)
Fixpoint write_chunks (path : pystr) (chunks : list pystr) : M unit :=
  match chunks with
  | [] => ret tt
  | chunk :: chunks' =>
      let* _ := fp_write path chunk in write_chunks path chunks'
  end.
Definition json_dump `{PyBuiltins} (obj : pyval) (path : pystr) : M unit :=
  write_chunks path (json.iterencode 0 obj).

(** [json.load(f)]. *)
Definition json_load (path : pystr) : M pyval :=
  let* t := read_text path in
  match json.loads t with
  | Some v => ret v
  | None => raise (JSONDecodeError t)
  end.

(** ** The HTTP client *)

(** [requests.post(url, json=payload)] against the fixed local endpoint. *)
Definition requests_post (payload : Payload) (w : World) : post_result * World :=
  let w' (rest : list post_result) :=
    {| files := files w; net := rest; sent := sent w ++ [payload];
       stdout := stdout w |} in
  match net w with
  | res :: rest => (res, w' rest)
  | [] => (PostRaised (LibRequestException (lit "connection refused")), w' [])
  end.

(** What the [try] block of [generate_text] can raise. *)
Inductive raised : Type :=
| HTTPError (e : pystr)
| RequestException (e : pystr)
| Exception (e : pystr).

Definition raise_lib {A} (e : lib_error) : raised + A :=
  match e with
  | LibRequestException m => inl (RequestException m)
  | LibException m => inl (Exception m)
  end.

(** [str(e)] of the [AttributeError] raised by [v.attr]. *)
Definition attribute_error_str (v : pyval) (attr : pystr) : pystr :=
  lit "'" ++ type_name v ++ lit "' object has no attribute '" ++ attr ++ lit "'".

(** [data.get("response", "")]. *)
Definition data_get_response (data : pyval) : raised + pyval :=
  match data with
  | VDict d =>
      match dict_get d (lit "response") with
      | Some v => inr v
      | None => inr (VStr [])
      end
  | _ => inl (Exception (attribute_error_str data (lit "get")))
  end.

(** ** [main.py] *)

(** [f"memory_{session}.json"]. *)
Definition MEMORY_FILE (session : pystr) : pystr :=
  lit "memory_" ++ session ++ lit ".json".

(** [generate_text(prompt, model)]. *)
Definition generate_text (prompt model : pystr) (w : World) : pyval * World :=
  let payload :=
    {| payload_model := model; payload_prompt := prompt; payload_stream := false |} in
  let (res, w') := requests_post payload w in
  let reply :=
    match res with
    | PostRaised e =>
        (* requests.post raised: [r] is not bound *)
        match e with
        | LibRequestException m => VStr (lit "Request Error: " ++ m)
        | LibException m => VStr (lit "Unexpected Error: " ++ m)
        end
    | PostReturned r =>
        let body : raised + pyval :=
          match status_error r with
          | Some m => inl (HTTPError m)                    (* r.raise_for_status() *)
          | None =>
              match json_body r with                       (* data = r.json() *)
              | inl e => raise_lib e
              | inr data => data_get_response data
              end
          end in
        match body with
        | inr v => v
        | inl (HTTPError m) => VStr (lit "HTTP Error: " ++ m ++ lit ", " ++ text r)
        | inl (RequestException m) => VStr (lit "Request Error: " ++ m)
        | inl (Exception m) => VStr (lit "Unexpected Error: " ++ m)
        end
    end in
  (reply, w').

(** [load_memory(session)]. *)
Definition load_memory (session : pystr) (w : World) : list pyval * World :=
  let path := MEMORY_FILE session in
  if path_exists path w then
    match json_load path w with
    | (Returned memory, w') =>
        match memory with
        | VList l => (l, w')
        | _ => ([], print (InvalidMemoryFormat path) w')
        end
    | (Raised (JSONDecodeError t), w') =>
        ([], print (JSONDecodeErrorLoadingMemory (JSONDecodeError t)) w')
    | (Raised e, w') => ([], print (ErrorLoadingMemory e) w')
    end
  else ([], w).

(** [{"role": role, "content": content}]. *)
Definition message (role : pystr) (content : pyval) : pyval :=
  VDict [(lit "role", VStr role); (lit "content", content)].

(** [m[key]]. *)
Definition getitem (m : pyval) (key : pystr) : outcome pyval :=
  match m with
  | VDict d =>
      match dict_get d key with
      | Some v => Returned v
      | None => Raised (KeyError key)
      end
  | _ => Raised (TypeError m)
  end.

(** [x.capitalize()]: only a [str] has the method. *)
Definition capitalize `{PyBuiltins} (x : pyval) : outcome pystr :=
  match x with
  | VStr s => Returned (str_capitalize s)
  | _ => Raised (AttributeError x (lit "capitalize"))
  end.

(** [f"{x}"]. *)
Definition format_value `{PyBuiltins} (x : pyval) : pystr :=
  match x with
  | VStr s => s
  | VNone => lit "None"
  | VBool true => lit "True"
  | VBool false => lit "False"
  | VInt z => int_str z
  | _ => py_repr x
  end.

(** [f"{m['role'].capitalize()}: {m['content']}"]. *)
Definition render_message `{PyBuiltins} (m : pyval) : outcome pystr :=
  match getitem m (lit "role") with
  | Raised e => Raised e
  | Returned role =>
      match capitalize role with
      | Raised e => Raised e
      | Returned Role =>
          match getitem m (lit "content") with
          | Raised e => Raised e
          | Returned content => Returned (Role ++ lit ": " ++ format_value content)
          end
      end
  end.

(** The list comprehension over the messages, left to right. *)
Fixpoint render_messages `{PyBuiltins} (ms : list pyval) : outcome (list pystr) :=
  match ms with
  | [] => Returned []
  | m :: ms' =>
      match render_message m with
      | Raised e => Raised e
      | Returned line =>
          match render_messages ms' with
          | Raised e => Raised e
          | Returned lines => Returned (line :: lines)
          end
      end
  end.

Definition NEWLINE : pystr := [10%N].

(** Line 34: the prompt asking for a summary of [old_text]. *)
Definition summary_prompt (old_text : pystr) : pystr :=
  lit "Summarize the following conversation in a few sentences to preserve context:"
  ++ NEWLINE ++ old_text ++ NEWLINE ++ lit "Summary:".

(** Lines 31-36: summarise the older messages when the transcript is
    longer than [summary_threshold]. *)
Definition summarize `{PyBuiltins} (memory : list pyval) (model : pystr)
    (max_history summary_threshold : Z) : M (list pyval) :=
  if (Z.of_nat (length memory) >? summary_threshold)%Z then
    let old_messages := slice_to memory (- max_history) in
    let* lines := lift (render_messages old_messages) in
    let old_text := join NEWLINE lines in
    let summary_prompt := summary_prompt old_text in
    let* summary := total (generate_text summary_prompt model) in
    ret ([message (lit "system") summary] ++ slice_from memory (- max_history))
  else ret memory.

(** Lines 39-41: the messages the prompt is built from. *)
Definition context_messages (memory : list pyval) (max_history : Z)
    (agent_prompt : pystr) : list pyval :=
  let context_messages := slice_from memory (- max_history) in
  match agent_prompt with
  | _ :: _ => [message (lit "system") (VStr agent_prompt)] ++ context_messages
  | [] => context_messages
  end.

(** The prefixes [generate_text] gives its error strings. *)
Definition ERROR_PREFIXES : list pystr :=
  [lit "HTTP Error:"; lit "Request Error:"; lit "Unexpected Error:"].

(** Line 49: [not assistant_reply or assistant_reply.startswith((...))]. *)
Definition reply_failed `{PyBuiltins} (assistant_reply : pyval) : outcome bool :=
  if negb (truthy assistant_reply) then Returned true
  else
    match assistant_reply with
    | VStr s => Returned (startswith_any s ERROR_PREFIXES)
    | _ => Raised (AttributeError assistant_reply (lit "startswith"))
    end.

(** Lines 55-56, the body of the [try]:
    [with open(MEMORY_FILE, "w", encoding="utf-8") as f: json.dump(...)]. *)
Definition write_memory `{PyBuiltins} (path : pystr) (memory : list pyval) : M unit :=
  let* _ := open_w path in json_dump (VList memory) path.

(** Lines 54-58: the [try] with its handler, which prints and goes on. *)
Definition save_memory `{PyBuiltins} (path : pystr) (memory : list pyval) : M unit :=
  fun w =>
    match write_memory path memory w with
    | (Returned tt, w') => (Returned tt, w')
    | (Raised e, w') => (Returned tt, print (ErrorSavingMemory e) w')
    end.

(** Lines 25-47: everything up to and including the generation of the
    reply; returns the transcript in memory and the reply. *)
Definition generate_reply `{PyBuiltins} (user_input session model : pystr)
    (max_history summary_threshold : Z) (agent_prompt : pystr)
  : M (list pyval * pyval) :=
  let* memory := total (load_memory session) in
  let memory := memory ++ [message (lit "user") (VStr user_input)] in
  let* memory := summarize memory model max_history summary_threshold in
  let context_messages := context_messages memory max_history agent_prompt in
  let* lines := lift (render_messages context_messages) in
  let context := join NEWLINE lines ++ NEWLINE ++ lit "Assistant:" in
  let* assistant_reply := total (generate_text context model) in
  ret (memory, assistant_reply).

(** [chat_with_memory(user_input, session, model, max_history,
    summary_threshold, agent_prompt)]. *)
Definition chat_with_memory `{PyBuiltins} (user_input session model : pystr)
    (max_history summary_threshold : Z) (agent_prompt : pystr) : M pyval :=
  let* (memory, assistant_reply) :=
    generate_reply user_input session model max_history summary_threshold
                   agent_prompt in
  let* failed := lift (reply_failed assistant_reply) in
  if failed : bool then ret assistant_reply
  else
    let memory := memory ++ [message (lit "assistant") assistant_reply] in
    let* _ := save_memory (MEMORY_FILE session) memory in
    ret assistant_reply.

(** ** Notions the statements use *)

(** A message as the data model has it: a role and a text. *)
Record Message : Type := { role : pystr; content : pystr }.

Definition message_value (m : Message) : pyval :=
  message (role m) (VStr (content m)).

(** Values [json.load] reads back exactly as [json.dump] wrote them: no
    float (a float is told here by its literal, and the encoder may print
    another literal of the same number), and the keys of a dict pairwise
    distinct (which every Python dict satisfies). *)
Fixpoint plain (v : pyval) : bool :=
  match v with
  | VFloat _ => false
  | VList l => forallb plain l
  | VDict d =>
      forallb (fun kv => plain (snd kv)) d && bool_decide (NoDup (map fst d))
  | _ => true
  end.

(** What may follow a value in the encoder's output: the end of the
    text, an item separator or a line break. *)
Definition delimited (rest : pystr) : Prop :=
  match rest with
  | [] => True
  | c :: _ => c = chr "," \/ c = 10%N
  end.

(** The text [json.dumps] gives [v] at an indentation level. *)
Definition pp `{PyBuiltins} (level : nat) (v : pyval) : pystr :=
  concat (json.iterencode level v).

(** The characters a JSON value written by the encoder can start with. *)
Definition value_start (c : N) : Prop :=
  c = QUOTE \/ c = chr "n" \/ c = chr "t" \/ c = chr "f" \/ c = chr "[" \/
  c = chr "{" \/ c = chr "-" \/ json.is_digit c = true.

(** What follows an integer literal is not part of a number. *)
Definition not_numeric (rest : pystr) : Prop :=
  match rest with
  | [] => True
  | c :: _ =>
      json.is_digit c = false /\ c <> chr "." /\ c <> chr "e" /\ c <> chr "E"
  end.

(** The decoder reads [v] back from the encoder's text, whatever
    delimiter follows, given fuel for the length of the text. *)
Definition reads_back `{PyBuiltins} (v : pyval) : Prop :=
  plain v = true ->
  forall level rest fuel,
    delimited rest ->
    2 * length (pp level v ++ rest) < fuel ->
    json.scan_once fuel (pp level v ++ rest) = json.POk v rest.

(** The chunks written before the first one UTF-8 cannot encode, and
    that chunk if there is one. *)
Fixpoint encodable_prefix (chunks : list pystr) : list pystr :=
  match chunks with
  | [] => []
  | c :: chunks' => if encodable c then c :: encodable_prefix chunks' else []
  end.
Fixpoint first_unencodable (chunks : list pystr) : option pystr :=
  match chunks with
  | [] => None
  | c :: chunks' => if encodable c then first_unencodable chunks' else Some c
  end.

(** The text of a regular file. *)
Definition file_text (path : pystr) (w : World) : option pystr :=
  match files w !! path with
  | Some (File (Some t)) => Some t
  | _ => None
  end.

(** What the next call of [requests.post] meets. *)
Definition next_result (w : World) : post_result :=
  match net w with
  | res :: _ => res
  | [] => PostRaised (LibRequestException (lit "connection refused"))
  end.

(** The prefix [generate_text] gives an exception of the client library
    that is not an [HTTPError]. *)
Definition lib_error_prefix (e : lib_error) : pystr :=
  match e with
  | LibRequestException _ => lit "Request Error:"
  | LibException _ => lit "Unexpected Error:"
  end.

(** The classification of section 4.2 of the specification, in its
    words: the [response] field of a successful reply; a string starting
    with "HTTP Error:" for a response whose status is refused, with
    "Request Error:" for a transport-level failure and with "Unexpected
    Error:" for anything else.  [undecodable] is the prefix for a reply
    body [r.json()] cannot decode: the specification puts it under
    "anything else". *)
Inductive classified (undecodable : lib_error -> pystr) : post_result -> pyval -> Prop :=
| classified_success r d :
    status_error r = None -> json_body r = inr (VDict d) ->
    classified undecodable (PostReturned r)
      (match dict_get d (lit "response") with Some v => v | None => VStr [] end)
| classified_status r m s :
    status_error r = Some m -> startswith s (lit "HTTP Error:") = true ->
    classified undecodable (PostReturned r) (VStr s)
| classified_transport m s :
    startswith s (lit "Request Error:") = true ->
    classified undecodable (PostRaised (LibRequestException m)) (VStr s)
| classified_other m s :
    startswith s (lit "Unexpected Error:") = true ->
    classified undecodable (PostRaised (LibException m)) (VStr s)
| classified_undecodable r e s :
    status_error r = None -> json_body r = inl e ->
    startswith s (undecodable e) = true ->
    classified undecodable (PostReturned r) (VStr s)
| classified_not_object r data s :
    status_error r = None -> json_body r = inr data ->
    (forall d, data <> VDict d) ->
    startswith s (lit "Unexpected Error:") = true ->
    classified undecodable (PostReturned r) (VStr s).

(** ** A runtime and worlds for the worked examples *)

Definition ascii_upper (c : N) : N :=
  if (97 <=? c)%N && (c <=? 122)%N then (c - 32)%N else c.
Definition ascii_lower (c : N) : N :=
  if (65 <=? c)%N && (c <=? 90)%N then (c + 32)%N else c.

(** The builtins on ASCII text, which is all the examples use; they reach
    neither a float nor the [repr] of a container. *)
Definition ascii_runtime : PyBuiltins := {|
  str_capitalize s :=
    match s with
    | [] => []
    | c :: r => ascii_upper c :: map ascii_lower r
    end;
  py_repr _ := lit "<object>";
  json_floatstr f := f;
  float_truth _ := true
|}.

(** A 200 reply whose body is [{"response": s}]. *)
Definition reply_ok (s : pystr) : post_result :=
  PostReturned {| status_error := None; text := [];
                  json_body := inr (VDict [(lit "response", VStr s)]) |}.

(** A 500 reply. *)
Definition reply_500 : post_result :=
  PostReturned {| status_error := Some (lit "500 Server Error");
                  text := lit "oops";
                  json_body := inl (LibRequestException (lit "Expecting value")) |}.

Definition world (fs : gmap pystr node) (script : list post_result) : World :=
  {| files := fs; net := script; sent := []; stdout := [] |}.

(** Two worlds that agree on everything but the payloads posted. *)
Definition same_store (w w' : World) : Prop :=
  files w = files w' /\ net w = net w' /\ stdout w = stdout w'.

(** *** Worked examples *)

Definition session_t1 : pystr := lit "t1".
Definition llama3 : pystr := lit "llama3".

(** A short conversation; the last message is not ASCII. *)
Definition greeting : list Message :=
  [ {| role := lit "user"; content := lit "hi" |};
    {| role := lit "assistant"; content := lit "hello" |};
    {| role := lit "user"; content := [233; 0x1f600]%N |} ].

(** The record [json.dump] writes for a transcript. *)
Definition record_of (T : list Message) : pystr :=
  @json.dumps ascii_runtime (VList (map message_value T)).

(** A world whose only file is the record of [T] for [session]. *)
Definition world_with (session : pystr) (T : list Message)
    (script : list post_result) : World :=
  world {[ MEMORY_FILE session := File (Some (record_of T)) ]} script.

(** Half of a surrogate pair: a [str] that UTF-8 cannot encode. *)
Definition lone_surrogate : pystr := [0xd83d%N].

(** A 200 reply whose body is a web page, not JSON; [r.json()] raises
    [requests.exceptions.JSONDecodeError], which the client library has
    derived from [RequestException] since its version 2.27. *)
Definition reply_html : post_result :=
  PostReturned {| status_error := None; text := lit "<html>";
                  json_body := inl (LibRequestException
                                      (lit "Expecting value: line 1 column 1 (char 0)")) |}.

(** A record that is a JSON list, but not of messages. *)
Definition world_list_of_int : World :=
  world {[ MEMORY_FILE session_t1 := File (Some (lit "[1]")) ]} [reply_ok (lit "hi")].

(* ===================================================================== *)
(** ** Further notions the statements use *)


(** An item a turn can render: a dict with a [str] under ['role'] and
    something under ['content']. *)
Definition well_formed (m : pyval) : bool :=
  match m with
  | VDict d =>
      match dict_get d (lit "role"), dict_get d (lit "content") with
      | Some (VStr _), Some _ => true
      | _, _ => false
      end
  | _ => false
  end.

(** What [generate_text] returns at its next call, whatever the prompt
    and the model. *)
Definition next_reply (w : World) : pyval := fst (generate_text [] [] w).

(** The exceptions rendering a message can raise. *)
Definition rendering_error (e : exn) : Prop :=
  match e with
  | TypeError _ | KeyError _ | AttributeError _ _ => True
  | _ => False
  end.

(** ** The callers: [chat_area.py] and [sidebar.py] *)

(** [str.isspace] on one character: the white space of Unicode, whose
    table is outside this development, like the case tables. *)
Class PyUnicode : Type := {
  str_isspace : N -> bool
}.

(** [s.lstrip()] and [s.strip()]. *)
Fixpoint lstrip `{PyUnicode} (s : pystr) : pystr :=
  match s with
  | c :: s' => if str_isspace c then lstrip s' else s
  | [] => []
  end.
Definition strip `{PyUnicode} (s : pystr) : pystr := rev (lstrip (rev (lstrip s))).

(** [s.endswith(suffix)]. *)
Definition endswith (s suffix : pystr) : bool := startswith (rev s) (rev suffix).

(** [l[i:j]]. *)
Definition slice {A} (l : list A) (i j : Z) : list A :=
  let start := slice_bound (length l) i in
  let stop := slice_bound (length l) j in
  take (stop - start) (drop start l).

(** [s.replace(old, new)] for an [old] of one character. *)
Definition str_replace1 (old : N) (new s : pystr) : pystr :=
  flat_map (fun c => if (c =? old)%N then new else [c]) s.

(** [html.escape(s)], with [quote=True]: the ampersand first, then the
    angle brackets and the two quotes. *)
Definition html_escape (s : pystr) : pystr :=
  let s := str_replace1 (chr "&") (lit "&amp;") s in
  let s := str_replace1 (chr "<") (lit "&lt;") s in
  let s := str_replace1 (chr ">") (lit "&gt;") s in
  let s := str_replace1 QUOTE (lit "&quot;") s in
  let s := str_replace1 (chr "'") (lit "&#x27;") s in
  s.

(** [html.escape(x)] of any object: only a [str] has [replace]. *)
Definition escape_value (x : pyval) : outcome pystr :=
  match x with
  | VStr s => Returned (html_escape s)
  | _ => Raised (AttributeError x (lit "replace"))
  end.

(** [m.get(key, default)]: only a dict has [get]. *)
Definition m_get (m : pyval) (key : pystr) (default : pyval) : outcome pyval :=
  match m with
  | VDict d =>
      Returned match dict_get d key with
               | Some v => v
               | None => default
               end
  | _ => Raised (AttributeError m (lit "get"))
  end.

(** Message boxes. *)
Inductive dialog : Type :=
| InvalidName          (* "Session name cannot be empty." *)
| DuplicateName        (* "A session with this name already exists." *)
| RenameError.         (* "Failed to rename session: {e}" *)

(** The state of the window that the widgets read and write: the session
    on display, the texts of the items of the sidebar's list, the HTML
    blocks appended to the chat display, the text of the input box, the
    paths of the files dropped on the window, the theme flag (any object,
    once [settings.json] has set it), the settings a turn is run with, in
    the types [chat_with_memory] declares for them, and the message boxes
    shown so far. *)
Record App : Type := {
  current_session : pystr;
  session_list : list pystr;
  chat_area : list pystr;
  input_box : pystr;
  dropped_files : list pystr;
  light_mode : pyval;
  model : pystr;
  max_history : Z;
  summary_threshold : Z;
  agent_prompt : pystr;
  dialogs : list dialog
}.

Definition set_current_session (s : pystr) (a : App) : App :=
  {| current_session := s; session_list := session_list a;
     chat_area := chat_area a; input_box := input_box a;
     dropped_files := dropped_files a; light_mode := light_mode a;
     model := model a; max_history := max_history a;
     summary_threshold := summary_threshold a; agent_prompt := agent_prompt a;
     dialogs := dialogs a |}.
Definition set_session_list (l : list pystr) (a : App) : App :=
  {| current_session := current_session a; session_list := l;
     chat_area := chat_area a; input_box := input_box a;
     dropped_files := dropped_files a; light_mode := light_mode a;
     model := model a; max_history := max_history a;
     summary_threshold := summary_threshold a; agent_prompt := agent_prompt a;
     dialogs := dialogs a |}.
Definition set_chat_area (blocks : list pystr) (a : App) : App :=
  {| current_session := current_session a; session_list := session_list a;
     chat_area := blocks; input_box := input_box a;
     dropped_files := dropped_files a; light_mode := light_mode a;
     model := model a; max_history := max_history a;
     summary_threshold := summary_threshold a; agent_prompt := agent_prompt a;
     dialogs := dialogs a |}.
Definition set_input_box (t : pystr) (a : App) : App :=
  {| current_session := current_session a; session_list := session_list a;
     chat_area := chat_area a; input_box := t;
     dropped_files := dropped_files a; light_mode := light_mode a;
     model := model a; max_history := max_history a;
     summary_threshold := summary_threshold a; agent_prompt := agent_prompt a;
     dialogs := dialogs a |}.
Definition set_dropped_files (l : list pystr) (a : App) : App :=
  {| current_session := current_session a; session_list := session_list a;
     chat_area := chat_area a; input_box := input_box a;
     dropped_files := l; light_mode := light_mode a;
     model := model a; max_history := max_history a;
     summary_threshold := summary_threshold a; agent_prompt := agent_prompt a;
     dialogs := dialogs a |}.
Definition show_dialog (d : dialog) (a : App) : App :=
  {| current_session := current_session a; session_list := session_list a;
     chat_area := chat_area a; input_box := input_box a;
     dropped_files := dropped_files a; light_mode := light_mode a;
     model := model a; max_history := max_history a;
     summary_threshold := summary_threshold a; agent_prompt := agent_prompt a;
     dialogs := dialogs a ++ [d] |}.

(** A handler runs on the window and the world, and both keep what was
    done before an exception. *)
Definition Handler (A : Type) : Type := App * World -> outcome A * (App * World).

(** An attribute value in double quotes. *)
Definition quoted (s : pystr) : pystr := QUOTE :: s ++ [QUOTE].

(** Lines 86-99 of [chat_area.py]: the block appended for one message. *)
Definition chat_block `{PyBuiltins} (light : bool) (m : pyval) : outcome pystr :=
  match m_get m (lit "role") (VStr (lit "unknown")) with
  | Raised e => Raised e
  | Returned r =>
  match capitalize r with
  | Raised e => Raised e
  | Returned role =>
  match m_get m (lit "content") (VStr []) with
  | Raised e => Raised e
  | Returned c =>
  match escape_value c with
  | Raised e => Raised e
  | Returned content =>
      let is_user := bool_decide (role = lit "User") in
      let role_color :=
        if light then (if is_user then lit "#1565c0" else lit "#2c2c2c")
        else (if is_user then lit "#66b3ff" else lit "#ffffff") in
      let text_color := if light then lit "#1a1a1a" else lit "#e0e0e0" in
      let body :=
        lit "<b style=" ++ quoted (lit "color:" ++ role_color ++ lit ";") ++ lit ">"
        ++ role ++ lit ":</b> <span style="
        ++ quoted (lit "color:" ++ text_color ++ lit ";") ++ lit ">"
        ++ content ++ lit "</span></div>" in
      Returned
        (if is_user
         then lit "<div style=" ++ quoted (lit "text-align:right; margin-bottom:16px;")
              ++ lit ">" ++ body
         else lit "<div style="
              ++ quoted (lit "text-align:left; margin-bottom:16px; margin-right:auto;")
              ++ lit ">" ++ body)
  end end end end.

(** The loop of [load_session_chat]: one [append] per message, until
    one cannot be shown. *)
Fixpoint append_blocks `{PyBuiltins} (light : bool) (memory : list pyval)
    (area : list pystr) : outcome unit * list pystr :=
  match memory with
  | [] => (Returned tt, area)
  | m :: memory' =>
      match chat_block light m with
      | Raised e => (Raised e, area)
      | Returned block => append_blocks light memory' (area ++ [block])
      end
  end.

(** [ChatArea.load_session_chat(session)], which
    [ChatGUI.load_session_chat] forwards to. *)
Definition load_session_chat `{PyBuiltins} (session : option pystr) : Handler unit :=
  fun '(a, w) =>
    let a :=
      match session with
      | Some (c :: s) => set_current_session (c :: s) a
      | _ => a
      end in
    let a := set_chat_area [] a in
    let (memory, w) := load_memory (current_session a) w in
    let (r, area) := append_blocks (truthy (light_mode a)) memory (chat_area a) in
    (r, (set_chat_area area a, w)).

(** Lines 110-118 of [chat_area.py]: the block of the user's text. *)
Definition you_block (light : bool) (display_text : pystr) : pystr :=
  let role_color := if light then lit "#1565c0" else lit "#66b3ff" in
  let text_color := if light then lit "#1a1a1a" else lit "#e0e0e0" in
  lit "<div style=" ++ quoted (lit "text-align:right; margin-bottom:16px;")
  ++ lit "><b style=" ++ quoted (lit "color:" ++ role_color ++ lit ";")
  ++ lit ">You:</b> <span style=" ++ quoted (lit "color:" ++ text_color ++ lit ";")
  ++ lit ">" ++ display_text ++ lit "</span></div>".

(** Lines 146-154: the block of the reply. *)
Definition assistant_block (light : bool) (reply : pystr) : pystr :=
  let role_color := if light then lit "#2c2c2c" else lit "#ffffff" in
  let text_color := if light then lit "#1a1a1a" else lit "#e0e0e0" in
  lit "<div style="
  ++ quoted (lit "text-align:left; margin-bottom:16px; margin-right:auto;")
  ++ lit "><b style=" ++ quoted (lit "color:" ++ role_color ++ lit ";")
  ++ lit ">Assistant:</b> <span style=" ++ quoted (lit "color:" ++ text_color ++ lit ";")
  ++ lit ">" ++ reply ++ lit "</span></div>".

(** [os.path.basename(path)] as on Linux: what follows the last slash. *)
Fixpoint basename_from (path name : pystr) : pystr :=
  match path with
  | [] => name
  | c :: path' =>
      if (c =? chr "/")%N then basename_from path' [] else basename_from path' (name ++ [c])
  end.
Definition basename (path : pystr) : pystr := basename_from path [].

(** What text mode makes of the line ends it reads: a carriage return,
    with or without the line feed after it, is read as a line feed. *)
Fixpoint universal_newlines (t : pystr) : pystr :=
  match t with
  | [] => []
  | c :: t' =>
      if (c =? 13)%N then
        match t' with
        | d :: t'' => if (d =? 10)%N then 10%N :: universal_newlines t''
                      else 10%N :: universal_newlines t'
        | [] => [10%N]
        end
      else c :: universal_newlines t'
  end.

(** Lines 122-130: one round of the loop over the dropped files.  The
    file's text is added to the input, or an error block to the display;
    the texts of the two [OSError]s are those of Linux. *)
Definition attach_file `{PyBuiltins} (file_path : pystr) (w : World)
    (state : pystr * list pystr) : pystr * list pystr :=
  let (combined_input, area) := state in
  let error_reading (e : pystr) :=
    lit "<div style=" ++ quoted (lit "color:red;")
    ++ lit "><b>Error reading file:</b> " ++ html_escape e ++ lit "</div>" in
  match files w !! file_path with
  | Some (File (Some file_content)) =>
      (combined_input ++ NEWLINE ++ NEWLINE ++ lit "--- File: " ++ basename file_path
       ++ lit " ---" ++ NEWLINE ++ universal_newlines file_content, area)
  | Some (File None) =>
      (combined_input,
       area ++ [lit "<div style=" ++ quoted (lit "color:red;")
                ++ lit "><b>Error:</b> Cannot read binary file "
                ++ basename file_path ++ lit "</div>"])
  | Some Directory =>
      (combined_input,
       area ++ [error_reading (lit "[Errno 21] Is a directory: "
                               ++ py_repr (VStr file_path))])
  | None =>
      (combined_input,
       area ++ [error_reading (lit "[Errno 2] No such file or directory: "
                               ++ py_repr (VStr file_path))])
  end.

(** [ChatArea.send_message()]. *)
Definition send_message `{PyBuiltins} `{PyUnicode} : Handler unit :=
  fun '(a, w) =>
    let user_text := strip (input_box a) in
    match user_text, dropped_files a with
    | [], [] => (Returned tt, (a, w))
    | _, _ =>
        let display_text :=
          html_escape user_text
          ++ match dropped_files a with
             | [] => []
             | _ :: _ =>
                 lit " [Attached: "
                 ++ html_escape (join (lit ", ") (map basename (dropped_files a)))
                 ++ lit "]"
             end in
        let light := truthy (light_mode a) in
        let a := set_chat_area (chat_area a ++ [you_block light display_text]) a in
        let a := set_input_box [] a in
        let (combined_input, area) :=
          fold_left (fun state file_path => attach_file file_path w state)
                    (dropped_files a) (user_text, chat_area a) in
        let a := set_dropped_files [] (set_chat_area area a) in
        match chat_with_memory combined_input (current_session a) (model a)
                (max_history a) (summary_threshold a) (agent_prompt a) w with
        | (Raised e, w') => (Raised e, (a, w'))
        | (Returned assistant_reply, w') =>
            match escape_value assistant_reply with
            | Raised e => (Raised e, (a, w'))
            | Returned reply =>
                (Returned tt,
                 (set_chat_area (chat_area a ++ [assistant_block light reply]) a, w'))
            end
        end
    end.

(** [os.listdir(".")]: the names in the working directory, in no
    particular order. *)
Definition os_listdir (w : World) : list pystr := map fst (map_to_list (files w)).

(** Lines 43-44 of [sidebar.py]: the session a file name stands for. *)
Definition session_of_file (file : pystr) : option pystr :=
  if startswith file (lit "memory_") && endswith file (lit ".json")
  then Some (slice file (Z.of_nat (length (lit "memory_"))) (- 5))
  else None.

(** The loop of [load_sessions]: one item for each file name that stands
    for a session. *)
Definition session_names (names : list pystr) : list pystr :=
  flat_map (fun file => match session_of_file file with
                        | Some s => [s]
                        | None => []
                        end) names.

(** [Sidebar.load_sessions()]. *)
Definition load_sessions (a : App) (w : World) : App :=
  let items := session_names (os_listdir w) in
  set_session_list match items with
                   | [] => [lit "default"]
                   | _ :: _ => items
                   end a.

(** The characters of the class in the pattern of [re.sub]: the angle
    brackets, the colon, the double quote, the two slashes, the bar, the
    question mark and the star. *)
Definition FORBIDDEN : pystr :=
  [chr "<"; chr ">"; chr ":"; QUOTE; chr "/"; BACKSLASH; chr "|"; chr "?"; chr "*"].

(** [re.sub(pattern, '_', name).strip()], the pattern being that class. *)
Definition sanitize `{PyUnicode} (name : pystr) : pystr :=
  strip (map (fun c => if existsb (N.eqb c) FORBIDDEN then chr "_" else c) name).

(** [any(self.session_list.item(i).text() == name for i in ...)]. *)
Definition listed (name : pystr) (a : App) : bool :=
  existsb (fun item => bool_decide (item = name)) (session_list a).

(** [Sidebar.create_new_chat()]; [answer] is what the input dialog
    returns, the text and whether it was accepted. *)
Definition create_new_chat `{PyBuiltins} `{PyUnicode} (answer : pystr * bool)
  : Handler unit :=
  fun '(a, w) =>
    let (name, ok) := answer in
    match ok, name with
    | true, _ :: _ =>
        let name := sanitize name in
        match name with
        | [] => (Returned tt, (show_dialog InvalidName a, w))
        | _ :: _ =>
            if negb (listed name a)
            then load_session_chat (Some name)
                   (set_session_list (session_list a ++ [name]) a, w)
            else (Returned tt, (show_dialog DuplicateName a, w))
        end
    | _, _ => (Returned tt, (a, w))
    end.

(** [Sidebar.change_session(item)]. *)
Definition change_session `{PyBuiltins} (item : pystr) : Handler unit :=
  load_session_chat (Some item).

(** [os.remove(path)]; removing a directory raises, on Linux with this
    class. *)
Definition os_remove (path : pystr) : M unit :=
  fun w =>
    match files w !! path with
    | Some (File _) => (Returned tt, set_files (delete path (files w)) w)
    | Some Directory => (Raised (IsADirectoryError path), w)
    | None => (Raised (FileNotFoundError path), w)
    end.

(** [os.rename(old, new)] as on Linux, [None] when it raises: a file
    replaces a file and a directory a directory (which holds nothing in
    this store), the two do not replace each other, and a name replaced
    by itself stays. *)
Definition os_rename (old new : pystr) (w : World) : option World :=
  match files w !! old with
  | None => None
  | Some n =>
      let moved := Some (set_files (<[new := n]> (delete old (files w))) w) in
      match n, files w !! new with
      | _, None => moved
      | File _, Some (File _) => moved
      | Directory, Some Directory => moved
      | File _, Some Directory => None
      | Directory, Some (File _) => None
      end
  end.

(** The entries of the menu of a session. *)
Inductive menu_action : Type :=
| DeleteSession
| RenameSession.

(** Lines 74-84 of [sidebar.py]: "Delete Session" on the item with text
    [item]; [confirm] is the answer to the question box. *)
Definition delete_session `{PyBuiltins} (item : pystr) (confirm : bool) : Handler unit :=
  fun '(a, w) =>
    if confirm then
      match os_remove (MEMORY_FILE item) w with
      | (Returned _, w') | (Raised (FileNotFoundError _), w') =>
          load_session_chat (Some (lit "default")) (load_sessions a w', w')
      | (Raised e, w') => (Raised e, (a, w'))
      end
    else (Returned tt, (a, w)).

(** Lines 85-104 of [sidebar.py]: "Rename Session" on the item at row
    [i], whose text is [item]; [answer] is what the input dialog
    returns.  Whatever the [try] block raises ends in the message box. *)
Definition rename_session `{PyBuiltins} `{PyUnicode} (i : nat) (item : pystr)
    (answer : pystr * bool) : Handler unit :=
  fun '(a, w) =>
    let (new_name, ok) := answer in
    match ok, new_name with
    | true, _ :: _ =>
        let new_name := sanitize new_name in
        match new_name with
        | [] => (Returned tt, (show_dialog InvalidName a, w))
        | _ :: _ =>
            if listed new_name a
            then (Returned tt, (show_dialog DuplicateName a, w))
            else
              let old_file := MEMORY_FILE item in
              let new_file := MEMORY_FILE new_name in
              let renamed :=
                if path_exists old_file w then os_rename old_file new_file w
                else Some w in
              match renamed with
              | None => (Returned tt, (show_dialog RenameError a, w))
              | Some w1 =>
                  let a1 := set_session_list (<[i := new_name]> (session_list a)) a in
                  match load_session_chat (Some new_name) (a1, w1) with
                  | (Returned _, aw) => (Returned tt, aw)
                  | (Raised _, (a2, w2)) => (Returned tt, (show_dialog RenameError a2, w2))
                  end
              end
        end
    | _, _ => (Returned tt, (a, w))
    end.

(** [Sidebar.show_session_menu(pos)]: [row] is the row under the
    pointer, if any, and [action] the entry chosen, if any. *)
Definition show_session_menu `{PyBuiltins} `{PyUnicode} (row : option nat)
    (action : option menu_action) (confirm : bool) (answer : pystr * bool)
  : Handler unit :=
  fun '(a, w) =>
    match row with
    | None => (Returned tt, (a, w))
    | Some i =>
        match session_list a !! i with
        | None => (Returned tt, (a, w))
        | Some item =>
            match action with
            | Some DeleteSession => delete_session item confirm (a, w)
            | Some RenameSession => rename_session i item answer (a, w)
            | None => (Returned tt, (a, w))
            end
        end
    end.

(** ** Notions used in the statements about the callers *)

(** A message the chat display can show: a dict whose role and content,
    where present, are strings. *)
Definition displayable (m : pyval) : bool :=
  match m with
  | VDict d =>
      match dict_get d (lit "role") with
      | Some (VStr _) | None => true
      | Some _ => false
      end
      && match dict_get d (lit "content") with
         | Some (VStr _) | None => true
         | Some _ => false
         end
  | _ => false
  end.

(** The characters with a meaning in HTML text and attribute values. *)
Definition MARKUP : pystr := [chr "<"; chr ">"; QUOTE; chr "'"].

(** How often [c] occurs in [s]. *)
Definition occurrences (c : N) (s : pystr) : nat := count_occ N.eq_dec s c.

(** The store holds names of the working directory, not paths into
    other directories. *)
Definition names_only (w : World) : bool :=
  forallb (fun path => negb (existsb (N.eqb (chr "/")) path)) (os_listdir w).

(** *** Worked examples *)

(** White space of ASCII. *)
Definition ascii_unicode : PyUnicode := {|
  str_isspace c := ((9 <=? c) && (c <=? 13) || (28 <=? c) && (c <=? 32))%N
|}.

(** A window in dark mode on the session "t1", with [input] typed in. *)
Definition window (input : pystr) : App :=
  {| current_session := session_t1; session_list := [session_t1];
     chat_area := []; input_box := input; dropped_files := [];
     light_mode := VBool false; model := llama3; max_history := 5;
     summary_threshold := 20; agent_prompt := []; dialogs := [] |}.

(** A 200 reply whose body is [{"response": null}]. *)
Definition reply_null : post_result :=
  PostReturned {| status_error := None; text := [];
                  json_body := inr (VDict [(lit "response", VNone)]) |}.

(** ** Notions about a record that was cut short *)




(** * Part II. Properties *)
(* ===================================================================== *)

Import json.

(** ** Strings: the decoder reads back what the encoder escapes *)

Lemma scanstring_plain c s :
  (c =? QUOTE)%N = false -> (c =? BACKSLASH)%N = false -> (c <? 32)%N = false ->
  scanstring (c :: s) = cons_to c (scanstring s).
Proof. intros H1 H2 H3. cbn [scanstring]. rewrite H1, H2, H3. reflexivity. Qed.

Lemma scanstring_short e ch s :
  (e =? chr "u")%N = false -> unescape e = Some ch ->
  scanstring (BACKSLASH :: e :: s) = cons_to ch (scanstring s).
Proof.
  intros H1 H2. cbn [scanstring].
  change (BACKSLASH =? QUOTE)%N with false. change (BACKSLASH =? BACKSLASH)%N with true.
  cbv iota. rewrite H1, H2. reflexivity.
Qed.

Lemma scanstring_u h1 h2 h3 h4 uni s :
  decode_uXXXX h1 h2 h3 h4 = Some uni -> is_high_surrogate uni = false ->
  scanstring (BACKSLASH :: chr "u" :: h1 :: h2 :: h3 :: h4 :: s) = cons_to uni (scanstring s).
Proof.
  intros H1 H2. cbn [scanstring].
  change (BACKSLASH =? QUOTE)%N with false. change (BACKSLASH =? BACKSLASH)%N with true.
  change (chr "u" =? chr "u")%N with true.
  cbv iota. rewrite H1, H2.
  destruct s as [|a [|b [|c [|d [|e [|f s]]]]]]; reflexivity.
Qed.

Lemma scanstring_escape_char c s :
  scanstring (escape_char c ++ s) = cons_to c (scanstring s).
Proof.
  unfold escape_char.
  destruct (N.eqb_spec c QUOTE) as [->|Hq]; [apply (scanstring_short QUOTE); reflexivity|].
  destruct (N.eqb_spec c BACKSLASH) as [->|Hb]; [apply (scanstring_short BACKSLASH); reflexivity|].
  destruct (N.eqb_spec c 10) as [->|?]; [apply (scanstring_short (chr "n")); reflexivity|].
  destruct (N.eqb_spec c 13) as [->|?]; [apply (scanstring_short (chr "r")); reflexivity|].
  destruct (N.eqb_spec c 9) as [->|?]; [apply (scanstring_short (chr "t")); reflexivity|].
  destruct (N.eqb_spec c 8) as [->|?]; [apply (scanstring_short (chr "b")); reflexivity|].
  destruct (N.eqb_spec c 12) as [->|?]; [apply (scanstring_short (chr "f")); reflexivity|].
  destruct (N.ltb_spec c 32) as [Hlt|Hge].
  - assert (Hc : exists k, c = N.of_nat k /\ (k < 32)%nat).
    { exists (N.to_nat c). split; lia. }
    destruct Hc as (k & -> & Hk).
    do 32 (destruct k as [|k]; [apply scanstring_u; reflexivity|]). lia.
  - apply scanstring_plain.
    + apply N.eqb_neq; assumption.
    + apply N.eqb_neq; assumption.
    + apply N.ltb_ge; assumption.
Qed.

Lemma scanstring_encode s rest :
  scanstring (flat_map escape_char s ++ QUOTE :: rest) = Some (s, rest).
Proof.
  induction s as [|c s IH]; [reflexivity|].
  cbn [flat_map]. rewrite <- app_assoc, scanstring_escape_char, IH. reflexivity.
Qed.

(** ** Integers: the decoder reads back the decimal rendering *)

Lemma delimited_not_numeric rest : delimited rest -> not_numeric rest.
Proof.
  destruct rest as [|c rest]; [easy|]. cbn.
  intros [->| ->]; repeat split; try reflexivity; discriminate.
Qed.

Lemma to_uint_head p : forall d, Pos.to_uint p <> Decimal.D0 d.
Proof.
  intros d H.
  assert (Hn : Pos.to_uint p = Decimal.unorm (Pos.to_uint p)).
  { pose proof (DecimalN.Unsigned.to_of (Pos.to_uint p)) as E.
    change (N.of_uint (Pos.to_uint p)) with (Pos.of_uint (Pos.to_uint p)) in E.
    rewrite DecimalPos.Unsigned.of_to in E. exact E. }
  destruct (Decimal.uint_eq_dec (Decimal.nzhead (Pos.to_uint p)) Decimal.Nil) as [E|E].
  - apply unorm_0 in E. rewrite <- Hn in E.
    exact (DecimalPos.Unsigned.to_uint_nonzero p E).
  - rewrite (unorm_nzhead _ E) in Hn. rewrite Hn in H.
    exact (nzhead_nonzero _ _ H).
Qed.

Lemma span_digits_uint u rest :
  not_numeric rest -> span_digits (uint_chars u ++ rest) = (uint_chars u, rest).
Proof.
  intros Hr. induction u; cbn [uint_chars app span_digits];
    try (change (is_digit (chr _)) with true; cbv iota; rewrite IHu; reflexivity).
  destruct rest as [|c rest]; [reflexivity|]. cbn. destruct Hr as [-> _]. reflexivity.
Qed.

Lemma uint_of_digits_chars u : uint_of_digits (uint_chars u) = u.
Proof.
  unfold uint_of_digits.
  induction u; cbn [uint_chars fold_right]; try rewrite IHu; reflexivity.
Qed.

Lemma match_frac_none rest : not_numeric rest -> match_frac rest = ([], rest).
Proof.
  destruct rest as [|c rest]; [reflexivity|]. intros (_ & H & _). unfold match_frac.
  destruct (N.eqb_spec c (chr ".")); [contradiction|reflexivity].
Qed.

Lemma match_exp_none rest : not_numeric rest -> match_exp rest = ([], rest).
Proof.
  destruct rest as [|c rest]; [reflexivity|]. intros (_ & _ & H1 & H2). unfold match_exp.
  destruct (N.eqb_spec c (chr "e")); [contradiction|].
  destruct (N.eqb_spec c (chr "E")); [contradiction|reflexivity].
Qed.

Lemma match_integer_digit c s :
  is_digit c = true -> (c =? chr "0")%N = false ->
  match_integer (c :: s) =
    (let (ds, rest) := span_digits s in Some (false, c :: ds, rest)) /\
  match_integer (chr "-" :: c :: s) =
    (let (ds, rest) := span_digits s in Some (true, c :: ds, rest)).
Proof.
  intros Hd H0. unfold match_integer.
  change (chr "-" =? chr "-")%N with true. cbv iota beta.
  assert (Hm : (c =? chr "-")%N = false).
  { apply N.eqb_neq. intros ->. discriminate Hd. }
  rewrite Hm, H0, Hd. split; reflexivity.
Qed.

Lemma match_integer_uint u rest :
  not_numeric rest -> u <> Decimal.Nil -> (forall d, u <> Decimal.D0 d) ->
  match_integer (uint_chars u ++ rest) = Some (false, uint_chars u, rest) /\
  match_integer (chr "-" :: uint_chars u ++ rest) = Some (true, uint_chars u, rest).
Proof.
  intros Hr Hnil H0.
  destruct u; try congruence; try (exfalso; eapply H0; reflexivity);
    cbn [uint_chars app];
    (edestruct match_integer_digit as [-> ->]; [reflexivity|reflexivity|]);
    rewrite span_digits_uint by assumption; split; reflexivity.
Qed.

Lemma scan_number_int z rest :
  not_numeric rest -> scan_number (int_str z ++ rest) = Some (VInt z, rest).
Proof.
  intros Hr. unfold scan_number, int_str.
  destruct z as [|p|p]; cbn [Z.to_int].
  - change (match_integer (uint_chars (Decimal.D0 Decimal.Nil) ++ rest))
      with (Some (false, [chr "0"], rest)). cbv beta iota.
    rewrite (match_frac_none _ Hr), (match_exp_none _ Hr). reflexivity.
  - destruct (match_integer_uint (Pos.to_uint p) rest Hr
                (DecimalPos.Unsigned.to_uint_nonnil p) (to_uint_head p)) as [-> _].
    rewrite (match_frac_none _ Hr), (match_exp_none _ Hr), uint_of_digits_chars.
    do 2 f_equal. f_equal. exact (DecimalZ.of_to (Z.pos p)).
  - cbn [app].
    destruct (match_integer_uint (Pos.to_uint p) rest Hr
                (DecimalPos.Unsigned.to_uint_nonnil p) (to_uint_head p)) as [_ ->].
    rewrite (match_frac_none _ Hr), (match_exp_none _ Hr), uint_of_digits_chars.
    do 2 f_equal. f_equal. exact (DecimalZ.of_to (Z.neg p)).
Qed.

(** The first character of an integer literal. *)
Lemma int_str_head z :
  exists c s, int_str z = c :: s /\ (is_digit c = true \/ c = chr "-").
Proof.
  unfold int_str. destruct z as [|p|p]; cbn [Z.to_int].
  - eexists _, _. split; [reflexivity|]. left. reflexivity.
  - pose proof (DecimalPos.Unsigned.to_uint_nonnil p) as Hn.
    destruct (Pos.to_uint p); try congruence; cbn [uint_chars];
      eexists _, _; (split; [reflexivity|]); left; reflexivity.
  - eexists _, _. split; [reflexivity|]. right. reflexivity.
Qed.

(** ** The text of the encoder, chunk by chunk *)

Lemma pyval_induction (P : pyval -> Prop) :
  P VNone -> (forall b, P (VBool b)) -> (forall z, P (VInt z)) ->
  (forall f, P (VFloat f)) -> (forall s, P (VStr s)) ->
  (forall l, Forall P l -> P (VList l)) ->
  (forall d, Forall (fun kv => P (snd kv)) d -> P (VDict d)) ->
  forall v, P v.
Proof.
  intros HN HB HI HF HS HL HD.
  fix IH 1. intros [| b | z | f | s | l | d].
  - exact HN.
  - apply HB.
  - apply HI.
  - apply HF.
  - apply HS.
  - apply HL. induction l as [|v l IHl]; constructor; [apply IH | exact IHl].
  - apply HD. induction d as [|[k v] d IHd]; constructor; [apply IH | exact IHd].
Qed.

Section EncoderText.
Context `{PyBuiltins}.

Lemma iterencode_atom level v a : encode_atom v = Some a -> iterencode level v = [a].
Proof.
  intros E. destruct v; try discriminate E; cbn [iterencode]; rewrite E; reflexivity.
Qed.

Lemma pp_atom level v a : encode_atom v = Some a -> pp level v = a.
Proof. intros E. unfold pp. rewrite (iterencode_atom _ _ _ E). cbn. apply app_nil_r. Qed.

Lemma concat_list_items level v l buf :
  concat (iterencode_list_items iterencode level (v :: l) buf) =
  buf ++ pp level v ++
  concat (iterencode_list_items iterencode level l (chr "," :: newline_indent level)).
Proof.
  cbn [iterencode_list_items]. rewrite concat_app.
  destruct (encode_atom v) eqn:E.
  - rewrite (pp_atom _ _ _ E). cbn [concat]. rewrite app_nil_r, <- app_assoc. reflexivity.
  - cbn [concat]. fold (pp level v). rewrite <- app_assoc. reflexivity.
Qed.

Lemma concat_dict_items level k v d first :
  concat (iterencode_dict_items iterencode level ((k, v) :: d) first) =
  (if first then [] else chr "," :: newline_indent level) ++
  encode_basestring k ++ lit ": " ++ pp level v ++
  concat (iterencode_dict_items iterencode level d false).
Proof.
  cbn [iterencode_dict_items]. rewrite !concat_app.
  destruct (encode_atom v) eqn:E.
  - rewrite (pp_atom _ _ _ E).
    destruct first; cbn [concat app]; rewrite ?app_nil_r, <- ?app_assoc; reflexivity.
  - fold (pp level v).
    destruct first; cbn [concat app]; rewrite ?app_nil_r, <- ?app_assoc; reflexivity.
Qed.

Lemma pp_list_nil level : pp level (VList []) = lit "[]".
Proof. reflexivity. Qed.

Lemma pp_list_cons level v l :
  pp level (VList (v :: l)) =
  chr "[" :: newline_indent (S level) ++ pp (S level) v ++
  concat (iterencode_list_items iterencode (S level) l (chr "," :: newline_indent (S level)))
  ++ newline_indent level ++ lit "]".
Proof.
  unfold pp at 1. cbn [iterencode iterencode_list]. rewrite concat_app, concat_list_items.
  cbn [concat]. rewrite app_nil_r, <- !app_assoc. reflexivity.
Qed.

Lemma pp_dict_nil level : pp level (VDict []) = lit "{}".
Proof. reflexivity. Qed.

Lemma pp_dict_cons level k v d :
  pp level (VDict ((k, v) :: d)) =
  chr "{" :: newline_indent (S level) ++ encode_basestring k ++ lit ": " ++
  pp (S level) v ++ concat (iterencode_dict_items iterencode (S level) d false)
  ++ newline_indent level ++ lit "}".
Proof.
  unfold pp at 1. cbn [iterencode iterencode_dict].
  rewrite !concat_app, concat_dict_items.
  cbn [concat app]. rewrite app_nil_r, <- !app_assoc. reflexivity.
Qed.

End EncoderText.

(** ** White space and arrays *)

Ltac lens :=
  repeat first [rewrite length_app in * | progress cbn [length] in *]; lia.

Lemma is_digit_range c : is_digit c = true -> (48 <= c <= 57)%N.
Proof. unfold is_digit. intros H%andb_true_iff. destruct H as [?%N.leb_le ?%N.leb_le]. lia. Qed.

Lemma value_start_facts c :
  value_start c ->
  is_ws c = false /\ (c =? chr "]")%N = false /\ (c =? chr "}")%N = false.
Proof.
  intros Hc. repeat destruct Hc as [->|Hc]; try (repeat split; reflexivity).
  apply is_digit_range in Hc. unfold is_ws.
  repeat split; repeat (apply orb_false_iff; split); apply N.eqb_neq;
    intros ->; compute in Hc; destruct Hc; congruence.
Qed.

Lemma skip_ws_head c s : is_ws c = false -> skip_ws (c :: s) = c :: s.
Proof. intros E. cbn [skip_ws]. rewrite E. reflexivity. Qed.

Lemma skip_ws_spaces n s : skip_ws (repeat (chr " ") n ++ s) = skip_ws s.
Proof. induction n as [|n IH]; [reflexivity|]. exact IH. Qed.

Lemma skip_ws_newline_indent level s : skip_ws (newline_indent level ++ s) = skip_ws s.
Proof. unfold newline_indent. cbn [app]. change (skip_ws (chr "010" :: ?x)) with (skip_ws x). apply skip_ws_spaces. Qed.

Lemma length_newline_indent level : length (newline_indent level) = S (2 * level).
Proof. unfold newline_indent. cbn [length]. rewrite repeat_length. reflexivity. Qed.

Section Arrays.
Context `{PyBuiltins}.

Lemma pp_head level v :
  plain v = true -> exists c s, pp level v = c :: s /\ value_start c.
Proof.
  unfold value_start.
  destruct v as [| [|] | z | f | s | [|v l] | [|[k v] d]]; intros Hp; try discriminate Hp.
  - exists (chr "n"), (lit "ull"). split; [reflexivity|tauto].
  - exists (chr "t"), (lit "rue"). split; [reflexivity|tauto].
  - exists (chr "f"), (lit "alse"). split; [reflexivity|tauto].
  - destruct (int_str_head z) as (c & s & E & Hc).
    exists c, s. split; [rewrite (pp_atom _ (VInt z) _ eq_refl); exact E|]. tauto.
  - eexists _, _. split; [rewrite (pp_atom _ (VStr s) _ eq_refl); reflexivity|]. tauto.
  - eexists _, _. split; [reflexivity|]. tauto.
  - eexists _, _. split; [apply pp_list_cons|]. tauto.
  - eexists _, _. split; [reflexivity|]. tauto.
  - eexists _, _. split; [apply pp_dict_cons|]. tauto.
Qed.

Lemma skip_ws_pp level v s : plain v = true -> skip_ws (pp level v ++ s) = pp level v ++ s.
Proof.
  intros Hp. destruct (pp_head level v Hp) as (c & t & -> & Hc).
  apply skip_ws_head, value_start_facts, Hc.
Qed.

Lemma scan_once_number fuel c s v rest :
  is_digit c = true \/ c = chr "-" ->
  scan_number (c :: s) = Some (v, rest) ->
  scan_once (S fuel) (c :: s) = POk v rest.
Proof.
  intros Hc E. cbn [scan_once].
  assert (Hq : (c =? QUOTE)%N = false /\ (c =? chr "{")%N = false /\ (c =? chr "[")%N = false
               /\ (c =? chr "n")%N = false /\ (c =? chr "t")%N = false /\ (c =? chr "f")%N = false).
  { destruct Hc as [Hc%is_digit_range| ->]; [|repeat split; reflexivity].
    repeat split; apply N.eqb_neq; intros ->; compute in Hc; destruct Hc; congruence. }
  destruct Hq as (-> & -> & -> & Hn & Ht & Hf).
  change (strip_prefix (lit "null") (c :: s)) with
    (if (c =? chr "n")%N then strip_prefix (lit "ull") s else None).
  change (strip_prefix (lit "true") (c :: s)) with
    (if (c =? chr "t")%N then strip_prefix (lit "rue") s else None).
  change (strip_prefix (lit "false") (c :: s)) with
    (if (c =? chr "f")%N then strip_prefix (lit "alse") s else None).
  rewrite Hn, Ht, Hf, E. reflexivity.
Qed.

Lemma delimited_newline_indent level s : delimited (newline_indent level ++ s).
Proof. right. reflexivity. Qed.

Lemma delimited_comma s : delimited (chr "," :: s).
Proof. left. reflexivity. Qed.

Lemma JSONArray_items level rest l :
  Forall reads_back l -> forallb plain l = true ->
  forall v acc fuel,
    reads_back v -> plain v = true ->
    2 * length (pp (S level) v ++
                concat (iterencode_list_items iterencode (S level) l
                          (chr "," :: newline_indent (S level))) ++
                newline_indent level ++ chr "]" :: rest) + 1 < fuel ->
    JSONArray fuel
      (pp (S level) v ++
       concat (iterencode_list_items iterencode (S level) l
                 (chr "," :: newline_indent (S level))) ++
       newline_indent level ++ chr "]" :: rest) acc
    = POk (rev acc ++ v :: l) rest.
Proof.
  induction l as [|v' l IH]; intros Hl Hpl v acc fuel Hv Hpv Hfuel.
  - cbn [iterencode_list_items concat app] in *.
    destruct fuel as [|fuel]; [lia|]. cbn [JSONArray].
    rewrite (Hv Hpv) by (try apply delimited_newline_indent; lia).
    rewrite skip_ws_newline_indent, skip_ws_head by reflexivity.
    change (chr "]" =? chr "]")%N with true. cbv iota.
    cbn [rev]. reflexivity.
  - rewrite concat_list_items in *. rewrite <- !app_assoc in *.
    inversion Hl as [|? ? Hv' Hl']; subst.
    cbn [forallb] in Hpl. apply andb_true_iff in Hpl as [Hpv' Hpl'].
    destruct fuel as [|fuel]; [lia|]. cbn [JSONArray].
    cbn [app] in *.
    rewrite (Hv Hpv) by (try apply delimited_comma; lia).
    rewrite skip_ws_head by reflexivity.
    change (chr "," =? chr "]")%N with false. change (chr "," =? chr ",")%N with true.
    cbv iota.
    rewrite skip_ws_newline_indent, skip_ws_pp by assumption.
    rewrite IH; try assumption.
    + cbn [rev]. rewrite <- app_assoc. reflexivity.
    + clear IH. lens.
Qed.

End Arrays.

(** ** Objects, and the round trip through [json] *)

Lemma dict_set_fresh d k v :
  k ∉ map fst d -> dict_set d k v = d ++ [(k, v)].
Proof.
  induction d as [|[k' v'] d IH]; intros Hk; [reflexivity|].
  cbn [dict_set map fst] in *. apply not_elem_of_cons in Hk as [Hne Hk].
  destruct (decide (k' = k)); [congruence|]. rewrite IH by assumption. reflexivity.
Qed.

Lemma dict_of_pairs_from acc pairs :
  NoDup (map fst (acc ++ pairs)) ->
  fold_left (fun d kv => dict_set d (fst kv) (snd kv)) pairs acc = acc ++ pairs.
Proof.
  revert acc. induction pairs as [|[k v] pairs IH]; intros acc Hnd.
  - symmetry. apply app_nil_r.
  - cbn [fold_left fst snd]. rewrite dict_set_fresh.
    + rewrite IH; rewrite <- app_assoc; [reflexivity|exact Hnd].
    + rewrite map_app in Hnd. apply NoDup_app in Hnd as (_ & Hd & _).
      intros Hin. apply (Hd k Hin). left.
Qed.

Lemma dict_of_pairs_nodup d : NoDup (map fst d) -> dict_of_pairs d = d.
Proof. intros Hnd. apply (dict_of_pairs_from [] d Hnd). Qed.

Section Objects.
Context `{PyBuiltins}.

Lemma JSONObject_items level rest d :
  Forall (fun kv => reads_back (snd kv)) d ->
  forallb (fun kv => plain (snd kv)) d = true ->
  forall k v acc fuel,
    reads_back v -> plain v = true ->
    2 * length (encode_basestring k ++ lit ": " ++ pp (S level) v ++
                concat (iterencode_dict_items iterencode (S level) d false) ++
                newline_indent level ++ chr "}" :: rest) + 1 < fuel ->
    JSONObject fuel
      (encode_basestring k ++ lit ": " ++ pp (S level) v ++
       concat (iterencode_dict_items iterencode (S level) d false) ++
       newline_indent level ++ chr "}" :: rest) acc
    = POk (rev acc ++ (k, v) :: d) rest.
Proof.
  induction d as [|[k' v'] d IH]; intros Hd Hpd k v acc fuel Hv Hpv Hfuel.
  - cbn [iterencode_dict_items concat] in *.
    destruct fuel as [|fuel]; [lia|].
    unfold encode_basestring in *. cbn [app] in *. rewrite <- app_assoc in *.
    cbn [app] in *. cbn [JSONObject].
    change (QUOTE =? QUOTE)%N with true. cbv iota.
    rewrite scanstring_encode.
    change (lit ": " ++ ?x) with (chr ":" :: chr " " :: x) in Hfuel |- *.
    rewrite skip_ws_head by reflexivity.
    change (chr ":" =? chr ":")%N with true. cbv iota.
    change (skip_ws (chr " " :: ?x)) with (skip_ws x).
    rewrite skip_ws_pp by assumption.
    rewrite (Hv Hpv) by (try apply delimited_newline_indent; clear -Hfuel; lens).
    rewrite skip_ws_newline_indent, skip_ws_head by reflexivity.
    change (chr "}" =? chr "}")%N with true. cbv iota.
    cbn [rev]. reflexivity.
  - rewrite concat_dict_items in *. rewrite <- ?app_assoc in *.
    inversion Hd as [|? ? Hv' Hd']; subst. cbn [snd] in Hv'.
    cbn [forallb snd] in Hpd. apply andb_true_iff in Hpd as [Hpv' Hpd'].
    destruct fuel as [|fuel]; [lia|].
    unfold encode_basestring at 1. unfold encode_basestring at 1 in Hfuel.
    cbn [app] in *. rewrite <- app_assoc in *.
    cbn [app] in *. cbn [JSONObject].
    change (QUOTE =? QUOTE)%N with true. cbv iota.
    rewrite scanstring_encode.
    change (lit ": " ++ ?x) with (chr ":" :: chr " " :: x) in Hfuel |- *.
    rewrite skip_ws_head by reflexivity.
    change (chr ":" =? chr ":")%N with true. cbv iota.
    change (skip_ws (chr " " :: ?x)) with (skip_ws x).
    rewrite skip_ws_pp by assumption.
    rewrite (Hv Hpv) by (try apply delimited_comma; clear -Hfuel; lens).
    rewrite skip_ws_head by reflexivity.
    change (chr "," =? chr "}")%N with false. change (chr "," =? chr ",")%N with true.
    cbv iota.
    rewrite skip_ws_newline_indent.
    change (skip_ws (encode_basestring k' ++ ?x)) with (encode_basestring k' ++ x).
    rewrite IH; try assumption.
    + cbn [rev]. rewrite <- app_assoc. reflexivity.
    + clear -Hfuel. lens.
Qed.

Theorem scan_once_pp v : reads_back v.
Proof.
  induction v as [| b | z | f | s | l IHl | d IHd] using pyval_induction;
    intros Hp level rest fuel Hrest Hfuel; try discriminate Hp;
    (destruct fuel as [|fuel]; [lia|]).
  - reflexivity.
  - destruct b; reflexivity.
  - rewrite (pp_atom _ (VInt z) _ eq_refl) in *.
    destruct (int_str_head z) as (c & s & E & Hc).
    pose proof (scan_number_int z rest (delimited_not_numeric _ Hrest)) as Hn.
    rewrite E in *. cbn [app] in *. apply scan_once_number; assumption.
  - rewrite (pp_atom _ (VStr s) _ eq_refl) in *.
    unfold encode_basestring. cbn [app]. rewrite <- app_assoc. cbn [app scan_once].
    change (QUOTE =? QUOTE)%N with true. cbv iota.
    rewrite scanstring_encode. reflexivity.
  - destruct l as [|v l]; [reflexivity|].
    rewrite pp_list_cons in *. cbn [app] in *. rewrite <- ?app_assoc in *.
    cbn [plain forallb] in Hp. apply andb_true_iff in Hp as [Hpv Hpl].
    inversion IHl as [|? ? Hv Hl]; subst.
    cbn [scan_once].
    change (chr "[" =? QUOTE)%N with false. change (chr "[" =? chr "{")%N with false.
    change (chr "[" =? chr "[")%N with true. cbv iota.
    rewrite skip_ws_newline_indent, skip_ws_pp by assumption.
    destruct (pp_head (S level) v Hpv) as (c & t & E & Hc).
    destruct (value_start_facts c Hc) as (_ & Hc1 & _).
    rewrite E at 1. cbn [app]. rewrite Hc1.
    change (c :: t ++ ?x) with ((c :: t) ++ x). rewrite <- E.
    change (lit "]" ++ rest) with (chr "]" :: rest) in *.
    rewrite (JSONArray_items level rest l Hl Hpl v [] fuel Hv Hpv); [reflexivity|].
    clear -Hfuel. lens.
  - destruct d as [|[k v] d]; [reflexivity|].
    rewrite pp_dict_cons in *. cbn [app] in *. rewrite <- ?app_assoc in *.
    cbn [plain forallb snd map fst] in Hp. apply andb_true_iff in Hp as [Hp Hnd].
    apply andb_true_iff in Hp as [Hpv Hpd]. apply bool_decide_eq_true in Hnd.
    inversion IHd as [|? ? Hv Hd]; subst. cbn [snd] in Hv.
    cbn [scan_once].
    change (chr "{" =? QUOTE)%N with false. change (chr "{" =? chr "{")%N with true.
    cbv iota.
    rewrite skip_ws_newline_indent.
    unfold encode_basestring at 1. cbn [app].
    rewrite skip_ws_head by reflexivity.
    change (QUOTE =? chr "}")%N with false. cbv iota.
    change (QUOTE :: (flat_map escape_char k ++ [QUOTE]) ++ ?x)
      with (encode_basestring k ++ x).
    change (lit "}" ++ rest) with (chr "}" :: rest) in *.
    rewrite (JSONObject_items level rest d Hd Hpd k v [] fuel Hv Hpv).
    + cbn [rev app]. rewrite dict_of_pairs_nodup by exact Hnd. reflexivity.
    + clear -Hfuel. unfold encode_basestring in *. lens.
Qed.

(** The byte order mark is no JSON token, so the explicit test for it
    in [loads] only changes which error is reported. *)
Lemma loads_scan s :
  loads s =
  match scan_once (2 * length s + 1) (skip_ws s) with
  | POk v rest => match skip_ws rest with [] => Some v | _ :: _ => None end
  | _ => None
  end.
Proof.
  unfold loads. destruct s as [|[|p] t]; try reflexivity.
  do 16 (try (destruct p as [p|p|]; try reflexivity)).
Qed.

(** [json.loads] reads back what [json.dumps] wrote. *)
Theorem loads_dumps v : plain v = true -> loads (dumps v) = Some v.
Proof.
  intros Hp. unfold dumps. fold (pp 0 v).
  pose proof (scan_once_pp v Hp 0 [] (2 * length (pp 0 v) + 1) I) as Hs.
  rewrite app_nil_r in Hs.
  rewrite loads_scan, <- (app_nil_r (pp 0 v)), skip_ws_pp, app_nil_r, Hs
    by (assumption || lia).
  reflexivity.
Qed.

End Objects.

(** ** The decoder never runs out of fuel *)

Lemma skip_ws_length s : length (skip_ws s) <= length s.
Proof.
  induction s as [|c s IH]; [reflexivity|]. cbn [skip_ws].
  destruct (is_ws c); cbn [length]; lia.
Qed.

Lemma cons_to_length c r t rest (n : nat) :
  cons_to c r = Some (t, rest) ->
  (forall t' rest', r = Some (t', rest') -> length rest' < n) ->
  length rest < n.
Proof.
  destruct r as [[t' rest']|]; [|discriminate]. cbn. intros [= <- <-] Hr. eapply Hr. reflexivity.
Qed.

Lemma scanstring_length s : forall t rest,
  scanstring s = Some (t, rest) -> length rest < length s.
Proof.
  induction s as [s IH] using (induction_ltof1 _ (@length N)). unfold ltof in IH.
  intros t rest. destruct s as [|c r]; [discriminate|]. cbn [scanstring].
  assert (Hstep : forall c' s', length s' < length (c :: r) ->
            cons_to c' (scanstring s') = Some (t, rest) -> length rest < length (c :: r)).
  { intros c' s' Hl E. eapply cons_to_length; [exact E|].
    intros t' rest' E'. apply IH in E'; [lia|exact Hl]. }
  destruct (c =? QUOTE)%N; [intros [= <- <-]; cbn; lia|].
  destruct (c =? BACKSLASH)%N.
  - destruct r as [|esc r1]; [discriminate|].
    destruct (esc =? chr "u")%N.
    + destruct r1 as [|h1 [|h2 [|h3 [|h4 r2]]]]; try discriminate.
      destruct (decode_uXXXX h1 h2 h3 h4) as [uni|]; [|discriminate].
      destruct r2 as [|b [|u [|l1 [|l2 [|l3 [|l4 r3]]]]]];
        try (destruct (is_high_surrogate uni && startswith _ _); [discriminate|];
             apply Hstep; cbn [length]; lia).
      destruct (is_high_surrogate uni && (b =? BACKSLASH)%N && (u =? chr "u")%N).
      * destruct (decode_uXXXX l1 l2 l3 l4) as [uni2|]; [|discriminate].
        destruct (is_low_surrogate uni2); apply Hstep; cbn [length]; lia.
      * apply Hstep; cbn [length]; lia.
    + destruct (unescape esc); [|discriminate]. apply Hstep; cbn [length]; lia.
  - destruct (c <? 32)%N; [discriminate|]. apply Hstep; cbn [length]; lia.
Qed.

Lemma strip_prefix_length word : forall s rest,
  strip_prefix word s = Some rest -> length rest + length word = length s.
Proof.
  induction word as [|w word IH]; intros s rest.
  - cbn. intros [= <-]. lia.
  - destruct s as [|c s]; [discriminate|]. cbn [strip_prefix].
    destruct (c =? w)%N; [|discriminate]. intros E%IH. cbn [length]. lia.
Qed.

Lemma span_digits_length s :
  length (snd (span_digits s)) <= length s.
Proof.
  induction s as [|c s IH]; [reflexivity|]. cbn [span_digits].
  destruct (is_digit c); [|reflexivity].
  destruct (span_digits s) as [ds rest]. cbn [snd length] in *. lia.
Qed.

Lemma match_integer_length s neg ds rest :
  match_integer s = Some (neg, ds, rest) -> length rest < length s.
Proof.
  unfold match_integer.
  assert (Hd : forall s1, length s1 <= length s ->
            match s1 with
            | [] => None
            | c :: s2 =>
                if (c =? chr "0")%N then Some (neg, [c], s2)
                else if is_digit c
                     then let (ds0, rest0) := span_digits s2 in Some (neg, c :: ds0, rest0)
                     else None
            end = Some (neg, ds, rest) -> length rest < length s).
  { intros [|c s2] Hl; [discriminate|]. cbn [length] in Hl.
    destruct (c =? chr "0")%N; [intros [= _ <-]; lia|].
    destruct (is_digit c); [|discriminate].
    pose proof (span_digits_length s2) as Hs.
    destruct (span_digits s2) as [ds0 rest0]. cbn [snd] in Hs. intros [= _ <-]. lia. }
  destruct s as [|c s']; [discriminate|].
  destruct (c =? chr "-")%N.
  - destruct s' as [|c1 s2]; [discriminate|].
    destruct (c1 =? chr "0")%N; [intros [= _ _ <-]; cbn; lia|].
    destruct (is_digit c1); [|discriminate].
    pose proof (span_digits_length s2) as Hs.
    destruct (span_digits s2) as [ds0 rest0]. cbn [snd] in Hs. intros [= _ _ <-]. cbn. lia.
  - destruct (c =? chr "0")%N; [intros [= _ _ <-]; cbn; lia|].
    destruct (is_digit c); [|discriminate].
    pose proof (span_digits_length s') as Hs.
    destruct (span_digits s') as [ds0 rest0]. cbn [snd] in Hs. intros [= _ _ <-]. cbn. lia.
Qed.

Lemma match_frac_length s : length (snd (match_frac s)) <= length s.
Proof.
  unfold match_frac. destruct s as [|c s']; [reflexivity|].
  destruct (c =? chr ".")%N; [|reflexivity].
  pose proof (span_digits_length s') as Hs.
  destruct (span_digits s') as [[|d ds] rest]; cbn [snd length] in *; lia.
Qed.

Lemma match_exp_length s : length (snd (match_exp s)) <= length s.
Proof.
  unfold match_exp. destruct s as [|e s']; [reflexivity|].
  destruct ((e =? chr "e")%N || (e =? chr "E")%N); [|reflexivity].
  destruct s' as [|c s3].
  - cbn. lia.
  - destruct ((c =? chr "-")%N || (c =? chr "+")%N).
    + pose proof (span_digits_length s3) as Hs.
      destruct (span_digits s3) as [[|d ds] rest]; cbn [snd length] in *; lia.
    + pose proof (span_digits_length (c :: s3)) as Hs.
      destruct (span_digits (c :: s3)) as [[|d ds] rest]; cbn [snd length] in *; lia.
Qed.

Lemma scan_number_length s v rest :
  scan_number s = Some (v, rest) -> length rest < length s.
Proof.
  unfold scan_number.
  destruct (match_integer s) as [[[neg ds] r1]|] eqn:Ei; [|discriminate].
  apply match_integer_length in Ei.
  pose proof (match_frac_length r1) as Hf.
  destruct (match_frac r1) as [frac r2]. cbn [snd] in Hf.
  pose proof (match_exp_length r2) as He.
  destruct (match_exp r2) as [exp r3]. cbn [snd] in He.
  destruct frac, exp; intros [= _ <-]; lia.
Qed.

Lemma scan_constant_length s v rest :
  scan_constant s = Some (v, rest) -> length rest < length s.
Proof.
  unfold scan_constant.
  destruct (strip_prefix (lit "NaN") s) eqn:E1;
    [apply strip_prefix_length in E1; intros [= _ <-]; cbn in E1; lia|].
  destruct (strip_prefix (lit "Infinity") s) eqn:E2;
    [apply strip_prefix_length in E2; intros [= _ <-]; cbn in E2; lia|].
  destruct (strip_prefix (lit "-Infinity") s) eqn:E3;
    [apply strip_prefix_length in E3; intros [= _ <-]; cbn in E3; lia|].
  discriminate.
Qed.

(** A value, an array tail and an object tail each consume input. *)
Lemma scan_progress fuel :
  (forall s v rest, scan_once fuel s = POk v rest -> length rest < length s) /\
  (forall s acc l rest, JSONArray fuel s acc = POk l rest -> length rest < length s) /\
  (forall s acc l rest, JSONObject fuel s acc = POk l rest -> length rest < length s).
Proof.
  induction fuel as [|fuel (IHv & IHa & IHo)]; [repeat split; discriminate|].
  split; [|split].
  - intros s v rest. cbn [scan_once]. destruct s as [|c r]; [discriminate|].
    destruct (c =? QUOTE)%N.
    { destruct (scanstring r) as [[t rest']|] eqn:E; [|discriminate].
      apply scanstring_length in E. intros [= _ <-]. cbn. lia. }
    destruct (c =? chr "{")%N.
    { pose proof (skip_ws_length r) as Hw.
      destruct (skip_ws r) as [|c1 r1]; [discriminate|].
      destruct (c1 =? chr "}")%N; [intros [= _ <-]; cbn in *; lia|].
      destruct (JSONObject fuel (c1 :: r1) []) as [pairs rest'| |] eqn:E; try discriminate.
      apply IHo in E. intros [= _ <-]. cbn in *. lia. }
    destruct (c =? chr "[")%N.
    { pose proof (skip_ws_length r) as Hw.
      destruct (skip_ws r) as [|c1 r1]; [discriminate|].
      destruct (c1 =? chr "]")%N; [intros [= _ <-]; cbn in *; lia|].
      destruct (JSONArray fuel (c1 :: r1) []) as [values rest'| |] eqn:E; try discriminate.
      apply IHa in E. intros [= _ <-]. cbn in *. lia. }
    destruct (strip_prefix (lit "null") (c :: r)) eqn:E1;
      [apply strip_prefix_length in E1; intros [= _ <-]; cbn in E1 |- *; lia|].
    destruct (strip_prefix (lit "true") (c :: r)) eqn:E2;
      [apply strip_prefix_length in E2; intros [= _ <-]; cbn in E2 |- *; lia|].
    destruct (strip_prefix (lit "false") (c :: r)) eqn:E3;
      [apply strip_prefix_length in E3; intros [= _ <-]; cbn in E3 |- *; lia|].
    destruct (scan_number (c :: r)) as [[v' rest']|] eqn:E4;
      [apply scan_number_length in E4; intros [= _ <-]; exact E4|].
    destruct (scan_constant (c :: r)) as [[v' rest']|] eqn:E5;
      [apply scan_constant_length in E5; intros [= _ <-]; exact E5|].
    discriminate.
  - intros s acc l rest. cbn [JSONArray].
    destruct (scan_once fuel s) as [value rest1| |] eqn:E; try discriminate.
    apply IHv in E. pose proof (skip_ws_length rest1) as Hw.
    destruct (skip_ws rest1) as [|c r]; [discriminate|].
    destruct (c =? chr "]")%N; [intros [= _ <-]; cbn in *; lia|].
    destruct (c =? chr ",")%N; [|discriminate].
    intros E2%IHa. pose proof (skip_ws_length r). cbn in *. lia.
  - intros s acc l rest. cbn [JSONObject].
    destruct s as [|q s1]; [discriminate|].
    destruct (q =? QUOTE)%N; [|discriminate].
    destruct (scanstring s1) as [[key r1]|] eqn:Ek; [|discriminate].
    apply scanstring_length in Ek. pose proof (skip_ws_length r1) as Hw1.
    destruct (skip_ws r1) as [|colon r2]; [discriminate|].
    destruct (colon =? chr ":")%N; [|discriminate].
    pose proof (skip_ws_length r2) as Hw2.
    destruct (scan_once fuel (skip_ws r2)) as [value rest1| |] eqn:E; try discriminate.
    apply IHv in E. pose proof (skip_ws_length rest1) as Hw.
    destruct (skip_ws rest1) as [|c r]; [discriminate|].
    destruct (c =? chr "}")%N; [intros [= _ <-]; cbn in *; lia|].
    destruct (c =? chr ",")%N; [|discriminate].
    intros E2%IHo. pose proof (skip_ws_length r). cbn in *. lia.
Qed.

Lemma scan_fuel fuel :
  (forall s, 2 * length s < fuel -> scan_once fuel s <> PFuel) /\
  (forall s acc, 2 * length s + 1 < fuel -> JSONArray fuel s acc <> PFuel) /\
  (forall s acc, 2 * length s + 1 < fuel -> JSONObject fuel s acc <> PFuel).
Proof.
  induction fuel as [|fuel (IHv & IHa & IHo)]; [repeat split; intros; lia|].
  destruct (scan_progress fuel) as (Pv & _ & _).
  split; [|split].
  - intros s Hf. cbn [scan_once]. destruct s as [|c r]; [discriminate|].
    cbn [length] in Hf.
    destruct (c =? QUOTE)%N; [destruct (scanstring r) as [[? ?]|]; discriminate|].
    destruct (c =? chr "{")%N.
    { pose proof (skip_ws_length r) as Hw.
      destruct (skip_ws r) as [|c1 r1]; [discriminate|].
      destruct (c1 =? chr "}")%N; [discriminate|].
      specialize (IHo (c1 :: r1) []).
      destruct (JSONObject fuel (c1 :: r1) []); try discriminate.
      exfalso. apply IHo; [lia|reflexivity]. }
    destruct (c =? chr "[")%N.
    { pose proof (skip_ws_length r) as Hw.
      destruct (skip_ws r) as [|c1 r1]; [discriminate|].
      destruct (c1 =? chr "]")%N; [discriminate|].
      specialize (IHa (c1 :: r1) []).
      destruct (JSONArray fuel (c1 :: r1) []); try discriminate.
      exfalso. apply IHa; [lia|reflexivity]. }
    destruct (strip_prefix (lit "null") (c :: r)); [discriminate|].
    destruct (strip_prefix (lit "true") (c :: r)); [discriminate|].
    destruct (strip_prefix (lit "false") (c :: r)); [discriminate|].
    destruct (scan_number (c :: r)) as [[? ?]|]; [discriminate|].
    destruct (scan_constant (c :: r)) as [[? ?]|]; discriminate.
  - intros s acc Hf. cbn [JSONArray].
    specialize (IHv s).
    destruct (scan_once fuel s) as [value rest1| |] eqn:E; try discriminate;
      [|exfalso; apply IHv; [lia|reflexivity]].
    apply Pv in E. pose proof (skip_ws_length rest1) as Hw.
    destruct (skip_ws rest1) as [|c r]; [discriminate|].
    destruct (c =? chr "]")%N; [discriminate|].
    destruct (c =? chr ",")%N; [|discriminate].
    apply IHa. pose proof (skip_ws_length r). cbn in *. lia.
  - intros s acc Hf. cbn [JSONObject].
    destruct s as [|q s1]; [discriminate|].
    destruct (q =? QUOTE)%N; [|discriminate].
    destruct (scanstring s1) as [[key r1]|] eqn:Ek; [|discriminate].
    apply scanstring_length in Ek. pose proof (skip_ws_length r1) as Hw1.
    destruct (skip_ws r1) as [|colon r2]; [discriminate|].
    destruct (colon =? chr ":")%N; [|discriminate].
    pose proof (skip_ws_length r2) as Hw2.
    specialize (IHv (skip_ws r2)).
    destruct (scan_once fuel (skip_ws r2)) as [value rest1| |] eqn:E; try discriminate;
      [|exfalso; apply IHv; [cbn in *; lia|reflexivity]].
    apply Pv in E. pose proof (skip_ws_length rest1) as Hw.
    destruct (skip_ws rest1) as [|c r]; [discriminate|].
    destruct (c =? chr "}")%N; [discriminate|].
    destruct (c =? chr ",")%N; [|discriminate].
    apply IHo. pose proof (skip_ws_length r). cbn in *. lia.
Qed.

(** [loads] gives the decoder fuel enough for any text: a [None] is a
    [JSONDecodeError], never an exhausted recursion. *)
Theorem loads_fuel s : scan_once (2 * length s + 1) (skip_ws s) <> PFuel.
Proof.
  apply (scan_fuel (2 * length s + 1)). pose proof (skip_ws_length s). lia.
Qed.

(** ** Slices *)

Lemma slice_bound_neg n k :
  (1 <= k)%Z -> slice_bound n (- k) = n - Z.to_nat k.
Proof.
  intros Hk. unfold slice_bound.
  destruct (Z.ltb_spec (- k) 0); lia.
Qed.

Lemma slice_from_neg {A} (l : list A) k :
  (1 <= k)%Z -> slice_from l (- k) = drop (length l - Z.to_nat k) l.
Proof. intros Hk. unfold slice_from. rewrite slice_bound_neg by assumption. reflexivity. Qed.

Lemma slice_to_neg {A} (l : list A) k :
  (1 <= k)%Z -> slice_to l (- k) = take (length l - Z.to_nat k) l.
Proof. intros Hk. unfold slice_to. rewrite slice_bound_neg by assumption. reflexivity. Qed.

Lemma slice_to_from {A} (l : list A) i : slice_to l i ++ slice_from l i = l.
Proof. apply take_drop. Qed.

Lemma length_slice_from_neg {A} (l : list A) k :
  (1 <= k)%Z ->
  Z.of_nat (length (slice_from l (- k))) = Z.min k (Z.of_nat (length l)).
Proof.
  intros Hk. rewrite slice_from_neg by assumption. rewrite length_drop. lia.
Qed.

(** The last [k] items of a list that ends with them are these items. *)
Lemma slice_from_app_neg {A} (l1 l2 : list A) k :
  (1 <= k)%Z -> Z.of_nat (length l2) = k -> slice_from (l1 ++ l2) (- k) = l2.
Proof.
  intros Hk Hl. rewrite slice_from_neg by assumption.
  rewrite length_app. replace (length l1 + length l2 - Z.to_nat k) with (length l1) by lia.
  apply drop_app_length.
Qed.

(** ** Frame properties: what each step leaves alone *)

Lemma generate_text_world prompt model w :
  let w' := snd (generate_text prompt model w) in
  files w' = files w /\ stdout w' = stdout w /\ net w' = tail (net w) /\
  sent w' = sent w ++ [{| payload_model := model; payload_prompt := prompt;
                          payload_stream := false |}].
Proof.
  unfold generate_text, requests_post. destruct (net w); cbn; auto.
Qed.

Lemma json_load_world path w : snd (json_load path w) = w.
Proof.
  unfold json_load, bind, read_text, ret, raise.
  destruct (files w !! path) as [[|[t|]]|]; try reflexivity.
  destruct (loads t); reflexivity.
Qed.

Lemma load_memory_world session w :
  let w' := snd (load_memory session w) in
  files w' = files w /\ net w' = net w /\ sent w' = sent w.
Proof.
  unfold load_memory. destruct (path_exists _ w); [|auto].
  pose proof (json_load_world (MEMORY_FILE session) w) as E.
  destruct (json_load (MEMORY_FILE session) w) as [[v|e] w']; cbn in E; subst w'.
  - destruct v; cbn; auto.
  - destruct e; cbn; auto.
Qed.

Section Program.
Context `{PyBuiltins}.

Lemma summarize_files memory model max_history summary_threshold w r w' :
  summarize memory model max_history summary_threshold w = (r, w') ->
  files w' = files w.
Proof.
  unfold summarize. destruct (_ >? _)%Z.
  - unfold bind, lift, total, ret.
    destruct (render_messages _); [|intros [= <- <-]; reflexivity].
    pose proof (generate_text_world
      (summary_prompt (join NEWLINE a)) model w) as (E & _).
    destruct (generate_text _ model w) as [s w1]. cbn in E.
    intros [= <- <-]. exact E.
  - intros [= <- <-]. reflexivity.
Qed.

Lemma generate_reply_files user_input session model max_history summary_threshold
    agent_prompt w r w' :
  generate_reply user_input session model max_history summary_threshold agent_prompt w
    = (r, w') ->
  files w' = files w.
Proof.
  unfold generate_reply, bind at 1, total at 1.
  pose proof (load_memory_world session w) as (E0 & _).
  destruct (load_memory session w) as [loaded w0]. cbn in E0.
  unfold bind at 1.
  destruct (summarize _ model max_history summary_threshold w0) as [[memory|e] w1] eqn:Es;
    apply summarize_files in Es; [|intros [= <- <-]; congruence].
  unfold bind, lift, total, ret.
  destruct (render_messages _) as [lines|e]; [|intros [= <- <-]; congruence].
  match goal with |- context [generate_text ?p model w1] =>
    pose proof (generate_text_world p model w1) as (E2 & _);
    destruct (generate_text p model w1) as [reply w2] end.
  cbn in E2. intros [= <- <-]. congruence.
Qed.

End Program.

(** ** Writing a file chunk by chunk *)

Lemma encodable_prefix_all chunks :
  first_unencodable chunks = None -> encodable_prefix chunks = chunks.
Proof.
  induction chunks as [|c chunks IH]; [reflexivity|]. cbn.
  destruct (encodable c); [|discriminate]. intros E. rewrite IH by exact E. reflexivity.
Qed.

Lemma encodable_prefix_split chunks bad :
  first_unencodable chunks = Some bad ->
  exists post, chunks = encodable_prefix chunks ++ bad :: post.
Proof.
  induction chunks as [|c chunks IH]; [discriminate|]. cbn.
  destruct (encodable c).
  - intros E. destruct (IH E) as [post Hp]. exists post. cbn. rewrite <- Hp. reflexivity.
  - intros [= ->]. exists chunks. reflexivity.
Qed.

Lemma write_chunks_spec path chunks : forall w t,
  files w !! path = Some (File (Some t)) ->
  exists w',
    write_chunks path chunks w =
      (match first_unencodable chunks with
       | None => Returned tt
       | Some bad => Raised (UnicodeEncodeError bad)
       end, w') /\
    files w' = <[path := File (Some (t ++ concat (encodable_prefix chunks)))]> (files w) /\
    net w' = net w /\ sent w' = sent w /\ stdout w' = stdout w.
Proof.
  induction chunks as [|c chunks IH]; intros w t Hw.
  - exists w. cbn. rewrite app_nil_r, insert_id by exact Hw. auto.
  - cbn [write_chunks first_unencodable encodable_prefix]. unfold bind, fp_write.
    destruct (encodable c).
    + rewrite Hw.
      destruct (IH (set_files (<[path := File (Some (t ++ c))]> (files w)) w) (t ++ c))
        as (w' & E & Hf & Hn & Hs & Ho).
      { cbn. apply lookup_insert_eq. }
      exists w'. rewrite E. cbn in Hf, Hn, Hs, Ho.
      rewrite Hf, insert_insert_eq. cbn [concat]. rewrite <- app_assoc. auto.
    + exists w. cbn. rewrite app_nil_r, insert_id by exact Hw. auto.
Qed.

Section Saving.
Context `{PyBuiltins}.

(** What [write_memory] does, case by case. *)
Lemma write_memory_spec path memory w :
  let chunks := iterencode 0 (VList memory) in
  match files w !! path with
  | Some Directory => write_memory path memory w = (Raised (IsADirectoryError path), w)
  | _ =>
      exists w',
        write_memory path memory w =
          (match first_unencodable chunks with
           | None => Returned tt
           | Some bad => Raised (UnicodeEncodeError bad)
           end, w') /\
        files w' = <[path := File (Some (concat (encodable_prefix chunks)))]> (files w) /\
        net w' = net w /\ sent w' = sent w /\ stdout w' = stdout w
  end.
Proof.
  intros chunks. unfold write_memory, bind, open_w, json_dump.
  destruct (files w !! path) as [[|c]|] eqn:E; [reflexivity| |];
    (destruct (write_chunks_spec path chunks
                 (set_files (<[path := File (Some [])]> (files w)) w) [])
       as (w' & Ew & Hf & Hn & Hs & Ho); [apply lookup_insert_eq|];
     exists w'; split; [exact Ew|]; cbn in Hf, Hn, Hs, Ho;
     rewrite Hf, insert_insert_eq; auto).
Qed.

Lemma write_memory_ok path memory w w' :
  write_memory path memory w = (Returned tt, w') ->
  files w' = <[path := File (Some (dumps (VList memory)))]> (files w) /\
  net w' = net w /\ sent w' = sent w /\ stdout w' = stdout w.
Proof.
  intros E. pose proof (write_memory_spec path memory w) as S. cbv zeta in S.
  destruct (files w !! path) as [[|c]|];
    try (rewrite E in S; discriminate S);
    destruct S as (w1 & E1 & Hf & Hrest); rewrite E in E1;
    (destruct (first_unencodable (iterencode 0 (VList memory))) eqn:Eu;
       [discriminate E1|]);
    injection E1 as <-; rewrite (encodable_prefix_all _ Eu) in Hf; auto.
Qed.

Lemma plain_messages (T : list Message) : plain (VList (map message_value T)) = true.
Proof.
  cbn [plain]. induction T as [|m T IH]; [reflexivity|].
  cbn [map forallb]. rewrite IH. reflexivity.
Qed.

(** A record [json.dump] wrote completely is read back as it was. *)
Lemma load_written session memory w :
  plain (VList memory) = true ->
  files w !! MEMORY_FILE session = Some (File (Some (dumps (VList memory)))) ->
  load_memory session w = (memory, w).
Proof.
  intros Hp Hf. unfold load_memory, path_exists, json_load, bind, read_text.
  rewrite Hf, (loads_dumps _ Hp). reflexivity.
Qed.

(** C5.  After a successful save of a transcript of messages for a
    session, loading the session returns exactly that transcript, in
    order and with its content, ASCII or not. *)
Theorem load_after_save (T : list Message) (session : pystr) (w w' : World) :
  write_memory (MEMORY_FILE session) (map message_value T) w = (Returned tt, w') ->
  load_memory session w' = (map message_value T, w').
Proof.
  intros E. apply write_memory_ok in E as (Hf & _).
  apply load_written; [apply plain_messages|].
  rewrite Hf. apply lookup_insert_eq.
Qed.

(** C4, as the code has it.  A failed save never touches the record of
    another session.  If it fails when the record is opened, nothing has
    changed; if it fails later, while the transcript is written, the
    record has been truncated and holds the part of the new encoding
    written before the chunk that could not be encoded. *)
Theorem failed_save_leaves (path : pystr) (memory : list pyval) (w w' : World) (e : exn) :
  write_memory path memory w = (Raised e, w') ->
  (forall p, p <> path -> files w' !! p = files w !! p) /\
  ((e = IsADirectoryError path /\ w' = w) \/
   (exists written bad rest,
      e = UnicodeEncodeError bad /\ encodable bad = false /\
      dumps (VList memory) = written ++ bad ++ rest /\
      files w' !! path = Some (File (Some written)))).
Proof.
  intros E. pose proof (write_memory_spec path memory w) as S. cbv zeta in S.
  assert (Hbad : forall chunks bad, first_unencodable chunks = Some bad -> encodable bad = false).
  { induction chunks as [|c chunks IH]; [discriminate|]. cbn.
    destruct (encodable c) eqn:Ec; [exact (IH)|]. intros bad [= <-]. exact Ec. }
  destruct (files w !! path) as [[|c]|] eqn:Ef.
  - rewrite E in S. injection S as -> ->. split; [reflexivity|]. left. auto.
  - destruct S as (w1 & E1 & Hf & _). rewrite E in E1.
    destruct (first_unencodable (iterencode 0 (VList memory))) as [bad|] eqn:Eu;
      [|discriminate E1].
    injection E1 as -> <-. split.
    + intros p Hp. rewrite Hf. apply lookup_insert_ne. congruence.
    + right. destruct (encodable_prefix_split _ _ Eu) as [post Hpost].
      exists (concat (encodable_prefix (iterencode 0 (VList memory)))), bad, (concat post).
      repeat split; [eapply Hbad; exact Eu| |rewrite Hf; apply lookup_insert_eq].
      unfold dumps. rewrite Hpost at 1. rewrite concat_app. reflexivity.
  - destruct S as (w1 & E1 & Hf & _). rewrite E in E1.
    destruct (first_unencodable (iterencode 0 (VList memory))) as [bad|] eqn:Eu;
      [|discriminate E1].
    injection E1 as -> <-. split.
    + intros p Hp. rewrite Hf. apply lookup_insert_ne. congruence.
    + right. destruct (encodable_prefix_split _ _ Eu) as [post Hpost].
      exists (concat (encodable_prefix (iterencode 0 (VList memory)))), bad, (concat post).
      repeat split; [eapply Hbad; exact Eu| |rewrite Hf; apply lookup_insert_eq].
      unfold dumps. rewrite Hpost at 1. rewrite concat_app. reflexivity.
Qed.

End Saving.

(** ** Summarisation and the context window *)

Section Policy.
Context `{PyBuiltins}.

(** A message of the data model always renders. *)
Lemma render_message_value (m : Message) :
  render_message (message_value m) =
  Returned (str_capitalize (role m) ++ lit ": " ++ content m).
Proof. reflexivity. Qed.

Lemma render_messages_values (T : list Message) :
  render_messages (map message_value T) =
  Returned (map (fun m => str_capitalize (role m) ++ lit ": " ++ content m) T).
Proof.
  induction T as [|m T IH]; [reflexivity|].
  cbn [map render_messages]. rewrite render_message_value, IH. reflexivity.
Qed.

Lemma slice_to_map {A B} (f : A -> B) (l : list A) i :
  slice_to (map f l) i = map f (slice_to l i).
Proof. unfold slice_to. rewrite length_map. apply firstn_map. Qed.

(** What [summarize] does when the threshold is passed and the older
    messages render. *)
Lemma summarize_fires memory model max_history summary_threshold w lines :
  (Z.of_nat (length memory) > summary_threshold)%Z ->
  render_messages (slice_to memory (- max_history)) = Returned lines ->
  let prompt := summary_prompt (join NEWLINE lines) in
  summarize memory model max_history summary_threshold w =
  (Returned (message (lit "system") (fst (generate_text prompt model w))
             :: slice_from memory (- max_history)),
   snd (generate_text prompt model w)).
Proof.
  intros Hn Hr prompt. unfold summarize.
  destruct (Z.gtb_spec (Z.of_nat (length memory)) summary_threshold) as [_|]; [|lia].
  unfold bind, lift, total, ret. rewrite Hr. fold prompt.
  destruct (generate_text prompt model w); reflexivity.
Qed.

Lemma summarize_idle memory model max_history summary_threshold w :
  (Z.of_nat (length memory) <= summary_threshold)%Z ->
  summarize memory model max_history summary_threshold w = (Returned memory, w).
Proof.
  intros Hn. unfold summarize.
  destruct (Z.gtb_spec (Z.of_nat (length memory)) summary_threshold); [lia|reflexivity].
Qed.

(** C1.  For every transcript of messages and every configuration with
    [max_history >= 1], the summarisation step fires exactly when the
    length [N] of the transcript, the new user message included, is
    greater than [summary_threshold]: at or below the threshold nothing
    is sent and the transcript is returned as it is; above it one request
    is sent and the transcript becomes one system message carrying the
    summary followed by the last [max_history] messages, of length
    [1 + min(max_history, N)]. *)
Theorem summarize_trigger (T : list Message) (model : pystr)
    (max_history summary_threshold : Z) (w : World) :
  (1 <= max_history)%Z ->
  let memory := map message_value T in
  let N := Z.of_nat (length memory) in
  ((N <= summary_threshold)%Z ->
     summarize memory model max_history summary_threshold w = (Returned memory, w)) /\
  ((N > summary_threshold)%Z ->
     exists summary w' memory',
       summarize memory model max_history summary_threshold w = (Returned memory', w') /\
       length (sent w') = S (length (sent w)) /\
       memory' = message (lit "system") summary
                 :: drop (length memory - Z.to_nat max_history) memory /\
       Z.of_nat (length memory') = (1 + Z.min max_history N)%Z).
Proof.
  intros Hmh memory N. split; [apply summarize_idle|]. intros HN.
  pose proof (render_messages_values (slice_to T (- max_history))) as Hr.
  rewrite <- slice_to_map in Hr. fold memory in Hr.
  pose proof (summarize_fires memory model max_history summary_threshold w _ HN Hr) as E.
  cbv zeta in E.
  match type of E with context [generate_text ?p model w] =>
    pose proof (generate_text_world p model w) as (_ & _ & _ & Hs);
    destruct (generate_text p model w) as [summary w'] end.
  cbn [fst snd] in *. exists summary, w', (message (lit "system") summary
                 :: drop (length memory - Z.to_nat max_history) memory).
  rewrite <- slice_from_neg by assumption. split; [exact E|].
  split; [rewrite Hs, length_app; cbn; lia|]. split; [reflexivity|].
  cbn [length]. rewrite Nat2Z.inj_succ, length_slice_from_neg by assumption.
  fold N. lia.
Qed.

(** C8.  When summarisation triggers with
    [summary_threshold >= max_history >= 1], the collapsed transcript is
    the summary message followed by exactly [max_history] recent
    messages, its last [max_history] entries are these recent messages,
    and so the context of the same turn is the recent messages (after
    the directive, if one is configured) without the summary. *)
Theorem summary_outside_context (memory : list pyval) (model : pystr)
    (max_history summary_threshold : Z) (agent_prompt : pystr)
    (w w' : World) (memory' : list pyval) :
  (1 <= max_history)%Z -> (max_history <= summary_threshold)%Z ->
  (Z.of_nat (length memory) > summary_threshold)%Z ->
  summarize memory model max_history summary_threshold w = (Returned memory', w') ->
  let recent := slice_from memory (- max_history) in
  (exists summary, memory' = message (lit "system") summary :: recent) /\
  Z.of_nat (length memory') = (max_history + 1)%Z /\
  Z.of_nat (length recent) = max_history /\
  slice_from memory' (- max_history) = recent /\
  context_messages memory' max_history [] = recent /\
  (agent_prompt <> [] ->
   context_messages memory' max_history agent_prompt =
   message (lit "system") (VStr agent_prompt) :: recent).
Proof.
  intros H1 H2 HN E recent.
  assert (Hrecent : Z.of_nat (length recent) = max_history).
  { unfold recent. rewrite length_slice_from_neg by assumption. lia. }
  assert (Hm : exists summary, memory' = message (lit "system") summary :: recent).
  { destruct (render_messages (slice_to memory (- max_history))) as [lines|e] eqn:Hr.
    - rewrite (summarize_fires _ _ _ _ _ _ HN Hr) in E. injection E as <- _. eauto.
    - unfold summarize in E.
      destruct (Z.gtb_spec (Z.of_nat (length memory)) summary_threshold); [|lia].
      unfold bind, lift in E. rewrite Hr in E. discriminate E. }
  destruct Hm as [summary ->].
  assert (Hs : slice_from (message (lit "system") summary :: recent) (- max_history) = recent).
  { apply (slice_from_app_neg [message (lit "system") summary] recent); assumption. }
  split; [eauto|]. split; [cbn [length]; lia|]. split; [assumption|].
  split; [exact Hs|]. unfold context_messages. rewrite Hs. split; [reflexivity|].
  intros Ha. destruct agent_prompt; [contradiction|reflexivity].
Qed.

(** The context is the directive, if any, followed by the window of the
    last [max_history] messages. *)
Lemma context_messages_shape (memory : list pyval) (max_history : Z) (agent_prompt : pystr) :
  (1 <= max_history)%Z ->
  let recent := drop (length memory - Z.to_nat max_history) memory in
  let directive :=
    match agent_prompt with
    | [] => []
    | _ :: _ => [message (lit "system") (VStr agent_prompt)]
    end in
  context_messages memory max_history agent_prompt = directive ++ recent /\
  Z.of_nat (length (context_messages memory max_history agent_prompt)) =
    (Z.min max_history (Z.of_nat (length memory))
     + match agent_prompt with [] => 0 | _ :: _ => 1 end)%Z.
Proof.
  intros Hmh recent directive. unfold context_messages.
  pose proof (length_slice_from_neg memory max_history Hmh) as Hl.
  rewrite slice_from_neg in * by assumption. fold recent in Hl |- *.
  destruct agent_prompt; cbn [app length]; split; try reflexivity; lia.
Qed.

End Policy.

(** ** [generate_text] *)

Lemma startswith_app prefix s : startswith (prefix ++ s) prefix = true.
Proof.
  induction prefix as [|p prefix IH]; [destruct s; reflexivity|].
  cbn. rewrite N.eqb_refl. exact IH.
Qed.

(** The reply depends on what the endpoint answers, not on the prompt. *)
Lemma generate_text_reply prompt model w :
  fst (generate_text prompt model w) =
  match next_result w with
  | PostRaised (LibRequestException m) => VStr (lit "Request Error: " ++ m)
  | PostRaised (LibException m) => VStr (lit "Unexpected Error: " ++ m)
  | PostReturned r =>
      match status_error r with
      | Some m => VStr (lit "HTTP Error: " ++ m ++ lit ", " ++ text r)
      | None =>
          match json_body r with
          | inl (LibRequestException m) => VStr (lit "Request Error: " ++ m)
          | inl (LibException m) => VStr (lit "Unexpected Error: " ++ m)
          | inr (VDict d) =>
              match dict_get d (lit "response") with
              | Some v => v
              | None => VStr []
              end
          | inr data =>
              VStr (lit "Unexpected Error: " ++ attribute_error_str data (lit "get"))
          end
      end
  end.
Proof.
  unfold generate_text, requests_post, next_result.
  destruct (net w) as [|[e|r] rest]; cbn [fst]; try reflexivity.
  destruct (status_error r); [reflexivity|].
  destruct (json_body r) as [[]|[]]; try reflexivity.
  unfold data_get_response. destruct (dict_get d (lit "response")); reflexivity.
Qed.

(** C6, as the code has it.  [generate_text] posts the model, the prompt
    and [stream = false], touches no file, and returns the [response]
    field of a successful reply (the empty string when the field is
    absent).  Every failure comes back as a string: one starting with
    "HTTP Error:" when [raise_for_status] refuses the status, with
    "Request Error:" for every other [RequestException] of the client
    library, be it raised by the transport or by [r.json()] on a body
    that is not JSON, and with "Unexpected Error:" for anything else,
    a body that is JSON but no object included. *)
Theorem generate_text_classified (prompt model : pystr) (w : World) :
  classified lib_error_prefix (next_result w) (fst (generate_text prompt model w)) /\
  sent (snd (generate_text prompt model w)) =
    sent w ++ [{| payload_model := model; payload_prompt := prompt;
                  payload_stream := false |}] /\
  files (snd (generate_text prompt model w)) = files w.
Proof.
  pose proof (generate_text_world prompt model w) as (Hf & _ & _ & Hs).
  split; [|split; assumption].
  rewrite generate_text_reply.
  destruct (next_result w) as [[m|m]|r].
  - apply classified_transport. apply (startswith_app (lit "Request Error:")).
  - apply classified_other. apply (startswith_app (lit "Unexpected Error:")).
  - destruct (status_error r) as [m|] eqn:Es.
    + eapply classified_status; [exact Es|]. apply (startswith_app (lit "HTTP Error:")).
    + destruct (json_body r) as [e|data] eqn:Ej.
      * destruct e; (eapply classified_undecodable; [exact Es|exact Ej|]).
        -- apply (startswith_app (lit "Request Error:")).
        -- apply (startswith_app (lit "Unexpected Error:")).
      * destruct data;
          try (eapply classified_not_object;
               [exact Es|exact Ej|discriminate|
                apply (startswith_app (lit "Unexpected Error:"))]).
        apply classified_success; assumption.
Qed.

Section Turn.
Context `{PyBuiltins}.

Lemma reply_failed_str (r : pystr) :
  r = [] \/ startswith_any r ERROR_PREFIXES = true ->
  reply_failed (VStr r) = Returned true.
Proof.
  unfold reply_failed. destruct r as [|c r]; [reflexivity|].
  intros [?|E]; [discriminate|]. cbn [truthy negb]. rewrite E. reflexivity.
Qed.

(** The turn, from the generation of the reply on. *)
Lemma chat_with_memory_after user_input session model max_history summary_threshold
    agent_prompt w r w1 :
  generate_reply user_input session model max_history summary_threshold agent_prompt w
    = (r, w1) ->
  chat_with_memory user_input session model max_history summary_threshold agent_prompt w =
  match r with
  | Raised e => (Raised e, w1)
  | Returned (memory, reply) =>
      match reply_failed reply with
      | Raised e => (Raised e, w1)
      | Returned true => (Returned reply, w1)
      | Returned false =>
          match write_memory (MEMORY_FILE session)
                  (memory ++ [message (lit "assistant") reply]) w1 with
          | (Returned _, w2) => (Returned reply, w2)
          | (Raised e, w2) => (Returned reply, print (ErrorSavingMemory e) w2)
          end
      end
  end.
Proof.
  intros E. unfold chat_with_memory, bind at 1. rewrite E.
  destruct r as [[memory reply]|e]; [|reflexivity].
  unfold bind at 1, lift.
  destruct (reply_failed reply) as [[|]|e]; try reflexivity.
  unfold bind, save_memory, ret.
  destruct (write_memory _ _ w1) as [[[]|e] w2]; reflexivity.
Qed.

(** C2.  If the reply of the final generation is the empty string or
    starts with "HTTP Error:", "Request Error:" or "Unexpected Error:",
    the turn returns that reply unchanged and leaves every file as it
    was before the turn: no assistant message is appended and nothing is
    persisted. *)
Theorem failed_reply_not_persisted (user_input session model : pystr)
    (max_history summary_threshold : Z) (agent_prompt : pystr)
    (w w1 : World) (memory : list pyval) (reply : pystr) :
  generate_reply user_input session model max_history summary_threshold agent_prompt w
    = (Returned (memory, VStr reply), w1) ->
  reply = [] \/ startswith_any reply ERROR_PREFIXES = true ->
  chat_with_memory user_input session model max_history summary_threshold agent_prompt w
    = (Returned (VStr reply), w1) /\
  files w1 = files w.
Proof.
  intros E Hr. split; [|eapply generate_reply_files; exact E].
  rewrite (chat_with_memory_after _ _ _ _ _ _ _ _ _ E), (reply_failed_str _ Hr).
  reflexivity.
Qed.

(** C7.  When the reply is a success and saving the transcript raises,
    the turn does not raise: it prints "Error saving memory" with the
    exception and still returns the reply. *)
Theorem failed_save_is_logged (user_input session model : pystr)
    (max_history summary_threshold : Z) (agent_prompt : pystr)
    (w w1 w2 : World) (memory : list pyval) (reply : pyval) (e : exn) :
  generate_reply user_input session model max_history summary_threshold agent_prompt w
    = (Returned (memory, reply), w1) ->
  reply_failed reply = Returned false ->
  write_memory (MEMORY_FILE session) (memory ++ [message (lit "assistant") reply]) w1
    = (Raised e, w2) ->
  chat_with_memory user_input session model max_history summary_threshold agent_prompt w
    = (Returned reply, print (ErrorSavingMemory e) w2).
Proof.
  intros E Hr Hw.
  rewrite (chat_with_memory_after _ _ _ _ _ _ _ _ _ E), Hr, Hw. reflexivity.
Qed.

(** The steps of [generate_reply], one after the other. *)
Lemma generate_reply_steps user_input session model max_history summary_threshold
    agent_prompt w :
  generate_reply user_input session model max_history summary_threshold agent_prompt w =
  match summarize (fst (load_memory session w) ++ [message (lit "user") (VStr user_input)])
          model max_history summary_threshold (snd (load_memory session w)) with
  | (Raised e, w1) => (Raised e, w1)
  | (Returned memory, w1) =>
      match render_messages (context_messages memory max_history agent_prompt) with
      | Raised e => (Raised e, w1)
      | Returned lines =>
          let context := join NEWLINE lines ++ NEWLINE ++ lit "Assistant:" in
          (Returned (memory, fst (generate_text context model w1)),
           snd (generate_text context model w1))
      end
  end.
Proof.
  unfold generate_reply, bind at 1, total at 1.
  destruct (load_memory session w) as [loaded w0]. cbn [fst snd].
  unfold bind at 1.
  destruct (summarize _ model max_history summary_threshold w0) as [[memory|e] w1];
    [|reflexivity].
  unfold bind, lift, total, ret.
  destruct (render_messages _) as [lines|e]; [|reflexivity].
  destruct (generate_text _ model w1); reflexivity.
Qed.

(** C9.  A failed generation during summarisation is not detected.  If
    summarisation triggers and its request comes back as the empty string
    or an error string [err], then [err] becomes the content of the
    system message that replaces the older messages; and if the final
    reply succeeds and the save succeeds, the record on disk is that
    system message, the recent messages and the assistant's reply. *)
Theorem failed_summary_is_persisted (user_input session model : pystr)
    (max_history summary_threshold : Z) (agent_prompt : pystr)
    (w w1 w2 w3 : World) (lines : list pystr) (err : pystr)
    (memory : list pyval) (reply : pyval) :
  let transcript :=
    fst (load_memory session w) ++ [message (lit "user") (VStr user_input)] in
  let recent := slice_from transcript (- max_history) in
  (Z.of_nat (length transcript) > summary_threshold)%Z ->
  render_messages (slice_to transcript (- max_history)) = Returned lines ->
  generate_text (summary_prompt (join NEWLINE lines)) model (snd (load_memory session w))
    = (VStr err, w1) ->
  reply_failed (VStr err) = Returned true ->
  generate_reply user_input session model max_history summary_threshold agent_prompt w
    = (Returned (memory, reply), w2) ->
  reply_failed reply = Returned false ->
  write_memory (MEMORY_FILE session) (memory ++ [message (lit "assistant") reply]) w2
    = (Returned tt, w3) ->
  memory = message (lit "system") (VStr err) :: recent /\
  chat_with_memory user_input session model max_history summary_threshold agent_prompt w
    = (Returned reply, w3) /\
  file_text (MEMORY_FILE session) w3 =
    Some (dumps (VList (message (lit "system") (VStr err) :: recent
                        ++ [message (lit "assistant") reply]))).
Proof.
  intros transcript recent HN Hr Hg Herr E Hok Hw.
  assert (Hm : memory = message (lit "system") (VStr err) :: recent).
  { pose proof (generate_reply_steps user_input session model max_history
                  summary_threshold agent_prompt w) as S.
    fold transcript in S.
    rewrite (summarize_fires _ _ _ _ _ _ HN Hr) in S. cbv zeta in S.
    rewrite Hg in S. cbn [fst snd] in S. rewrite E in S.
    destruct (render_messages (context_messages _ _ _)); [|discriminate S].
    cbv zeta in S. injection S as -> _ _. reflexivity. }
  split; [exact Hm|]. split.
  - rewrite (chat_with_memory_after _ _ _ _ _ _ _ _ _ E), Hok, Hw. reflexivity.
  - apply write_memory_ok in Hw as (Hf & _). unfold file_text.
    rewrite Hf, lookup_insert_eq, Hm. reflexivity.
Qed.

End Turn.

(** ** The agent directive is not persisted *)

Lemma same_store_refl w : same_store w w.
Proof. repeat split. Qed.

Lemma same_store_print line w w' :
  same_store w w' -> same_store (print line w) (print line w').
Proof. intros (Hf & Hn & Ho). repeat split; cbn; congruence. Qed.

Lemma generate_text_same_store prompt prompt' model w :
  fst (generate_text prompt model w) = fst (generate_text prompt' model w) /\
  same_store (snd (generate_text prompt model w)) (snd (generate_text prompt' model w)).
Proof.
  split; [rewrite !generate_text_reply; reflexivity|].
  pose proof (generate_text_world prompt model w) as (Hf & Ho & Hn & _).
  pose proof (generate_text_world prompt' model w) as (Hf' & Ho' & Hn' & _).
  repeat split; congruence.
Qed.

Section Directive.
Context `{PyBuiltins}.

Lemma write_memory_same_store path memory w w' :
  same_store w w' ->
  fst (write_memory path memory w) = fst (write_memory path memory w') /\
  same_store (snd (write_memory path memory w)) (snd (write_memory path memory w')).
Proof.
  intros (Hf & Hn & Ho).
  pose proof (write_memory_spec path memory w) as S.
  pose proof (write_memory_spec path memory w') as S'.
  cbv zeta in S, S'. rewrite <- Hf in S'.
  destruct (files w !! path) as [[|c]|].
  - rewrite S, S'. split; [reflexivity|]. repeat split; assumption.
  - destruct S as (w1 & -> & Hf1 & Hn1 & _ & Ho1).
    destruct S' as (w1' & -> & Hf1' & Hn1' & _ & Ho1').
    split; [reflexivity|]. repeat split; cbn; congruence.
  - destruct S as (w1 & -> & Hf1 & Hn1 & _ & Ho1).
    destruct S' as (w1' & -> & Hf1' & Hn1' & _ & Ho1').
    split; [reflexivity|]. repeat split; cbn; congruence.
Qed.

(** The directive always renders, so it changes neither whether the
    context renders nor the lines of the other messages. *)
Lemma render_context_directive memory max_history agent_prompt :
  render_messages (context_messages memory max_history agent_prompt) =
  match render_messages (context_messages memory max_history []) with
  | Raised e => Raised e
  | Returned lines =>
      Returned match agent_prompt with
               | [] => lines
               | _ :: _ =>
                   (str_capitalize (lit "system") ++ lit ": " ++ agent_prompt) :: lines
               end
  end.
Proof.
  unfold context_messages. destruct agent_prompt as [|c p].
  - destruct (render_messages _); reflexivity.
  - cbn [app render_messages].
    change (render_message (message (lit "system") (VStr (c :: p))))
      with (Returned (str_capitalize (lit "system") ++ lit ": " ++ c :: p)).
    destruct (render_messages _); reflexivity.
Qed.

Lemma generate_reply_directive user_input session model max_history summary_threshold
    agent_prompt w :
  fst (generate_reply user_input session model max_history summary_threshold agent_prompt w)
  = fst (generate_reply user_input session model max_history summary_threshold [] w) /\
  same_store
    (snd (generate_reply user_input session model max_history summary_threshold agent_prompt w))
    (snd (generate_reply user_input session model max_history summary_threshold [] w)).
Proof.
  rewrite !generate_reply_steps.
  destruct (summarize _ model max_history summary_threshold _) as [[memory|e] w1];
    [|split; [reflexivity|apply same_store_refl]].
  rewrite (render_context_directive memory max_history agent_prompt).
  destruct (render_messages (context_messages memory max_history [])) as [lines|e];
    [|split; [reflexivity|apply same_store_refl]].
  cbv zeta. cbn [fst snd].
  match goal with |- context [generate_text ?p model w1] =>
    match goal with |- context [generate_text ?p' model w1] =>
      pose proof (generate_text_same_store p p' model w1) as (-> & Hs) end end.
  split; [reflexivity|exact Hs].
Qed.

Lemma chat_with_memory_directive user_input session model max_history summary_threshold
    agent_prompt w :
  fst (chat_with_memory user_input session model max_history summary_threshold agent_prompt w)
  = fst (chat_with_memory user_input session model max_history summary_threshold [] w) /\
  same_store
    (snd (chat_with_memory user_input session model max_history summary_threshold agent_prompt w))
    (snd (chat_with_memory user_input session model max_history summary_threshold [] w)).
Proof.
  pose proof (generate_reply_directive user_input session model max_history
                summary_threshold agent_prompt w) as (Hr & Hs).
  destruct (generate_reply user_input session model max_history summary_threshold
              agent_prompt w) as [r w1] eqn:E.
  destruct (generate_reply user_input session model max_history summary_threshold
              [] w) as [r0 w0] eqn:E0.
  cbn [fst snd] in Hr, Hs. subst r0.
  rewrite (chat_with_memory_after _ _ _ _ _ _ _ _ _ E),
          (chat_with_memory_after _ _ _ _ _ _ _ _ _ E0).
  destruct r as [[memory reply]|e]; [|split; [reflexivity|exact Hs]].
  destruct (reply_failed reply) as [[|]|e]; try (split; [reflexivity|exact Hs]).
  pose proof (write_memory_same_store (MEMORY_FILE session)
                (memory ++ [message (lit "assistant") reply]) w1 w0 Hs) as (Ho & Hs').
  destruct (write_memory _ _ w1) as [[[]|e] w2];
    destruct (write_memory _ _ w0) as [[[]|e0] w2']; cbn [fst snd] in Ho, Hs';
    try discriminate Ho; (split; [reflexivity|]); [exact Hs'|].
  injection Ho as <-. apply same_store_print, Hs'.
Qed.

(** C3.  With [max_history >= 1], the context sent to generation is the
    last [max_history] messages of the transcript, preceded by exactly
    one system message carrying [agent_prompt] when it is not empty and
    by nothing otherwise, so it has
    [min(max_history, available) + (1 if agent_prompt else 0)] messages.
    The directive is never persisted: for the same answers of the
    endpoint, a turn returns the same result and leaves the same files
    whether [agent_prompt] is set or empty. *)
Theorem context_is_window_and_directive (memory : list pyval) (max_history : Z)
    (agent_prompt : pystr) :
  (1 <= max_history)%Z ->
  let recent := drop (length memory - Z.to_nat max_history) memory in
  let directive :=
    match agent_prompt with
    | [] => []
    | _ :: _ => [message (lit "system") (VStr agent_prompt)]
    end in
  context_messages memory max_history agent_prompt = directive ++ recent /\
  Z.of_nat (length (context_messages memory max_history agent_prompt)) =
    (Z.min max_history (Z.of_nat (length memory))
     + match agent_prompt with [] => 0 | _ :: _ => 1 end)%Z /\
  (forall user_input session model summary_threshold w,
     let with_directive :=
       chat_with_memory user_input session model max_history summary_threshold
                        agent_prompt w in
     let without :=
       chat_with_memory user_input session model max_history summary_threshold [] w in
     fst with_directive = fst without /\
     files (snd with_directive) = files (snd without)).
Proof.
  intros Hm recent directive.
  destruct (context_messages_shape memory max_history agent_prompt Hm) as [Hs Hl].
  split; [exact Hs|]. split; [exact Hl|].
  intros user_input session model summary_threshold w.
  destruct (chat_with_memory_directive user_input session model max_history
              summary_threshold agent_prompt w) as (Hr & Hf & _).
  split; assumption.
Qed.

(** C10.  [load_memory] checks that the record is a list, not that its
    items are messages: the record [[1]] is loaded as it is, and the turn
    that follows raises [TypeError] when it subscripts the integer with
    ['role'] to render it. *)
Theorem load_accepts_any_list :
  exists record : pystr,
    loads record = Some (VList [VInt 1]) /\
    files world_list_of_int !! MEMORY_FILE session_t1 = Some (File (Some record)) /\
    load_memory session_t1 world_list_of_int = ([VInt 1], world_list_of_int) /\
    fst (chat_with_memory (lit "hello") session_t1 llama3 5 20 [] world_list_of_int)
      = Raised (TypeError (VInt 1)).
Proof.
  exists (lit "[1]"). repeat split; vm_compute; reflexivity.
Qed.

End Directive.

(** ** Worked examples *)

(** C1 at a transcript of three messages with [max_history = 2] and
    [summary_threshold = 2]. *)
Lemma summarize_trigger_witness :
  (1 <= 2)%Z /\
  exists summary w' memory',
    @summarize ascii_runtime (map message_value greeting) llama3 2 2
      (world ∅ [reply_ok (lit "a summary")]) = (Returned memory', w') /\
    memory' = message (lit "system") summary :: drop 1 (map message_value greeting) /\
    Z.of_nat (length memory') = 3%Z.
Proof.
  split; [lia|].
  destruct (@summarize_trigger ascii_runtime greeting llama3 2 2
              (world ∅ [reply_ok (lit "a summary")])) as [_ Hfire]; [lia|].
  destruct Hfire as (summary & w' & memory' & E & _ & Hm & Hl); [reflexivity|].
  exists summary, w', memory'. split; [exact E|]. split; [exact Hm|exact Hl].
Defined.

(** C2 at a turn whose generation request is answered by status 500. *)
Lemma failed_reply_not_persisted_witness :
  exists w1,
    @chat_with_memory ascii_runtime (lit "again") session_t1 llama3 5 20 []
      (world_with session_t1 greeting [reply_500])
    = (Returned (VStr (lit "HTTP Error: 500 Server Error, oops")), w1) /\
    files w1 = files (world_with session_t1 greeting [reply_500]).
Proof.
  eexists.
  eapply (@failed_reply_not_persisted ascii_runtime (lit "again") session_t1 llama3 5 20 []).
  - vm_compute. reflexivity.
  - right. vm_compute. reflexivity.
Defined.

(** C3 at a transcript of three messages, [max_history = 2] and a
    directive. *)
Lemma context_is_window_and_directive_witness :
  (1 <= 2)%Z /\
  context_messages (map message_value greeting) 2 (lit "Be brief.") =
    message (lit "system") (VStr (lit "Be brief.")) :: drop 1 (map message_value greeting) /\
  Z.of_nat (length (context_messages (map message_value greeting) 2 (lit "Be brief."))) = 3%Z.
Proof.
  split; [lia|].
  destruct (@context_is_window_and_directive ascii_runtime (map message_value greeting) 2
              (lit "Be brief.")) as (Hs & Hl & _); [lia|].
  split; [exact Hs|exact Hl].
Defined.

(** C4 fails as stated.  Saving a transcript whose last message holds a
    lone surrogate raises [UnicodeEncodeError] part of the way through,
    and the record that was on disk before is gone: the file holds the
    beginning of the new encoding instead. *)
Lemma save_is_not_all_or_nothing :
  let path := MEMORY_FILE session_t1 in
  let w := world_with session_t1 greeting [] in
  let transcript :=
    map message_value greeting ++ [message (lit "user") (VStr lone_surrogate)] in
  let saved := @write_memory ascii_runtime path transcript w in
  fst saved = Raised (UnicodeEncodeError (QUOTE :: lone_surrogate ++ [QUOTE])) /\
  file_text path w = Some (record_of greeting) /\
  file_text path (snd saved) <> file_text path w.
Proof.
  cbv zeta. split; [vm_compute; reflexivity|]. split; [vm_compute; reflexivity|].
  vm_compute. discriminate.
Qed.

(** The amended C4 at that failing save. *)
Lemma failed_save_leaves_witness :
  exists e w',
    @write_memory ascii_runtime (MEMORY_FILE session_t1)
      (map message_value greeting ++ [message (lit "user") (VStr lone_surrogate)])
      (world_with session_t1 greeting []) = (Raised e, w') /\
    exists written bad rest,
      e = UnicodeEncodeError bad /\
      @dumps ascii_runtime
        (VList (map message_value greeting ++ [message (lit "user") (VStr lone_surrogate)]))
        = written ++ bad ++ rest /\
      files w' !! MEMORY_FILE session_t1 = Some (File (Some written)).
Proof.
  eexists _, _. 
  assert (E : @write_memory ascii_runtime (MEMORY_FILE session_t1)
      (map message_value greeting ++ [message (lit "user") (VStr lone_surrogate)])
      (world_with session_t1 greeting [])
      = (Raised (UnicodeEncodeError (QUOTE :: lone_surrogate ++ [QUOTE])),
         snd (@write_memory ascii_runtime (MEMORY_FILE session_t1)
      (map message_value greeting ++ [message (lit "user") (VStr lone_surrogate)])
      (world_with session_t1 greeting [])))) by (vm_compute; reflexivity).
  split; [exact E|].
  destruct (@failed_save_leaves ascii_runtime _ _ _ _ _ E) as [_ [[He _]|Hw]];
    [discriminate He|].
  destruct Hw as (written & bad & rest & He & _ & Hd & Hf).
  exists written, bad, rest. auto.
Defined.

(** C5 at a transcript whose last message is not ASCII. *)
Lemma load_after_save_witness :
  exists w',
    @write_memory ascii_runtime (MEMORY_FILE session_t1) (map message_value greeting)
      (world ∅ []) = (Returned tt, w') /\
    load_memory session_t1 w' = (map message_value greeting, w').
Proof.
  eexists.
  assert (E : @write_memory ascii_runtime (MEMORY_FILE session_t1)
                (map message_value greeting) (world ∅ [])
              = (Returned tt,
                 snd (@write_memory ascii_runtime (MEMORY_FILE session_t1)
                        (map message_value greeting) (world ∅ []))))
    by (vm_compute; reflexivity).
  split; [exact E|]. exact (@load_after_save ascii_runtime greeting session_t1 _ _ E).
Defined.

(** C6 fails as stated.  A reply whose body is not JSON makes [r.json()]
    raise an exception that is a [RequestException], so the string
    returned starts with "Request Error:", not with "Unexpected Error:"
    as the classification of the specification requires. *)
Lemma undecodable_body_is_request_error :
  fst (generate_text (lit "User: hi") llama3 (world ∅ [reply_html])) =
    VStr (lit "Request Error: Expecting value: line 1 column 1 (char 0)") /\
  ~ classified (fun _ => lit "Unexpected Error:")
      (next_result (world ∅ [reply_html]))
      (fst (generate_text (lit "User: hi") llama3 (world ∅ [reply_html]))).
Proof.
  split; [reflexivity|].
  change (next_result (world ∅ [reply_html])) with reply_html.
  change (fst (generate_text (lit "User: hi") llama3 (world ∅ [reply_html])))
    with (VStr (lit "Request Error: Expecting value: line 1 column 1 (char 0)")).
  unfold reply_html. intros C. inversion C as [r d Hs Hj| r m s Hs| | |r e s Hs Hj Hp|r data s Hs Hj];
    subst; cbn in *; try discriminate.
Qed.

(** C7 at a turn whose user message cannot be encoded. *)
Lemma failed_save_is_logged_witness :
  exists e w2,
    @chat_with_memory ascii_runtime lone_surrogate session_t1 llama3 5 20 []
      (world_with session_t1 greeting [reply_ok (lit "ok")])
    = (Returned (VStr (lit "ok")), print (ErrorSavingMemory e) w2).
Proof.
  eexists _, _.
  eapply (@failed_save_is_logged ascii_runtime lone_surrogate session_t1 llama3 5 20 []).
  - vm_compute. reflexivity.
  - vm_compute. reflexivity.
  - vm_compute. reflexivity.
Defined.

(** C8 at a transcript of three messages with [max_history = 2] and
    [summary_threshold = 2]. *)
Lemma summary_outside_context_witness :
  let memory' :=
    message (lit "system") (VStr (lit "a summary"))
    :: drop 1 (map message_value greeting) in
  @summarize ascii_runtime (map message_value greeting) llama3 2 2
    (world ∅ [reply_ok (lit "a summary")])
  = (Returned memory',
     snd (@summarize ascii_runtime (map message_value greeting) llama3 2 2
            (world ∅ [reply_ok (lit "a summary")]))) /\
  Z.of_nat (length memory') = 3%Z /\
  context_messages memory' 2 [] = slice_from (map message_value greeting) (- 2).
Proof.
  intros memory'.
  assert (E : @summarize ascii_runtime (map message_value greeting) llama3 2 2
                (world ∅ [reply_ok (lit "a summary")])
              = (Returned memory',
                 snd (@summarize ascii_runtime (map message_value greeting) llama3 2 2
                        (world ∅ [reply_ok (lit "a summary")]))))
    by (vm_compute; reflexivity).
  split; [exact E|].
  destruct (@summary_outside_context ascii_runtime (map message_value greeting) llama3 2 2 []
              _ _ _ ltac:(lia) ltac:(lia) ltac:(reflexivity) E)
    as (_ & Hl & _ & _ & Hc & _).
  split; [exact Hl|exact Hc].
Defined.

(** C9 at a turn whose summary request is answered by status 500 and
    whose final request succeeds. *)
Lemma failed_summary_is_persisted_witness :
  exists w3,
    @chat_with_memory ascii_runtime (lit "more") session_t1 llama3 2 3 []
      (world_with session_t1 greeting [reply_500; reply_ok (lit "fine")])
    = (Returned (VStr (lit "fine")), w3) /\
    file_text (MEMORY_FILE session_t1) w3 =
      Some (@dumps ascii_runtime
              (VList [message (lit "system")
                        (VStr (lit "HTTP Error: 500 Server Error, oops"));
                      message (lit "user") (VStr [233; 0x1f600]%N);
                      message (lit "user") (VStr (lit "more"));
                      message (lit "assistant") (VStr (lit "fine"))])).
Proof.
  eexists.
  edestruct (@failed_summary_is_persisted ascii_runtime (lit "more") session_t1 llama3 2 3 []
               (world_with session_t1 greeting [reply_500; reply_ok (lit "fine")]))
    as (_ & Hc & Hf).
  - vm_compute. reflexivity.
  - vm_compute. reflexivity.
  - vm_compute. reflexivity.
  - vm_compute. reflexivity.
  - vm_compute. reflexivity.
  - vm_compute. reflexivity.
  - vm_compute. reflexivity.
  - split; [exact Hc|]. rewrite Hf. vm_compute. reflexivity.
Defined.

(* ===================================================================== *)
(** * Part III. Further properties: the turn, the sidebar and the display *)
(* ===================================================================== *)








Section Encodable.
Context `{PyBuiltins}.






End Encodable.

(** ** Saving and loading, beyond messages *)

Lemma next_reply_generate_text prompt model w :
  fst (generate_text prompt model w) = next_reply w.
Proof. unfold next_reply. rewrite !generate_text_reply. reflexivity. Qed.

Section SaveLoad.
Context `{PyBuiltins}.



(** X2.  Any list without a float that was written as a session's record,
    messages or not, is what [load_memory] returns for that session, and
    the load prints nothing. *)
Theorem load_after_save_plain (memory : list pyval) (session : pystr) (w w' : World) :
  plain (VList memory) = true ->
  write_memory (MEMORY_FILE session) memory w = (Returned tt, w') ->
  load_memory session w' = (memory, w').
Proof.
  intros Hp E. apply write_memory_ok in E as (Hf & _).
  apply load_written; [exact Hp|]. rewrite Hf. apply lookup_insert_eq.
Qed.



End SaveLoad.

(** ** The turn as a whole *)

Lemma slice_from_map {A B} (f : A -> B) (l : list A) i :
  slice_from (map f l) i = map f (slice_from l i).
Proof. unfold slice_from. rewrite length_map. apply skipn_map. Qed.

Section WholeTurn.
Context `{PyBuiltins}.

(** A message renders exactly when it is well formed. *)
Lemma render_message_well_formed m :
  well_formed m = true <-> exists line, render_message m = Returned line.
Proof.
  unfold well_formed, render_message, getitem, capitalize.
  destruct m as [| b | z | f | s | l | d];
    try (split; [discriminate|intros [line E]; discriminate E]).
  destruct (dict_get d (lit "role")) as [[| b | z | f | s | l | d']|];
    try (split; [discriminate|intros [line E]; discriminate E]).
  destruct (dict_get d (lit "content")) as [c|];
    [split; eauto|split; [discriminate|intros [line E]; discriminate E]].
Qed.

Lemma render_message_error m e :
  render_message m = Raised e -> rendering_error e.
Proof.
  unfold render_message, getitem, capitalize.
  destruct m as [| b | z | f | s | l | d]; try (intros [= <-]; exact I).
  destruct (dict_get d (lit "role")) as [[| b | z | f | s | l | d']|];
    try (intros [= <-]; exact I).
  destruct (dict_get d (lit "content")); [discriminate|intros [= <-]; exact I].
Qed.

Lemma render_messages_well_formed ms :
  forallb well_formed ms = true <-> exists lines, render_messages ms = Returned lines.
Proof.
  induction ms as [|m ms IH]; [split; eauto|].
  cbn [forallb render_messages]. rewrite andb_true_iff, render_message_well_formed, IH.
  split.
  - intros [[line ->] [lines ->]]. eauto.
  - destruct (render_message m) as [line|e]; [|intros [? [=]]].
    destruct (render_messages ms) as [lines|e]; [|intros [? [=]]]. eauto.
Qed.

Lemma render_messages_error ms e :
  render_messages ms = Raised e -> rendering_error e.
Proof.
  induction ms as [|m ms IH]; [discriminate|]. cbn [render_messages].
  destruct (render_message m) as [line|e'] eqn:Em;
    [|intros [= <-]; eapply render_message_error; exact Em].
  destruct (render_messages ms) as [lines|e']; [discriminate|].
  intros [= <-]. apply IH. reflexivity.
Qed.

Lemma forallb_take (P : pyval -> bool) n l :
  forallb P l = true -> forallb P (take n l) = true.
Proof.
  revert n. induction l as [|x l IH]; intros [|n]; try reflexivity.
  cbn [forallb take]. intros [-> Hl]%andb_true_iff. apply IH. exact Hl.
Qed.

Lemma forallb_drop (P : pyval -> bool) n l :
  forallb P l = true -> forallb P (drop n l) = true.
Proof.
  revert n. induction l as [|x l IH]; intros [|n]; try reflexivity; [auto|].
  cbn [forallb drop]. intros [_ Hl]%andb_true_iff. apply IH. exact Hl.
Qed.

Lemma forallb_slice_to (P : pyval -> bool) l i :
  forallb P l = true -> forallb P (slice_to l i) = true.
Proof. apply forallb_take. Qed.

Lemma forallb_slice_from (P : pyval -> bool) l i :
  forallb P l = true -> forallb P (slice_from l i) = true.
Proof. apply forallb_drop. Qed.

(** What [summarize] returned, when it returns. *)
Lemma summarize_returns memory model max_history summary_threshold w memory' w' :
  summarize memory model max_history summary_threshold w = (Returned memory', w') ->
  ((Z.of_nat (length memory) <= summary_threshold)%Z /\ memory' = memory /\ w' = w) \/
  ((Z.of_nat (length memory) > summary_threshold)%Z /\
   exists lines,
     render_messages (slice_to memory (- max_history)) = Returned lines /\
     memory' = message (lit "system")
                 (fst (generate_text (summary_prompt (join NEWLINE lines)) model w))
               :: slice_from memory (- max_history) /\
     w' = snd (generate_text (summary_prompt (join NEWLINE lines)) model w)).
Proof.
  intros E.
  destruct (Z.leb_spec (Z.of_nat (length memory)) summary_threshold) as [Hle|Hgt].
  - left. rewrite summarize_idle in E by assumption. injection E as <- <-. auto.
  - right. assert (Hg : (Z.of_nat (length memory) > summary_threshold)%Z) by lia.
    split; [exact Hg|].
    destruct (render_messages (slice_to memory (- max_history))) as [lines|e] eqn:Hr.
    + rewrite (summarize_fires _ _ _ _ _ _ Hg Hr) in E. cbv zeta in E.
      injection E as <- <-. eauto.
    + unfold summarize in E.
      destruct (Z.gtb_spec (Z.of_nat (length memory)) summary_threshold); [|lia].
      unfold bind, lift in E. rewrite Hr in E. discriminate E.
Qed.

(** What [summarize] raises, when it raises. *)
Lemma summarize_raises memory model max_history summary_threshold w e w' :
  summarize memory model max_history summary_threshold w = (Raised e, w') ->
  w' = w /\ rendering_error e /\ forallb well_formed memory = false.
Proof.
  unfold summarize. destruct (_ >? _)%Z; [|discriminate].
  unfold bind, lift, total, ret.
  destruct (render_messages (slice_to memory (- max_history))) as [lines|e'] eqn:Hr.
  - destruct (generate_text _ model w); discriminate.
  - intros [= <- <-]. split; [reflexivity|]. split; [eapply render_messages_error; exact Hr|].
    destruct (forallb well_formed memory) eqn:Ew; [|reflexivity].
    apply (forallb_slice_to _ _ (- max_history)) in Ew.
    apply render_messages_well_formed in Ew as [lines El]. congruence.
Qed.

End WholeTurn.

Lemma well_formed_message role content : well_formed (message role content) = true.
Proof. reflexivity. Qed.


Lemma well_formed_context memory max_history agent_prompt :
  forallb well_formed (slice_from memory (- max_history)) = true ->
  forallb well_formed (context_messages memory max_history agent_prompt) = true.
Proof.
  intros Hm. unfold context_messages. destruct agent_prompt; [exact Hm|].
  cbn [app forallb]. rewrite well_formed_message. exact Hm.
Qed.



Section Turns.
Context `{PyBuiltins}.


(** What the turn leaves behind, step by step. *)
Lemma chat_with_memory_sent user_input session model max_history summary_threshold
    agent_prompt w :
  sent (snd (chat_with_memory user_input session model max_history summary_threshold
               agent_prompt w))
  = sent (snd (generate_reply user_input session model max_history summary_threshold
                 agent_prompt w)).
Proof.
  destruct (generate_reply user_input session model max_history summary_threshold
              agent_prompt w) as [r w1] eqn:E.
  rewrite (chat_with_memory_after _ _ _ _ _ _ _ _ _ E). cbn [snd].
  destruct r as [[memory reply]|e]; [|reflexivity].
  destruct (reply_failed reply) as [[|]|e]; try reflexivity.
  pose proof (write_memory_spec (MEMORY_FILE session)
                (memory ++ [message (lit "assistant") reply]) w1) as S. cbv zeta in S.
  destruct (files w1 !! MEMORY_FILE session) as [[|c]|];
    [rewrite S; reflexivity| |];
    destruct S as (w2 & -> & _ & _ & Hs & _);
    destruct (first_unencodable _); cbn; exact Hs.
Qed.

(** What [generate_reply] returned, when it returns. *)
Lemma generate_reply_returns user_input session model max_history summary_threshold
    agent_prompt w memory reply w2 :
  generate_reply user_input session model max_history summary_threshold agent_prompt w
    = (Returned (memory, reply), w2) ->
  exists w1 lines,
    summarize (fst (load_memory session w) ++ [message (lit "user") (VStr user_input)])
      model max_history summary_threshold (snd (load_memory session w))
      = (Returned memory, w1) /\
    render_messages (context_messages memory max_history agent_prompt) = Returned lines /\
    reply = next_reply w1 /\
    w2 = snd (generate_text (join NEWLINE lines ++ NEWLINE ++ lit "Assistant:") model w1).
Proof.
  rewrite generate_reply_steps.
  destruct (summarize _ model max_history summary_threshold _) as [[memory'|e] w1];
    [|discriminate].
  destruct (render_messages (context_messages memory' max_history agent_prompt))
    as [lines|e] eqn:Hr; [|discriminate].
  cbv zeta. intros [= <- <- <-]. exists w1, lines.
  rewrite next_reply_generate_text. auto.
Qed.

(** X4.  A turn that returns has posted one request, or two when the
    transcript with the new user message is longer than
    [summary_threshold]; each carries the model of the turn and
    [stream = false]. *)
Theorem requests_per_turn (user_input session model : pystr)
    (max_history summary_threshold : Z) (agent_prompt : pystr)
    (w w' : World) (r : pyval) :
  chat_with_memory user_input session model max_history summary_threshold agent_prompt w
    = (Returned r, w') ->
  let N := (Z.of_nat (length (fst (load_memory session w))) + 1)%Z in
  exists payloads,
    sent w' = sent w ++ payloads /\
    length payloads = (if (N >? summary_threshold)%Z then 2 else 1) /\
    Forall (fun p => payload_model p = model /\ payload_stream p = false) payloads.
Proof.
  intros E N.
  pose proof (chat_with_memory_sent user_input session model max_history
                summary_threshold agent_prompt w) as Hs.
  rewrite E in Hs. cbn [snd] in Hs. rewrite Hs. clear Hs.
  destruct (generate_reply user_input session model max_history summary_threshold
              agent_prompt w) as [g w2] eqn:Eg.
  rewrite (chat_with_memory_after _ _ _ _ _ _ _ _ _ Eg) in E.
  destruct g as [[memory reply]|e]; [|discriminate E]. clear E.
  apply generate_reply_returns in Eg as (w1 & lines & Es & _ & _ & ->). cbn [snd].
  pose proof (load_memory_world session w) as (_ & _ & Hl). cbv zeta in Hl.
  match goal with |- context [generate_text ?p model w1] =>
    pose proof (generate_text_world p model w1) as (_ & _ & _ & ->) end.
  apply summarize_returns in Es as [(Hle & _ & ->)|(Hgt & lines' & _ & _ & ->)];
    rewrite length_app in *; cbn [length] in *.
  - rewrite Hl. eexists. split; [reflexivity|].
    destruct (Z.gtb_spec N summary_threshold); [unfold N in *; lia|].
    split; [reflexivity|]. repeat constructor.
  - match goal with |- context [generate_text ?p model ?w0] =>
      pose proof (generate_text_world p model w0) as (_ & _ & _ & ->) end.
    rewrite Hl, <- app_assoc. eexists. split; [reflexivity|].
    destruct (Z.gtb_spec N summary_threshold); [|unfold N in *; lia].
    split; [reflexivity|]. repeat constructor.
Qed.

(** X5.  With [max_history >= 1], the transcript a turn is about to save is
    two longer than the one loaded when no summary is made, has at most
    [max_history + 2] messages when one is made, and so stays within
    [max (summary_threshold + 1) (max_history + 2)] once it is within. *)
Theorem transcript_stays_bounded (user_input session model : pystr)
    (max_history summary_threshold : Z) (agent_prompt : pystr)
    (w w1 : World) (memory : list pyval) (reply : pyval) :
  (1 <= max_history)%Z ->
  generate_reply user_input session model max_history summary_threshold agent_prompt w
    = (Returned (memory, reply), w1) ->
  let L := Z.of_nat (length (fst (load_memory session w))) in
  let saved := Z.of_nat (length (memory ++ [message (lit "assistant") reply])) in
  let bound := Z.max (summary_threshold + 1) (max_history + 2) in
  ((L <= bound)%Z -> (saved <= bound)%Z) /\
  ((L + 1 > summary_threshold)%Z -> (saved <= max_history + 2)%Z) /\
  ((L + 1 <= summary_threshold)%Z -> saved = (L + 2)%Z).
Proof.
  intros Hm Eg L saved bound.
  apply generate_reply_returns in Eg as (w0 & lines & Es & _).
  assert (Hs : (saved = Z.of_nat (length memory) + 1)%Z).
  { unfold saved. rewrite length_app. cbn [length]. lia. }
  apply summarize_returns in Es as [(Hle & -> & _)|(Hgt & lines' & _ & -> & _)];
    rewrite length_app in *; cbn [length] in *.
  - fold L in Hle. unfold bound. repeat split; lia.
  - pose proof (length_slice_from_neg
        (fst (load_memory session w) ++ [message (lit "user") (VStr user_input)])
        max_history Hm) as Hl.
    rewrite length_app in Hl. cbn [length] in Hl.
    rewrite Nat2Z.inj_succ in Hs. unfold bound. repeat split; lia.
Qed.

(** X6.  With [1 <= max_history] and [summary_threshold <= max_history + 2],
    a transcript that was summarised is, with the reply and the next user
    message, again longer than [summary_threshold]: every later turn
    summarises too. *)
Theorem summarisation_repeats (memory : list pyval) (model : pystr)
    (max_history summary_threshold : Z) (w w' : World) (memory' : list pyval)
    (reply user_input : pyval) :
  (1 <= max_history)%Z -> (summary_threshold <= max_history + 2)%Z ->
  (Z.of_nat (length memory) > summary_threshold)%Z ->
  summarize memory model max_history summary_threshold w = (Returned memory', w') ->
  (Z.of_nat (length ((memory' ++ [message (lit "assistant") reply])
                     ++ [message (lit "user") user_input])) > summary_threshold)%Z.
Proof.
  intros Hm Ht HN Es.
  apply summarize_returns in Es as [(Hle & _)|(_ & lines & _ & -> & _)]; [lia|].
  pose proof (length_slice_from_neg memory max_history Hm) as Hl.
  rewrite !length_app. cbn [length]. lia.
Qed.

End Turns.

Section Turns2.
Context `{PyBuiltins}.




(** X8.  When every item of the record is a dict with a string under "role"
    and something under "content", a turn returns, or raises
    [AttributeError] for a reply that is truthy and not a string; nothing
    else can be raised. *)
Theorem turn_on_well_formed_record (user_input session model : pystr)
    (max_history summary_threshold : Z) (agent_prompt : pystr) (w : World) :
  forallb well_formed (fst (load_memory session w)) = true ->
  exists r w',
    chat_with_memory user_input session model max_history summary_threshold agent_prompt w
      = (Returned r, w') \/
    ((forall s, r <> VStr s) /\ truthy r = true /\
     chat_with_memory user_input session model max_history summary_threshold agent_prompt w
       = (Raised (AttributeError r (lit "startswith")), w')).
Proof.
  intros Hwf.
  set (memory := fst (load_memory session w) ++ [message (lit "user") (VStr user_input)]).
  assert (Hm : forallb well_formed memory = true).
  { unfold memory. rewrite forallb_app, Hwf. reflexivity. }
  destruct (generate_reply user_input session model max_history summary_threshold
              agent_prompt w) as [g w2] eqn:Eg.
  pose proof Eg as Eg'. rewrite generate_reply_steps in Eg'. fold memory in Eg'.
  destruct (summarize memory model max_history summary_threshold (snd (load_memory session w)))
    as [[memory'|e] w1] eqn:Es.
  2:{ apply summarize_raises in Es as (_ & _ & Hbad). congruence. }
  assert (Hm' : forallb well_formed (slice_from memory' (- max_history)) = true).
  { apply forallb_slice_from.
    apply summarize_returns in Es as [(_ & -> & _)|(_ & lines & _ & -> & _)];
      [exact Hm|].
    cbn [forallb]. rewrite well_formed_message. apply forallb_slice_from, Hm. }
  destruct (proj1 (render_messages_well_formed
                     (context_messages memory' max_history agent_prompt)))
    as [lines Hlines]; [apply well_formed_context, Hm'|].
  rewrite Hlines in Eg'. cbv zeta in Eg'. injection Eg' as <- <-.
  rewrite (chat_with_memory_after _ _ _ _ _ _ _ _ _ Eg).
  match goal with |- context [reply_failed ?r] => generalize r end.
  intros reply. unfold reply_failed.
  destruct (truthy reply) eqn:Et; cbn [negb]; [|eexists _, _; left; reflexivity].
  destruct reply as [| b | z | f | s | l | d];
    try (match goal with |- context [AttributeError ?r _] => exists r end;
         eexists; right; split; [discriminate|split; [exact Et|reflexivity]]).
  destruct (startswith_any s ERROR_PREFIXES); [eexists _, _; left; reflexivity|].
  destruct (write_memory _ _ _) as [[[]|e] w3]; eexists _, _; left; reflexivity.
Qed.

(** X9.  Below the threshold, an item of the context window that is not a
    dict with a string role and a content makes the turn raise
    [TypeError], [KeyError] or [AttributeError] before any request is
    posted: the world is as [load_memory] left it. *)
Theorem malformed_window_raises (user_input session model : pystr)
    (max_history summary_threshold : Z) (agent_prompt : pystr) (w : World) :
  let memory := fst (load_memory session w) ++ [message (lit "user") (VStr user_input)] in
  (Z.of_nat (length memory) <= summary_threshold)%Z ->
  forallb well_formed (slice_from memory (- max_history)) = false ->
  exists e,
    rendering_error e /\
    chat_with_memory user_input session model max_history summary_threshold agent_prompt w
      = (Raised e, snd (load_memory session w)).
Proof.
  intros memory Hlen Hbad.
  assert (Hr : exists e, render_messages (context_messages memory max_history agent_prompt)
                         = Raised e).
  { destruct (render_messages (context_messages memory max_history agent_prompt))
      as [lines|e] eqn:E; [|eauto].
    rewrite render_context_directive in E.
    destruct (render_messages (context_messages memory max_history [])) as [l0|e0] eqn:E0;
      [|discriminate E].
    assert (Hw : forallb well_formed (context_messages memory max_history []) = true)
      by (apply render_messages_well_formed; eauto).
    unfold context_messages in Hw. congruence. }
  destruct Hr as [e Hr]. exists e. split; [eapply render_messages_error; exact Hr|].
  assert (Eg : generate_reply user_input session model max_history summary_threshold
                 agent_prompt w = (Raised e, snd (load_memory session w))).
  { rewrite generate_reply_steps. fold memory.
    rewrite (summarize_idle _ _ _ _ _ Hlen), Hr. reflexivity. }
  rewrite (chat_with_memory_after _ _ _ _ _ _ _ _ _ Eg). reflexivity.
Qed.

(** X10.  A reply that is not a string is never saved: when it is truthy the
    turn raises [AttributeError] for [startswith], otherwise the turn
    returns it; the files stay as they were. *)
Theorem non_string_reply (user_input session model : pystr)
    (max_history summary_threshold : Z) (agent_prompt : pystr)
    (w w1 : World) (memory : list pyval) (reply : pyval) :
  generate_reply user_input session model max_history summary_threshold agent_prompt w
    = (Returned (memory, reply), w1) ->
  (forall s, reply <> VStr s) ->
  files w1 = files w /\
  chat_with_memory user_input session model max_history summary_threshold agent_prompt w
  = (if truthy reply then Raised (AttributeError reply (lit "startswith"))
     else Returned reply, w1).
Proof.
  intros Eg Hns. split; [eapply generate_reply_files; exact Eg|].
  rewrite (chat_with_memory_after _ _ _ _ _ _ _ _ _ Eg). unfold reply_failed.
  destruct (truthy reply); cbn [negb]; [|reflexivity].
  destruct reply; try reflexivity. exfalso. eapply Hns. reflexivity.
Qed.

End Turns2.

Lemma slice_bound_nonneg n k : (0 <= k)%Z -> slice_bound n k = Nat.min (Z.to_nat k) n.
Proof. intros Hk. unfold slice_bound. destruct (Z.ltb_spec k 0); [lia|reflexivity]. Qed.

Lemma take_min {A} (l : list A) k : take (Nat.min k (length l)) l = take k l.
Proof.
  destruct (Nat.le_gt_cases k (length l)) as [Hle|Hgt].
  - rewrite Nat.min_l by exact Hle. reflexivity.
  - rewrite Nat.min_r by lia. rewrite !firstn_all2 by lia. reflexivity.
Qed.

Lemma drop_min {A} (l : list A) k : drop (Nat.min k (length l)) l = drop k l.
Proof.
  destruct (Nat.le_gt_cases k (length l)) as [Hle|Hgt].
  - rewrite Nat.min_l by exact Hle. reflexivity.
  - rewrite Nat.min_r by lia. rewrite !skipn_all2 by lia. reflexivity.
Qed.

(** X11.  With [max_history <= 0] the slices change meaning: the window is the
    transcript without its first [- max_history] items, the summary
    covers those first items only, and with [max_history = 0] the summary
    covers nothing while the transcript grows by the summary. *)
Theorem window_without_positive_max_history `{PyBuiltins} (memory : list pyval)
    (model : pystr) (max_history summary_threshold : Z)
    (w w' : World) (memory' : list pyval) :
  (max_history <= 0)%Z ->
  let k := Z.to_nat (- max_history) in
  slice_from memory (- max_history) = drop k memory /\
  context_messages memory max_history [] = drop k memory /\
  ((Z.of_nat (length memory) > summary_threshold)%Z ->
   summarize memory model max_history summary_threshold w = (Returned memory', w') ->
   exists lines summary,
     render_messages (take k memory) = Returned lines /\
     memory' = message (lit "system") summary :: drop k memory /\
     (max_history = 0%Z -> lines = [] /\ length memory' = S (length memory))).
Proof.
  intros Hm k.
  assert (Hd : slice_from memory (- max_history) = drop k memory).
  { unfold slice_from. rewrite slice_bound_nonneg by lia. apply drop_min. }
  assert (Ht : slice_to memory (- max_history) = take k memory).
  { unfold slice_to. rewrite slice_bound_nonneg by lia. apply take_min. }
  split; [exact Hd|]. split; [exact Hd|].
  intros HN Es.
  apply summarize_returns in Es as [(Hle & _)|(_ & lines & Hr & -> & _)]; [lia|].
  rewrite Ht in Hr. rewrite Hd. eexists lines, _. split; [exact Hr|].
  split; [reflexivity|]. intros ->. subst k. cbn in Hr |- *.
  injection Hr as <-. auto.
Qed.

(** ** A record that was cut short *)





Section Cut.
Context `{PyBuiltins}.








End Cut.



Section CutObjects.
Context `{PyBuiltins}.





End CutObjects.

Section LostTranscript.
Context `{PyBuiltins}.



End LostTranscript.

(** ** Session names and record names *)

Lemma startswith_inv prefix : forall s,
  startswith s prefix = true -> exists rest, s = prefix ++ rest.
Proof.
  induction prefix as [|p prefix IH]; intros s Hs; [exists s; reflexivity|].
  destruct s as [|c s]; [discriminate|]. cbn in Hs.
  apply andb_true_iff in Hs as [Hc Hs]. apply N.eqb_eq in Hc as ->.
  destruct (IH _ Hs) as [rest ->]. exists rest. reflexivity.
Qed.

Lemma endswith_app s suffix : endswith (s ++ suffix) suffix = true.
Proof. unfold endswith. rewrite rev_app_distr. apply startswith_app. Qed.

Lemma endswith_inv s suffix :
  endswith s suffix = true -> exists front, s = front ++ suffix.
Proof.
  unfold endswith. intros Hs. apply startswith_inv in Hs as [rest Hs].
  exists (rev rest). rewrite <- (rev_involutive s), Hs, rev_app_distr, rev_involutive.
  reflexivity.
Qed.

Lemma slice_middle {A} (front l back : list A) :
  back <> [] ->
  slice (front ++ l ++ back) (Z.of_nat (length front)) (- Z.of_nat (length back)) = l.
Proof.
  intros Hb. unfold slice.
  assert (0 < length back) by (destruct back; [congruence|cbn; lia]).
  rewrite slice_bound_neg by lia.
  unfold slice_bound. destruct (Z.ltb_spec (Z.of_nat (length front)) 0) as [?|_]; [lia|].
  rewrite !length_app, !Nat2Z.id.
  replace (Nat.min (length front) (length front + (length l + length back)))
    with (length front) by lia.
  rewrite drop_app_length.
  replace (length front + (length l + length back) - length back - length front)
    with (length l) by lia.
  apply take_app_length.
Qed.

(** The name of a record leads back to its session. *)
Lemma session_of_MEMORY_FILE s : session_of_file (MEMORY_FILE s) = Some s.
Proof.
  unfold session_of_file, MEMORY_FILE.
  rewrite startswith_app, app_assoc, endswith_app, <- app_assoc. cbn [andb].
  f_equal. apply (slice_middle (lit "memory_") s (lit ".json")). discriminate.
Qed.

(** Only the name of a record stands for a session. *)
Lemma session_of_file_inv file s :
  session_of_file file = Some s -> file = MEMORY_FILE s.
Proof.
  unfold session_of_file.
  destruct (startswith file (lit "memory_")) eqn:Hp; [|discriminate].
  destruct (endswith file (lit ".json")) eqn:Hs; [|discriminate].
  cbn [andb]. intros [= <-].
  apply startswith_inv in Hp as [rest ->].
  assert (exists mid, rest = mid ++ lit ".json") as [mid ->].
  { pose proof (endswith_inv _ _ Hs) as [front Hf].
    destruct (decide (length (lit ".json") <= length rest)) as [Hl|Hl].
    - exists (take (length rest - 5) rest).
      apply (f_equal (fun l => drop (length l - 5) l)) in Hf.
      rewrite !length_app in Hf.
      change (length (lit "memory_")) with 7 in Hf. change (length (lit ".json")) with 5 in *.
      replace (7 + length rest - 5) with (7 + (length rest - 5)) in Hf by lia.
      rewrite (drop_app_add' (lit "memory_")) in Hf by reflexivity.
      replace (length front + 5 - 5) with (length front) in Hf by lia.
      rewrite drop_app_length in Hf.
      rewrite <- Hf. symmetry. apply take_drop.
    - exfalso. change (length (lit ".json")) with 5 in Hl.
      unfold endswith in Hs.
      destruct rest as [|a [|b [|c [|d [|e rest]]]]]; [..|cbn in Hl; lia];
        cbn in Hs; try discriminate;
        repeat (apply andb_true_iff in Hs as [? Hs]); discriminate. }
  unfold MEMORY_FILE. do 2 f_equal. symmetry.
  apply (slice_middle (lit "memory_") mid (lit ".json")). discriminate.
Qed.


(** ** The list of sessions *)

Lemma elem_of_session_names keys s : s ∈ session_names keys <-> MEMORY_FILE s ∈ keys.
Proof.
  unfold session_names. rewrite list_elem_of_In, in_flat_map. split.
  - intros (file & Hin & Hs). destruct (session_of_file file) as [s'|] eqn:E; [|destruct Hs].
    destruct Hs as [->|[]]. apply session_of_file_inv in E as <-.
    apply list_elem_of_In. exact Hin.
  - intros Hin. exists (MEMORY_FILE s). split; [apply list_elem_of_In; exact Hin|].
    rewrite session_of_MEMORY_FILE. left. reflexivity.
Qed.

Lemma NoDup_session_names keys : NoDup keys -> NoDup (session_names keys).
Proof.
  induction 1 as [|file keys Hnot Hnd IH]; [constructor|].
  cbn. destruct (session_of_file file) as [s|] eqn:E; [|exact IH].
  cbn. constructor; [|exact IH].
  intros Hin. apply elem_of_session_names in Hin.
  apply session_of_file_inv in E as ->. contradiction.
Qed.

Lemma elem_of_os_listdir w path : path ∈ os_listdir w <-> is_Some (files w !! path).
Proof.
  unfold os_listdir. rewrite list_elem_of_fmap. split.
  - intros ([k n] & -> & Hin). apply elem_of_map_to_list in Hin. cbn. eauto.
  - intros [n Hn]. exists (path, n). split; [reflexivity|]. apply elem_of_map_to_list. exact Hn.
Qed.

Lemma NoDup_os_listdir w : NoDup (os_listdir w).
Proof. apply NoDup_fst_map_to_list. Qed.

Lemma session_list_load_sessions a w :
  session_list (load_sessions a w) =
    match session_names (os_listdir w) with
    | [] => [lit "default"]
    | _ :: _ => session_names (os_listdir w)
    end.
Proof. reflexivity. Qed.

(** ** The chat display *)

Lemma occurrences_app c s1 s2 :
  occurrences c (s1 ++ s2) = occurrences c s1 + occurrences c s2.
Proof. apply count_occ_app. Qed.

Lemma occurrences_cons c x s :
  occurrences c (x :: s) = (if decide (x = c) then 1 else 0) + occurrences c s.
Proof.
  unfold occurrences. cbn [count_occ].
  destruct (N.eq_dec x c), (decide (x = c)); try reflexivity; contradiction.
Qed.

Lemma occurrences_replace1 x old new s :
  occurrences x new = 0 ->
  x = old \/ occurrences x s = 0 ->
  occurrences x (str_replace1 old new s) = 0.
Proof.
  intros Hnew Hs. induction s as [|c s IH]; [reflexivity|].
  cbn [str_replace1 flat_map]. rewrite occurrences_app.
  fold (str_replace1 old new s).
  assert (Hs' : x = old \/ occurrences x s = 0).
  { destruct Hs as [->|Hs]; [left; reflexivity|right].
    rewrite occurrences_cons in Hs. lia. }
  rewrite (IH Hs'), Nat.add_0_r.
  destruct (N.eqb_spec c old) as [->|Hne]; [exact Hnew|].
  rewrite occurrences_cons. cbn.
  destruct (decide (c = x)) as [->|?]; [|reflexivity].
  destruct Hs as [->|Hs]; [congruence|].
  rewrite occurrences_cons in Hs. destruct (decide (x = x)); [discriminate|congruence].
Qed.

(** Escaped text holds none of the characters of markup. *)
Lemma html_escape_markup x s : x ∈ MARKUP -> occurrences x (html_escape s) = 0.
Proof.
  intros Hx. unfold html_escape.
  set (s1 := str_replace1 (chr "&") _ s).
  set (s2 := str_replace1 (chr "<") _ s1).
  set (s3 := str_replace1 (chr ">") _ s2).
  set (s4 := str_replace1 QUOTE _ s3).
  assert (H2 : occurrences (chr "<") s2 = 0)
    by (apply occurrences_replace1; [reflexivity|left; reflexivity]).
  assert (H3l : occurrences (chr "<") s3 = 0)
    by (apply occurrences_replace1; [reflexivity|right; exact H2]).
  assert (H3 : occurrences (chr ">") s3 = 0)
    by (apply occurrences_replace1; [reflexivity|left; reflexivity]).
  assert (H4l : occurrences (chr "<") s4 = 0)
    by (apply occurrences_replace1; [reflexivity|right; exact H3l]).
  assert (H4g : occurrences (chr ">") s4 = 0)
    by (apply occurrences_replace1; [reflexivity|right; exact H3]).
  assert (H4 : occurrences QUOTE s4 = 0)
    by (apply occurrences_replace1; [reflexivity|left; reflexivity]).
  unfold MARKUP in Hx. rewrite !elem_of_cons in Hx.
  destruct Hx as [->|[->|[->|[->|Hx]]]]; [..|inversion Hx];
    apply occurrences_replace1; try reflexivity; auto.
Qed.

Lemma replace1_plain old new s : old ∉ s -> str_replace1 old new s = s.
Proof.
  induction s as [|c s IH]; [reflexivity|]. intros Hn.
  apply not_elem_of_cons in Hn as [Hc Hn]. cbn [str_replace1 flat_map].
  fold (str_replace1 old new s). rewrite (IH Hn).
  destruct (N.eqb_spec c old); [congruence|reflexivity].
Qed.

(** Text without the five characters is shown as it is. *)
Lemma html_escape_plain s :
  (forall c, c ∈ chr "&" :: MARKUP -> c ∉ s) -> html_escape s = s.
Proof.
  intros Hs. unfold html_escape.
  rewrite (replace1_plain (chr "&")), (replace1_plain (chr "<")),
    (replace1_plain (chr ">")), (replace1_plain QUOTE), (replace1_plain (chr "'"));
    [reflexivity|..]; apply Hs; unfold MARKUP; rewrite !elem_of_cons; auto 6.
Qed.

Section Display.
Context `{PyBuiltins}.

Lemma chat_block_displayable light m :
  displayable m = true -> exists b, chat_block light m = Returned b.
Proof.
  destruct m as [| | | | |l|d]; try discriminate. cbn [displayable].
  intros Hd. apply andb_true_iff in Hd as [Hr Hc].
  unfold chat_block, m_get.
  destruct (dict_get d (lit "role")) as [[]|]; try discriminate;
    destruct (dict_get d (lit "content")) as [[]|]; try discriminate;
    cbn [capitalize escape_value]; eexists; reflexivity.
Qed.

Lemma chat_block_error light m :
  displayable m = false -> exists v attr, chat_block light m = Raised (AttributeError v attr).
Proof.
  intros Hd. unfold chat_block, m_get.
  destruct m as [| | | | |l|d]; try (eexists _, _; reflexivity).
  cbn [displayable] in Hd.
  destruct (dict_get d (lit "role")) as [[]|]; cbn [capitalize];
    try (eexists _, _; reflexivity);
    destruct (dict_get d (lit "content")) as [[]|]; cbn [escape_value];
    try (eexists _, _; reflexivity); discriminate.
Qed.

Lemma append_blocks_displayable light memory : forall area,
  forallb displayable memory = true ->
  exists blocks,
    append_blocks light memory area = (Returned tt, area ++ blocks)
    /\ Forall2 (fun m b => chat_block light m = Returned b) memory blocks.
Proof.
  induction memory as [|m memory IH]; intros area Hd.
  - exists []. rewrite app_nil_r. split; [reflexivity|constructor].
  - cbn in Hd. apply andb_true_iff in Hd as [Hm Hd].
    destruct (chat_block_displayable light m Hm) as [b Hb].
    destruct (IH (area ++ [b]) Hd) as (blocks & E & HF).
    exists (b :: blocks). cbn [append_blocks]. rewrite Hb, E, <- app_assoc.
    split; [reflexivity|]. constructor; assumption.
Qed.

Lemma append_blocks_error light memory : forall area,
  forallb displayable memory = false ->
  exists v attr blocks,
    append_blocks light memory area = (Raised (AttributeError v attr), area ++ blocks)
    /\ length blocks < length memory
    /\ Forall2 (fun m b => chat_block light m = Returned b)
         (take (length blocks) memory) blocks
    /\ (exists m, memory !! length blocks = Some m /\ displayable m = false).
Proof.
  induction memory as [|m memory IH]; intros area Hd; [discriminate|].
  cbn [forallb] in Hd. destruct (displayable m) eqn:Hm.
  - destruct (chat_block_displayable light m Hm) as [b Hb].
    destruct (IH (area ++ [b]) Hd) as (v & attr & blocks & E & Hl & HF & Hbad).
    exists v, attr, (b :: blocks). cbn [append_blocks]. rewrite Hb, E, <- app_assoc.
    split; [reflexivity|]. split; [cbn; lia|]. split; [constructor; assumption|].
    exact Hbad.
  - destruct (chat_block_error light m Hm) as (v & attr & Hb).
    exists v, attr, []. cbn [append_blocks]. rewrite Hb, app_nil_r.
    split; [reflexivity|]. split; [cbn; lia|]. split; [constructor|].
    exists m. split; [reflexivity|exact Hm].
Qed.

(** What [load_session_chat] leaves of the window and the world. *)
Lemma load_session_chat_frame session a w r a' w' :
  load_session_chat session (a, w) = (r, (a', w')) ->
  let current :=
    match session with
    | Some (c :: s) => c :: s
    | _ => current_session a
    end in
  current_session a' = current
  /\ session_list a' = session_list a
  /\ dialogs a' = dialogs a
  /\ light_mode a' = light_mode a
  /\ w' = snd (load_memory current w)
  /\ (r, chat_area a') =
       append_blocks (truthy (light_mode a)) (fst (load_memory current w)) [].
Proof.
  unfold load_session_chat. intros E.
  destruct session as [[|c s]|];
    cbn [set_current_session set_chat_area current_session light_mode chat_area] in E |- *;
    match type of E with context [load_memory ?s w] =>
      destruct (load_memory s w) as [memory w1] end;
    cbn [fst snd];
    match type of E with context [append_blocks ?l ?m ?ar] =>
      destruct (append_blocks l m ar) as [r1 area] end;
    injection E as <- <- <-; cbn; auto 10.
Qed.

End Display.

(** What [load_memory] returns depends on what the record's name holds. *)
Lemma load_memory_node s1 w1 s2 w2 :
  files w1 !! MEMORY_FILE s1 = files w2 !! MEMORY_FILE s2 ->
  fst (load_memory s1 w1) = fst (load_memory s2 w2).
Proof.
  intros E. unfold load_memory, path_exists, json_load, bind, read_text, ret, raise.
  rewrite E. destruct (files w2 !! MEMORY_FILE s2) as [[|[t|]]|]; try reflexivity.
  destruct (loads t) as [[]|]; reflexivity.
Qed.

Lemma load_memory_missing s w :
  files w !! MEMORY_FILE s = None -> load_memory s w = ([], w).
Proof.
  intros E. unfold load_memory, path_exists. rewrite E. reflexivity.
Qed.

Section Showing.
Context `{PyBuiltins}.

(** X12.  [load_session_chat] switches to the session given (when it is a
    non-empty name), loads its record and replaces the display by one
    block for each message.  It returns when every message is a dict
    whose role and content, where present, are strings; otherwise it
    raises [AttributeError] at the first message that is not, with the
    blocks of the messages before it on display. *)
Theorem load_session_chat_shows (session : option pystr) (a : App) (w : World) :
  let current :=
    match session with
    | Some (c :: s) => c :: s
    | _ => current_session a
    end in
  let memory := fst (load_memory current w) in
  let light := truthy (light_mode a) in
  let '(r, (a', w')) := load_session_chat session (a, w) in
  current_session a' = current
  /\ w' = snd (load_memory current w)
  /\ session_list a' = session_list a
  /\ (if forallb displayable memory
      then r = Returned tt
           /\ Forall2 (fun m block => chat_block light m = Returned block)
                memory (chat_area a')
      else (exists v attr, r = Raised (AttributeError v attr))
           /\ length (chat_area a') < length memory
           /\ Forall2 (fun m block => chat_block light m = Returned block)
                (take (length (chat_area a')) memory) (chat_area a')
           /\ exists m, memory !! length (chat_area a') = Some m
                        /\ displayable m = false).
Proof.
  intros current memory light.
  destruct (load_session_chat session (a, w)) as [r [a' w']] eqn:E.
  apply load_session_chat_frame in E as (Hc & Hl & _ & _ & Hw & Hb).
  fold current in Hc, Hw, Hb. fold memory light in Hb.
  split; [exact Hc|]. split; [exact Hw|]. split; [exact Hl|].
  destruct (forallb displayable memory) eqn:Hd.
  - destruct (append_blocks_displayable light memory [] Hd) as (blocks & E & HF).
    rewrite E in Hb. injection Hb as -> ->. split; [reflexivity|exact HF].
  - destruct (append_blocks_error light memory [] Hd)
      as (v & attr & blocks & E & Hlen & HF & Hbad).
    rewrite E in Hb. injection Hb as -> ->. cbn [app].
    split; [eauto|]. split; [exact Hlen|]. split; [exact HF|exact Hbad].
Qed.

(** X13.  The content of a message adds no markup to its block: the block has
    as many angle brackets and quotes as the block of the same role with
    empty content. *)
Theorem content_adds_no_markup (light : bool) (role content : pystr) (x : N) :
  x ∈ MARKUP ->
  exists block empty,
    chat_block light (message role (VStr content)) = Returned block
    /\ chat_block light (message role (VStr [])) = Returned empty
    /\ occurrences x block = occurrences x empty.
Proof.
  intros Hx. unfold chat_block, message, m_get.
  change (dict_get _ (lit "role")) with (Some (VStr role)).
  change (dict_get [(lit "role", VStr role); (lit "content", VStr content)] (lit "content"))
    with (Some (VStr content)).
  change (dict_get [(lit "role", VStr role); (lit "content", VStr [])] (lit "content"))
    with (Some (VStr [])).
  cbn [capitalize escape_value]. eexists _, _. split; [reflexivity|]. split; [reflexivity|].
  change (html_escape []) with (@nil N).
  pose proof (html_escape_markup x content Hx) as H0.
  destruct (bool_decide _), light; rewrite !occurrences_app, H0; reflexivity.
Qed.

End Showing.

(** ** Names typed by the user *)

Section Names.
Context `{PyUnicode}.

Lemma lstrip_split s :
  exists spaces, s = spaces ++ lstrip s /\ forallb str_isspace spaces = true.
Proof.
  induction s as [|c s (spaces & E & Hs)]; [exists []; split; reflexivity|].
  cbn [lstrip]. destruct (str_isspace c) eqn:Hc.
  - exists (c :: spaces). cbn. rewrite Hc, Hs. split; [f_equal; exact E|reflexivity].
  - exists []. split; reflexivity.
Qed.

Lemma lstrip_head s c : head (lstrip s) = Some c -> str_isspace c = false.
Proof.
  induction s as [|x s IH]; [discriminate|]. cbn [lstrip].
  destruct (str_isspace x) eqn:Hx; [exact IH|]. cbn. intros [= <-]. exact Hx.
Qed.

Lemma lstrip_fixed s :
  (forall c, head s = Some c -> str_isspace c = false) -> lstrip s = s.
Proof.
  destruct s as [|x s]; [reflexivity|]. intros Hh. cbn [lstrip].
  rewrite (Hh x eq_refl). reflexivity.
Qed.

Lemma head_rev_last (s : pystr) : head (rev s) = last s.
Proof.
  induction s as [|x s IH] using rev_ind; [reflexivity|].
  rewrite rev_app_distr, last_snoc. reflexivity.
Qed.

Lemma strip_fixed s :
  (forall c, head s = Some c -> str_isspace c = false) ->
  (forall c, last s = Some c -> str_isspace c = false) ->
  strip s = s.
Proof.
  intros Hh Hl. unfold strip. rewrite (lstrip_fixed s Hh).
  rewrite lstrip_fixed, rev_involutive; [reflexivity|].
  intros c. rewrite head_rev_last. apply Hl.
Qed.

Lemma strip_last s c : last (strip s) = Some c -> str_isspace c = false.
Proof.
  unfold strip. rewrite <- head_rev_last, rev_involutive. apply lstrip_head.
Qed.

Lemma strip_head s c : head (strip s) = Some c -> str_isspace c = false.
Proof.
  unfold strip.
  destruct (lstrip_split (rev (lstrip s))) as (spaces & E & Hs).
  set (z := lstrip (rev (lstrip s))) in *.
  apply (f_equal (@rev N)) in E. rewrite rev_involutive, rev_app_distr in E.
  destruct (rev z) as [|x t] eqn:Ez; [discriminate|].
  cbn. intros [= <-]. apply (lstrip_head s). rewrite E. reflexivity.
Qed.

Lemma strip_sub s c : c ∈ strip s -> c ∈ s.
Proof.
  unfold strip. rewrite list_elem_of_In, <- in_rev, <- list_elem_of_In.
  destruct (lstrip_split (rev (lstrip s))) as (sp1 & E1 & _).
  destruct (lstrip_split s) as (sp2 & E2 & _).
  intros Hc. rewrite E2. apply elem_of_app. right.
  apply list_elem_of_In, in_rev, list_elem_of_In. rewrite E1.
  apply elem_of_app. right. exact Hc.
Qed.

Lemma sanitize_allowed name c : c ∈ sanitize name -> c ∉ FORBIDDEN.
Proof.
  unfold sanitize. intros Hc. apply strip_sub in Hc.
  apply list_elem_of_fmap in Hc as (x & -> & _).
  destruct (existsb (N.eqb x) FORBIDDEN) eqn:Ex.
  - intros Hin. unfold FORBIDDEN in Hin. rewrite !elem_of_cons in Hin.
    repeat (destruct Hin as [Hin|Hin]; [discriminate|]). inversion Hin.
  - intros Hin. apply not_true_iff_false in Ex. apply Ex.
    apply existsb_exists. exists x. split; [apply list_elem_of_In; exact Hin|].
    apply N.eqb_refl.
Qed.

Lemma sanitize_fixed name :
  (forall c, c ∈ name -> c ∉ FORBIDDEN) ->
  (forall c, head name = Some c -> str_isspace c = false) ->
  (forall c, last name = Some c -> str_isspace c = false) ->
  sanitize name = name.
Proof.
  intros Ha Hh Hl. unfold sanitize.
  assert (E : map (fun c => if existsb (N.eqb c) FORBIDDEN then chr "_" else c) name = name).
  { clear Hh Hl. induction name as [|x name IH]; [reflexivity|].
    cbn [map]. rewrite IH by (intros c Hc; apply Ha; right; exact Hc).
    destruct (existsb (N.eqb x) FORBIDDEN) eqn:Ex; [|reflexivity].
    exfalso. apply existsb_exists in Ex as (y & Hy & Hxy).
    apply N.eqb_eq in Hxy as <-. apply (Ha x); [left|apply list_elem_of_In; exact Hy]. }
  rewrite E. apply strip_fixed; assumption.
Qed.

(** X15.  A name typed by the user comes out of the sanitising step without
    any of the nine forbidden characters and without white space at
    either end; sanitising it again changes nothing; its record name
    holds no slash. *)
Theorem sanitize_name (name : pystr) :
  let s := sanitize name in
  (forall c, c ∈ s -> c ∉ FORBIDDEN)
  /\ (forall c, head s = Some c \/ last s = Some c -> str_isspace c = false)
  /\ sanitize s = s
  /\ chr "/" ∉ MEMORY_FILE s.
Proof.
  cbv zeta.
  assert (Hh : forall c, head (sanitize name) = Some c -> str_isspace c = false)
    by (intros c; apply strip_head).
  assert (Hl : forall c, last (sanitize name) = Some c -> str_isspace c = false)
    by (intros c; apply strip_last).
  split; [apply sanitize_allowed|]. split; [intros c [?|?]; auto|].
  split; [apply sanitize_fixed; auto; apply sanitize_allowed|].
  unfold MEMORY_FILE. rewrite !elem_of_app. intros [Hin|[Hin|Hin]].
  - cbn in Hin. rewrite !elem_of_cons in Hin.
    repeat (destruct Hin as [Hin|Hin]; [discriminate|]). inversion Hin.
  - apply (sanitize_allowed name _ Hin). unfold FORBIDDEN. rewrite !elem_of_cons. auto 10.
  - cbn in Hin. rewrite !elem_of_cons in Hin.
    repeat (destruct Hin as [Hin|Hin]; [discriminate|]). inversion Hin.
Qed.

End Names.

(** ** The list of the sidebar *)

Lemma listed_elem_of name a : listed name a = true <-> name ∈ session_list a.
Proof.
  unfold listed. rewrite existsb_exists. split.
  - intros (x & Hx & E). apply bool_decide_eq_true in E as <-.
    apply list_elem_of_In. exact Hx.
  - intros Hin. exists name. split; [apply list_elem_of_In; exact Hin|].
    apply bool_decide_eq_true. reflexivity.
Qed.

Lemma NoDup_snoc (l : list pystr) x : NoDup l -> x ∉ l -> NoDup (l ++ [x]).
Proof.
  intros Hl Hx. apply NoDup_app. split; [exact Hl|]. split; [|apply NoDup_singleton].
  intros y Hy Hy'. apply list_elem_of_singleton in Hy' as ->. contradiction.
Qed.

Lemma elem_of_insert_inv (l : list pystr) i x y :
  y ∈ <[i := x]> l -> y = x \/ y ∈ l.
Proof.
  revert i. induction l as [|z l IH]; intros i Hy; [inversion Hy|].
  destruct i as [|i]; cbn in Hy; apply elem_of_cons in Hy as [->|Hy]; auto.
  - right. right. exact Hy.
  - right. left.
  - destruct (IH _ Hy) as [->|?]; [left; reflexivity|right; right; assumption].
Qed.

Lemma NoDup_insert (l : list pystr) i x : NoDup l -> x ∉ l -> NoDup (<[i := x]> l).
Proof.
  intros Hl. revert i. induction Hl as [|y l Hy Hl IH]; intros i Hx; [constructor|].
  apply not_elem_of_cons in Hx as [Hxy Hx].
  destruct i as [|i]; cbn.
  - constructor; assumption.
  - constructor; [|apply IH; exact Hx].
    intros Hin. apply elem_of_insert_inv in Hin as [->|Hin]; contradiction.
Qed.

Lemma elem_of_load_sessions a w s :
  s ∈ session_list (load_sessions a w) <->
    is_Some (files w !! MEMORY_FILE s)
    \/ (s = lit "default" /\ forall s', files w !! MEMORY_FILE s' = None).
Proof.
  rewrite session_list_load_sessions.
  assert (Hin : forall x, x ∈ session_names (os_listdir w) <->
                          is_Some (files w !! MEMORY_FILE x)).
  { intros x. rewrite elem_of_session_names. apply elem_of_os_listdir. }
  destruct (session_names (os_listdir w)) as [|x items] eqn:E.
  - rewrite list_elem_of_singleton. split.
    + intros ->. right. split; [reflexivity|]. intros s'.
      destruct (files w !! MEMORY_FILE s') eqn:Es; [|reflexivity].
      assert (Hs : s' ∈ @nil pystr) by (apply Hin; eauto). inversion Hs.
    + intros [Hs|[-> _]]; [|reflexivity]. apply Hin in Hs. inversion Hs.
  - rewrite Hin. split; [auto|]. intros [Hs|[_ Hnone]]; [exact Hs|].
    assert (Hx : is_Some (files w !! MEMORY_FILE x)) by (apply Hin; left).
    rewrite Hnone in Hx. destruct Hx as [? [=]].
Qed.

Lemma NoDup_load_sessions a w : NoDup (session_list (load_sessions a w)).
Proof.
  rewrite session_list_load_sessions.
  pose proof (NoDup_session_names _ (NoDup_os_listdir w)) as Hnd.
  destruct (session_names (os_listdir w)); [apply NoDup_singleton|exact Hnd].
Qed.

(** X14.  In a working directory that holds names, not paths,
    [load_sessions] lists exactly the sessions whose record name exists,
    each once, and the session "default" alone when there is none; the
    list is never empty. *)
Theorem load_sessions_lists_records (a : App) (w : World) :
  names_only w = true ->
  let items := session_list (load_sessions a w) in
  NoDup items
  /\ items <> []
  /\ forall s, s ∈ items <->
       is_Some (files w !! MEMORY_FILE s)
       \/ (s = lit "default" /\ forall s', files w !! MEMORY_FILE s' = None).
Proof.
  intros _ items. split; [apply NoDup_load_sessions|]. split; [|apply elem_of_load_sessions].
  subst items. rewrite session_list_load_sessions.
  destruct (session_names (os_listdir w)); discriminate.
Qed.


Section Sidebar.
Context `{PyBuiltins} `{PyUnicode}.

Lemma load_session_chat_list session a w :
  session_list (fst (snd (load_session_chat session (a, w)))) = session_list a.
Proof.
  destruct (load_session_chat session (a, w)) as [r [a' w']] eqn:E.
  apply load_session_chat_frame in E as (_ & Hl & _). exact Hl.
Qed.

Lemma load_session_chat_files session a w :
  files (snd (snd (load_session_chat session (a, w)))) = files w.
Proof.
  destruct (load_session_chat session (a, w)) as [r [a' w']] eqn:E.
  apply load_session_chat_frame in E as (_ & _ & _ & _ & -> & _).
  apply load_memory_world.
Qed.

Lemma create_new_chat_list answer a w :
  let a' := fst (snd (create_new_chat answer (a, w))) in
  session_list a' = session_list a
  \/ session_list a' = session_list a ++ [sanitize (fst answer)]
     /\ sanitize (fst answer) ∉ session_list a.
Proof.
  destruct answer as [name ok]. unfold create_new_chat. cbn [fst].
  destruct ok; [|left; reflexivity]. destruct name as [|c name]; [left; reflexivity|].
  destruct (sanitize (c :: name)) as [|x s] eqn:Es; [left; reflexivity|].
  destruct (listed (x :: s) a) eqn:El; cbn [negb]; [left; reflexivity|].
  right. rewrite load_session_chat_list. split; [reflexivity|].
  intros Hin. apply listed_elem_of in Hin. congruence.
Qed.

Lemma rename_session_list i item answer a w :
  let a' := fst (snd (rename_session i item answer (a, w))) in
  session_list a' = session_list a
  \/ session_list a' = <[i := sanitize (fst answer)]> (session_list a)
     /\ sanitize (fst answer) ∉ session_list a.
Proof.
  destruct answer as [name ok]. unfold rename_session. cbn [fst].
  destruct ok; [|left; reflexivity]. destruct name as [|c name]; [left; reflexivity|].
  destruct (sanitize (c :: name)) as [|x s] eqn:Es; [left; reflexivity|].
  destruct (listed (x :: s) a) eqn:El; [left; reflexivity|].
  assert (Hn : x :: s ∉ session_list a)
    by (intros Hin; apply listed_elem_of in Hin; congruence).
  match goal with |- context [if ?c then ?x else ?y] => destruct (if c then x else y) as [w1|] end;
    [|left; reflexivity].
  match goal with |- context [load_session_chat ?s ?aw] =>
    pose proof (load_session_chat_list s (fst aw) (snd aw)) as Hl;
    cbn [fst snd] in Hl; destruct (load_session_chat s aw) as [[[]|e] [a2 w2]] end;
    cbn [fst snd] in *; right; (split; [exact Hl|exact Hn]).
Qed.

Lemma delete_session_list item confirm a w :
  NoDup (session_list a) ->
  NoDup (session_list (fst (snd (delete_session item confirm (a, w))))).
Proof.
  intros Hnd. unfold delete_session. destruct confirm; [|exact Hnd].
  destruct (os_remove (MEMORY_FILE item) w) as [[[]|e] w'].
  - rewrite load_session_chat_list. apply NoDup_load_sessions.
  - destruct e; try exact Hnd. rewrite load_session_chat_list. apply NoDup_load_sessions.
Qed.

(** X16.  No handler of the sidebar makes its list name a session twice:
    creating a chat, changing the session, and deleting or renaming from
    the menu keep a list without duplicates so. *)
Theorem sidebar_lists_no_session_twice (a : App) (w : World) (item : pystr)
    (row : option nat) (action : option menu_action) (confirm : bool)
    (answer : pystr * bool) :
  NoDup (session_list a) ->
  NoDup (session_list (fst (snd (create_new_chat answer (a, w)))))
  /\ NoDup (session_list (fst (snd (change_session item (a, w)))))
  /\ NoDup (session_list (fst (snd (show_session_menu row action confirm answer (a, w))))).
Proof.
  intros Hnd. split; [|split].
  - destruct (create_new_chat_list answer a w) as [->|[-> Hn]]; [exact Hnd|].
    apply NoDup_snoc; assumption.
  - unfold change_session. rewrite load_session_chat_list. exact Hnd.
  - unfold show_session_menu. destruct row as [i|]; [|exact Hnd].
    destruct (session_list a !! i) as [text|]; [|exact Hnd].
    destruct action as [[]|]; [..|exact Hnd].
    + apply delete_session_list. exact Hnd.
    + destruct (rename_session_list i text answer a w) as [->|[-> Hn]]; [exact Hnd|].
      apply NoDup_insert; assumption.
Qed.

(** X17.  In a working directory that holds names, not paths, a new chat is
    an item of the list and nothing more: creating it
    makes the sanitised name the last item and the current session and
    changes no file; if the name has no record the display is empty, and
    unless the name is "default" a reload of the list does not show it. *)
Theorem new_chat_has_no_record (name : pystr) (a : App) (w : World) :
  names_only w = true ->
  name <> [] ->
  sanitize name <> [] ->
  sanitize name ∉ session_list a ->
  let '(r, (a', w')) := create_new_chat (name, true) (a, w) in
  session_list a' = session_list a ++ [sanitize name]
  /\ current_session a' = sanitize name
  /\ files w' = files w /\ net w' = net w /\ sent w' = sent w
  /\ (files w !! MEMORY_FILE (sanitize name) = None ->
      r = Returned tt /\ chat_area a' = [] /\ w' = w
      /\ (sanitize name <> lit "default" ->
          sanitize name ∉ session_list (load_sessions a' w'))).
Proof.
  intros _ Hname Hs Hn. unfold create_new_chat.
  destruct name as [|c name]; [congruence|].
  destruct (sanitize (c :: name)) as [|x s] eqn:Es; [congruence|].
  assert (El : listed (x :: s) a = false).
  { destruct (listed (x :: s) a) eqn:El; [|reflexivity].
    apply listed_elem_of in El. contradiction. }
  rewrite El. cbn [negb].
  destruct (load_session_chat _ _) as [r [a' w']] eqn:E.
  apply load_session_chat_frame in E as (Hc & Hl & _ & _ & Hw & Hb).
  cbv zeta in Hc, Hw, Hb. cbn [set_session_list session_list light_mode] in Hl, Hb.
  pose proof (load_memory_world (x :: s) w) as (Hf & Hnet & Hsent). cbv zeta in Hf, Hnet, Hsent.
  rewrite <- Hw in Hf, Hnet, Hsent.
  split; [exact Hl|]. split; [exact Hc|]. split; [exact Hf|]. split; [exact Hnet|].
  split; [exact Hsent|]. intros Hnone.
  rewrite (load_memory_missing _ _ Hnone) in Hw, Hb. cbn in Hw, Hb.
  injection Hb as -> ->. subst w'.
  split; [reflexivity|]. split; [reflexivity|]. split; [reflexivity|].
  intros Hd Hin. apply elem_of_load_sessions in Hin as [[n Hn']|[? _]]; congruence.
Qed.


End Sidebar.


Section Renaming.
Context `{PyBuiltins} `{PyUnicode}.


End Renaming.

Section Sending.
Context `{PyBuiltins} `{PyUnicode}.

(** [send_message] with text and without attachments, up to the reply. *)
Lemma send_message_text a w :
  strip (input_box a) <> [] ->
  dropped_files a = [] ->
  let user_text := strip (input_box a) in
  let light := truthy (light_mode a) in
  let a1 :=
    set_dropped_files []
      (set_chat_area (chat_area a ++ [you_block light (html_escape user_text)])
         (set_input_box []
            (set_chat_area (chat_area a ++ [you_block light (html_escape user_text)]) a))) in
  send_message (a, w) =
    match chat_with_memory user_text (current_session a) (model a) (max_history a)
            (summary_threshold a) (agent_prompt a) w with
    | (Raised e, w') => (Raised e, (a1, w'))
    | (Returned assistant_reply, w') =>
        match escape_value assistant_reply with
        | Raised e => (Raised e, (a1, w'))
        | Returned reply =>
            (Returned tt,
             (set_chat_area (chat_area a1 ++ [assistant_block light reply]) a1, w'))
        end
    end.
Proof.
  intros Ht Hd. cbv zeta. unfold send_message.
  destruct (strip (input_box a)) as [|c s]; [congruence|].
  cbn [set_input_box set_chat_area dropped_files]. rewrite Hd.
  cbn [fold_left]. rewrite app_nil_r. reflexivity.
Qed.

Lemma reload_same a w a' w' :
  current_session a' = current_session a ->
  light_mode a' = light_mode a ->
  files w' = files w ->
  fst (load_session_chat None (a', w')) = fst (load_session_chat None (a, w))
  /\ chat_area (fst (snd (load_session_chat None (a', w')))) =
     chat_area (fst (snd (load_session_chat None (a, w)))).
Proof.
  intros Hc Hl Hf.
  destruct (load_session_chat None (a', w')) as [r' [b' v']] eqn:E'.
  destruct (load_session_chat None (a, w)) as [r [b v]] eqn:E.
  apply load_session_chat_frame in E' as (_ & _ & _ & _ & _ & Hb').
  apply load_session_chat_frame in E as (_ & _ & _ & _ & _ & Hb).
  cbv zeta in Hb, Hb'. rewrite Hc, Hl in Hb'.
  rewrite (load_memory_node (current_session a) w' (current_session a) w) in Hb'
    by (rewrite Hf; reflexivity).
  rewrite <- Hb in Hb'. injection Hb' as Hr Ha. cbn [fst snd]. split; assumption.
Qed.

(** X20.  A failed turn is shown and not saved: [send_message] puts the
    user's text and the error string on display and empties the input
    box, no file changes, and a reload of the session shows what it
    showed before the message was sent. *)
Theorem failed_turn_is_shown_not_saved (a : App) (w w1 : World)
    (memory : list pyval) (reply : pystr) :
  let user_text := strip (input_box a) in
  let light := truthy (light_mode a) in
  user_text <> [] ->
  dropped_files a = [] ->
  generate_reply user_text (current_session a) (model a) (max_history a)
    (summary_threshold a) (agent_prompt a) w = (Returned (memory, VStr reply), w1) ->
  reply = [] \/ startswith_any reply ERROR_PREFIXES = true ->
  exists a',
    send_message (a, w) = (Returned tt, (a', w1))
    /\ chat_area a' =
         chat_area a ++ [you_block light (html_escape user_text);
                         assistant_block light (html_escape reply)]
    /\ input_box a' = []
    /\ files w1 = files w
    /\ chat_area (fst (snd (load_session_chat None (a', w1)))) =
       chat_area (fst (snd (load_session_chat None (a, w)))).
Proof.
  intros user_text light Ht Hd Eg Hr.
  pose proof (generate_reply_files _ _ _ _ _ _ _ _ _ Eg) as Hf.
  rewrite (send_message_text a w Ht Hd). fold user_text light.
  rewrite (chat_with_memory_after _ _ _ _ _ _ _ _ _ Eg), (reply_failed_str _ Hr).
  cbn [escape_value]. eexists. split; [reflexivity|].
  cbn [set_chat_area set_dropped_files set_input_box chat_area input_box].
  split; [rewrite <- app_assoc; reflexivity|]. split; [reflexivity|]. split; [exact Hf|].
  apply reload_same; [reflexivity|reflexivity|exact Hf].
Qed.

(** X21.  A reply that is not a string makes [send_message] raise
    [AttributeError], for [startswith] in the turn when the reply is
    truthy and for [replace] in [html.escape] when it is not, once the
    user's text is on display and the input box is empty; no file
    changes. *)
Theorem reply_not_a_string_raises (a : App) (w w1 : World)
    (memory : list pyval) (reply : pyval) :
  let user_text := strip (input_box a) in
  let light := truthy (light_mode a) in
  user_text <> [] ->
  dropped_files a = [] ->
  generate_reply user_text (current_session a) (model a) (max_history a)
    (summary_threshold a) (agent_prompt a) w = (Returned (memory, reply), w1) ->
  (forall s, reply <> VStr s) ->
  exists a',
    send_message (a, w) =
      (Raised (AttributeError reply
                 (if truthy reply then lit "startswith" else lit "replace")),
       (a', w1))
    /\ chat_area a' = chat_area a ++ [you_block light (html_escape user_text)]
    /\ input_box a' = []
    /\ files w1 = files w.
Proof.
  intros user_text light Ht Hd Eg Hns.
  pose proof (generate_reply_files _ _ _ _ _ _ _ _ _ Eg) as Hf.
  rewrite (send_message_text a w Ht Hd). fold user_text light.
  rewrite (chat_with_memory_after _ _ _ _ _ _ _ _ _ Eg). unfold reply_failed.
  destruct (truthy reply); cbn [negb].
  - destruct reply; try (eexists; split; [reflexivity|cbn; auto]).
    exfalso. eapply Hns. reflexivity.
  - destruct reply; cbn [escape_value]; try (eexists; split; [reflexivity|cbn; auto]).
    exfalso. eapply Hns. reflexivity.
Qed.

End Sending.


Section Reloading.
Context `{PyBuiltins} `{PyUnicode}.



End Reloading.

(** ** Worked examples for Part III *)

(** A list that holds no message is saved and read back as well. *)
Lemma load_after_save_plain_witness :
  exists w',
    @write_memory ascii_runtime (MEMORY_FILE session_t1) [VInt 1; VNone] (world ∅ [])
      = (Returned tt, w') /\
    load_memory session_t1 w' = ([VInt 1; VNone], w').
Proof.
  eexists. split; [vm_compute; reflexivity|].
  apply (@load_after_save_plain ascii_runtime [VInt 1; VNone] session_t1 (world ∅ [])).
  - reflexivity.
  - vm_compute. reflexivity.
Defined.

(** A turn on three messages with [summary_threshold = 3] posts the
    summary request and the final one. *)
Lemma requests_per_turn_witness :
  exists payloads,
    sent (snd (@chat_with_memory ascii_runtime (lit "more") session_t1 llama3 2 3 []
                 (world_with session_t1 greeting [reply_ok (lit "s"); reply_ok (lit "fine")])))
      = [] ++ payloads /\
    length payloads = 2 /\
    Forall (fun p => payload_model p = llama3 /\ payload_stream p = false) payloads.
Proof.
  apply (@requests_per_turn ascii_runtime (lit "more") session_t1 llama3 2 3 []
           (world_with session_t1 greeting [reply_ok (lit "s"); reply_ok (lit "fine")])
           _ (VStr (lit "fine"))).
  vm_compute. reflexivity.
Defined.

(** With [max_history = 2] and [summary_threshold = 3], a turn on three
    messages saves four. *)
Lemma transcript_stays_bounded_witness :
  exists memory reply w1,
    @generate_reply ascii_runtime (lit "more") session_t1 llama3 2 3 []
      (world_with session_t1 greeting [reply_ok (lit "s"); reply_ok (lit "fine")])
      = (Returned (memory, reply), w1) /\
    (Z.of_nat (length (memory ++ [message (lit "assistant") reply])) <= 2 + 2)%Z.
Proof.
  eexists _, _, _. split; [vm_compute; reflexivity|].
  edestruct (@transcript_stays_bounded ascii_runtime (lit "more") session_t1 llama3 2 3 []
               (world_with session_t1 greeting [reply_ok (lit "s"); reply_ok (lit "fine")]))
    as (_ & Hfire & _).
  - lia.
  - vm_compute. reflexivity.
  - apply Hfire. vm_compute. reflexivity.
Defined.

(** With [max_history = 2] and [summary_threshold = 3], the turn after a
    summary summarises again. *)
Lemma summarisation_repeats_witness :
  exists memory' w',
    @summarize ascii_runtime
      (map message_value greeting ++ [message (lit "user") (VStr (lit "more"))])
      llama3 2 3 (world ∅ [reply_ok (lit "s")]) = (Returned memory', w') /\
    (Z.of_nat (length ((memory' ++ [message (lit "assistant") (VStr (lit "fine"))])
                       ++ [message (lit "user") (VStr (lit "next"))])) > 3)%Z.
Proof.
  eexists _, _. split; [vm_compute; reflexivity|].
  eapply (@summarisation_repeats ascii_runtime
            (map message_value greeting ++ [message (lit "user") (VStr (lit "more"))])
            llama3 2 3 (world ∅ [reply_ok (lit "s")])).
  - lia.
  - lia.
  - vm_compute. reflexivity.
  - vm_compute. reflexivity.
Defined.


(** A turn on the record of three messages returns or raises for the
    reply. *)
Lemma turn_on_well_formed_record_witness :
  exists r w',
    @chat_with_memory ascii_runtime (lit "more") session_t1 llama3 5 20 []
      (world_with session_t1 greeting [reply_null]) = (Returned r, w') \/
    ((forall s, r <> VStr s) /\ @truthy ascii_runtime r = true /\
     @chat_with_memory ascii_runtime (lit "more") session_t1 llama3 5 20 []
       (world_with session_t1 greeting [reply_null])
       = (Raised (AttributeError r (lit "startswith")), w')).
Proof.
  apply (@turn_on_well_formed_record ascii_runtime (lit "more") session_t1 llama3 5 20 []
           (world_with session_t1 greeting [reply_null])).
  vm_compute. reflexivity.
Defined.

(** A turn on a record that lists a number raises. *)
Lemma malformed_window_raises_witness :
  exists e,
    rendering_error e /\
    @chat_with_memory ascii_runtime (lit "more") session_t1 llama3 5 20 []
      world_list_of_int = (Raised e, snd (load_memory session_t1 world_list_of_int)).
Proof.
  apply (@malformed_window_raises ascii_runtime (lit "more") session_t1 llama3 5 20 []
           world_list_of_int).
  - vm_compute. discriminate.
  - vm_compute. reflexivity.
Defined.

(** A reply whose response field is null is returned and not saved. *)
Lemma non_string_reply_witness :
  exists w1,
    files w1 = files (world_with session_t1 greeting [reply_null]) /\
    @chat_with_memory ascii_runtime (lit "more") session_t1 llama3 5 20 []
      (world_with session_t1 greeting [reply_null]) = (Returned VNone, w1).
Proof.
  eexists.
  eapply (@non_string_reply ascii_runtime (lit "more") session_t1 llama3 5 20 []
            (world_with session_t1 greeting [reply_null]) _ _ VNone).
  - vm_compute. reflexivity.
  - discriminate.
Defined.

(** With [max_history = 0] the window is the whole transcript. *)
Lemma window_without_positive_max_history_witness :
  slice_from (map message_value greeting) (- 0) = drop 0 (map message_value greeting) /\
  context_messages (map message_value greeting) 0 [] = drop 0 (map message_value greeting).
Proof.
  destruct (@window_without_positive_max_history ascii_runtime (map message_value greeting)
              llama3 0 20 (world ∅ []) (world ∅ []) []) as (Hs & Hc & _); [lia|].
  split; [exact Hs|exact Hc].
Defined.

(** The block of a message whose content is a tag has as many angle
    brackets as the block of an empty message. *)
Lemma content_adds_no_markup_witness :
  exists block empty,
    @chat_block ascii_runtime false (message (lit "user") (VStr (lit "<b>")))
      = Returned block
    /\ @chat_block ascii_runtime false (message (lit "user") (VStr [])) = Returned empty
    /\ occurrences (chr "<") block = occurrences (chr "<") empty.
Proof.
  apply (@content_adds_no_markup ascii_runtime false (lit "user") (lit "<b>") (chr "<")).
  left.
Defined.

(** The list of a directory that holds the record of "t1". *)
Lemma load_sessions_lists_records_witness :
  let items := session_list (load_sessions (window []) (world_with session_t1 greeting [])) in
  NoDup items
  /\ items <> []
  /\ forall s, s ∈ items <->
       is_Some (files (world_with session_t1 greeting []) !! MEMORY_FILE s)
       \/ (s = lit "default"
           /\ forall s', files (world_with session_t1 greeting []) !! MEMORY_FILE s' = None).
Proof.
  apply (load_sessions_lists_records (window []) (world_with session_t1 greeting [])).
  vm_compute. reflexivity.
Defined.

(** Creating the chat "a/b" in a window that lists "t1". *)
Lemma sidebar_lists_no_session_twice_witness :
  NoDup (session_list (fst (snd (@create_new_chat ascii_runtime ascii_unicode
           (lit "a/b", true) (window [], world_with session_t1 greeting []))))).
Proof.
  apply (@sidebar_lists_no_session_twice ascii_runtime ascii_unicode (window [])
           (world_with session_t1 greeting []) session_t1 None None false (lit "a/b", true)).
  apply NoDup_singleton.
Defined.

(** The chat " a/b " is listed as "a_b" and has no record. *)
Lemma new_chat_has_no_record_witness :
  let '(r, (a', w')) :=
    @create_new_chat ascii_runtime ascii_unicode (lit " a/b ", true)
      (window [], world_with session_t1 greeting []) in
  session_list a' = [session_t1] ++ [lit "a_b"]
  /\ files w' = files (world_with session_t1 greeting [])
  /\ lit "a_b" ∉ session_list (load_sessions a' w').
Proof.
  pose proof (@new_chat_has_no_record ascii_runtime ascii_unicode (lit " a/b ")
                (window []) (world_with session_t1 greeting [])) as Hthm.
  destruct (@create_new_chat ascii_runtime ascii_unicode (lit " a/b ", true)
              (window [], world_with session_t1 greeting [])) as [r [a' w']].
  destruct Hthm as (Hl & _ & Hf & _ & _ & Hnone).
  - vm_compute. reflexivity.
  - discriminate.
  - vm_compute. discriminate.
  - intros Hin. apply list_elem_of_singleton in Hin. vm_compute in Hin. discriminate.
  - split; [exact Hl|]. split; [exact Hf|].
    apply Hnone; [vm_compute; reflexivity|vm_compute; discriminate].
Defined.



(** A message sent while the endpoint answers with status 500. *)
Lemma failed_turn_is_shown_not_saved_witness :
  exists a' w1,
    @send_message ascii_runtime ascii_unicode
      (window (lit " again "), world_with session_t1 greeting [reply_500])
      = (Returned tt, (a', w1))
    /\ chat_area a' =
         [] ++ [you_block false (html_escape (lit "again"));
                assistant_block false
                  (html_escape (lit "HTTP Error: 500 Server Error, oops"))]
    /\ files w1 = files (world_with session_t1 greeting [reply_500]).
Proof.
  edestruct (@failed_turn_is_shown_not_saved ascii_runtime ascii_unicode
               (window (lit " again ")) (world_with session_t1 greeting [reply_500]))
    as (a' & Hs & Ha & _ & Hf & _).
  - vm_compute. discriminate.
  - reflexivity.
  - vm_compute. reflexivity.
  - right. vm_compute. reflexivity.
  - exists a'. eexists. split; [exact Hs|]. split; [exact Ha|exact Hf].
Defined.

(** A message sent while the endpoint answers with a null response. *)
Lemma reply_not_a_string_raises_witness :
  exists a' w1,
    @send_message ascii_runtime ascii_unicode
      (window (lit "hello"), world_with session_t1 greeting [reply_null])
      = (Raised (AttributeError VNone (lit "replace")), (a', w1))
    /\ chat_area a' = [] ++ [you_block false (html_escape (lit "hello"))]
    /\ input_box a' = [].
Proof.
  epose proof (@reply_not_a_string_raises ascii_runtime ascii_unicode
                 (window (lit "hello")) (world_with session_t1 greeting [reply_null])
                 _ _ VNone) as Hthm.
  destruct Hthm as (a' & Hs & Ha & Hi & _).
  - vm_compute. discriminate.
  - reflexivity.
  - vm_compute. reflexivity.
  - discriminate.
  - exists a'. eexists. split; [exact Hs|]. split; [exact Ha|exact Hi].
Defined.


